(** * AlgoRL: tabular temporal-difference learning and multi-armed bandits

    A shallow embedding of [src/algorl/src/TD.py] and
    [src/algorl/src/bandit.py].

    - Numbers are IEEE binary64 floats, as Python's [float] and NumPy's
      [float64]: Rocq's primitive floats, with the operations written in the
      order the source evaluates them.
    - A raised Python exception is the outcome [Raise]; a loop that is cut
      off by the fuel of the model is the outcome [OutOfFuel].
    - Random draws are taken from an abstract generator state that is
      threaded through every call, in the order the source draws them. *)

From Stdlib Require Import ZArith Bool List Lia String.
From Stdlib Require Import Floats.
From stdpp Require Import gmap list strings.

Set Default Proof Using "Type".

(** ** Outcomes of a run *)

Inductive exn : Type :=
| AttributeError
| IndexError
| KeyError
| OverflowError
| TypeError
| ValueError
| ZeroDivisionError.

Inductive run (A : Type) : Type :=
| Ret (a : A)
| Raise (e : exn)
| OutOfFuel.

Arguments Ret {A} a.
Arguments Raise {A} e.
Arguments OutOfFuel {A}.

#[global] Instance run_bind : MBind run := fun A B k m =>
  match m with
  | Ret a => k a
  | Raise e => Raise e
  | OutOfFuel => OutOfFuel
  end.

#[global] Instance run_ret : MRet run := fun A a => Ret a.

(** A lookup that raises [e] when the key is absent. *)
Definition or_raise {A : Type} (e : exn) (o : option A) : run A :=
  match o with
  | Some a => Ret a
  | None => Raise e
  end.

(** [for x in xs: s = body(x, s)], stopping at the first exception. *)
Fixpoint for_each {X S : Type} (xs : list X) (body : X -> S -> run S) (s : S)
  : run S :=
  match xs with
  | [] => Ret s
  | x :: xs' => s' ← body x s; for_each xs' body s'
  end.

(** [while cond(s): s = body(s)].  The fuel bounds the number of times the
    body runs; the condition is tested before fuel is looked at, so a loop
    whose body runs [n] times returns with fuel [n]. *)
Fixpoint while {S : Type} (fuel : nat) (cond : S -> bool) (body : S -> run S)
  (s : S) {struct fuel} : run S :=
  if cond s then
    match fuel with
    | O => OutOfFuel
    | Datatypes.S fuel' =>
        match body s with
        | Ret s' => while fuel' cond body s'
        | Raise e => Raise e
        | OutOfFuel => OutOfFuel
        end
    end
  else Ret s.

(** A comprehension [[f(x) for x in xs]], stopping at the first exception. *)
Fixpoint map_run {X Y : Type} (f : X -> run Y) (xs : list X) : run (list Y) :=
  match xs with
  | [] => Ret []
  | x :: xs' => y ← f x; ys ← map_run f xs'; Ret (y :: ys)
  end.

(** [range(lo, hi)] over the integers. *)
Definition py_range (lo hi : Z) : list Z :=
  map (fun i => (lo + Z.of_nat i)%Z) (seq 0 (Z.to_nat (hi - lo))).

(** ** Floats *)

Module Float.

(** A Python [int] used where a float is expected (exact below 2^53). *)
Definition of_Z (z : Z) : float :=
  match z with
  | Zneg _ => PrimFloat.opp (PrimFloat.of_uint63 (Uint63.of_Z (Z.opp z)))
  | _ => PrimFloat.of_uint63 (Uint63.of_Z z)
  end.

(** A Python [bool] used as a factor: [True] is 1 and [False] is 0. *)
Definition of_bool (b : bool) : float :=
  if b then PrimFloat.one else PrimFloat.zero.

(** Python's builtin [max] over a sequence of floats: the running maximum is
    replaced only by an item that compares strictly greater; the empty
    sequence raises ValueError. *)
Definition max_step (m x : float) : float :=
  if PrimFloat.ltb m x then x else m.

Definition py_max (l : list float) : run float :=
  match l with
  | [] => Raise ValueError
  | x :: xs => Ret (fold_left max_step xs x)
  end.

(** Python's builtin [sum] over floats: starts from the integer 0. *)
Definition py_sum (l : list float) : float :=
  fold_left PrimFloat.add l PrimFloat.zero.

(** pandas reductions skip NaN: [Series.max()] is the maximum of the
    entries that are not NaN, and NaN when there is none. *)
Definition skipna (l : list float) : list float :=
  List.filter (fun x => negb (PrimFloat.is_nan x)) l.

Definition series_max (l : list float) : float :=
  match skipna l with
  | [] => PrimFloat.nan
  | x :: xs => fold_left max_step xs x
  end.

(** NumPy's argmax loop over floats: position of the first largest entry.
    [i] is the position of [x], [best] the position of [m]. *)
Fixpoint argmax_from (l : list float) (i : nat) (m : float) (best : nat) : nat :=
  match l with
  | [] => best
  | x :: xs =>
      if negb (PrimFloat.leb x m) then argmax_from xs (S i) x i
      else argmax_from xs (S i) m best
  end.

(** [np.argmax] of a pandas Series ([Series.argmax], which skips NaN by
    reading it as minus infinity): ValueError on an empty row or a row of
    NaN only. *)
Definition nan_to_neg_inf (x : float) : float :=
  if PrimFloat.is_nan x then PrimFloat.neg_infinity else x.

Definition series_argmax (row : list float) : run nat :=
  match row with
  | [] => Raise ValueError
  | x :: xs =>
      if forallb PrimFloat.is_nan row then Raise ValueError
      else Ret (argmax_from (map nan_to_neg_inf xs) 1 (nan_to_neg_inf x) 0)
  end.

End Float.

(** Python's [l[i]]: a negative index counts from the end; out of range
    raises IndexError. *)
Definition py_index {A : Type} (l : list A) (i : Z) : run A :=
  let j := if (i <? 0)%Z then (Z.of_nat (length l) + i)%Z else i in
  if (j <? 0)%Z then Raise IndexError
  else or_raise IndexError (l !! Z.to_nat j).

(** ** What the run-time environment provides

    Random draws: each takes the generator state and returns its draw with
    the next generator state.
    - [np_random_rand]: [np.random.rand()];
    - [np_random_randint high]: [np.random.randint(high)];
    - [np_random_choice n]: the position [np.random.choice] picks in a
      sequence of length [n];
    - [np_random_normal mu sigma]: [np.random.normal(mu, sigma, size=1)[0]]
      for a [sigma] that NumPy accepts;
    - [random_choice n]: the position [random.choice] picks in a sequence of
      length [n]. *)
Class Random (rng : Type) : Type := {
  np_random_rand : rng -> float * rng;
  np_random_randint : Z -> rng -> Z * rng;
  np_random_choice : nat -> rng -> nat * rng;
  np_random_normal : float -> float -> rng -> float * rng;
  random_choice : nat -> rng -> nat * rng;
}.

(** The C library's [pow] behind [x ** k], a float to an integer power. *)
Class Pow : Type := pow : float -> Z -> float.

(** Python's [x ** k] for a float [x] and an integer [k].  The exponents 0
    and 1 give 1.0 and [x] and raise nothing; nor does a NaN or an infinite
    [x].  A zero [x] to a negative power raises ZeroDivisionError, and a
    finite [x] whose power is infinite raises OverflowError. *)
Definition py_pow `{!Pow} (x : float) (k : Z) : run float :=
  if (k =? 0)%Z || (k =? 1)%Z then Ret (pow x k)
  else if PrimFloat.is_nan x || PrimFloat.is_infinity x then Ret (pow x k)
  else if PrimFloat.is_zero x then
    if (k <? 0)%Z then Raise ZeroDivisionError else Ret (pow x k)
  else if PrimFloat.is_infinity (pow x k) then Raise OverflowError
  else Ret (pow x k).

(** The C library's [log] behind [np.log]. *)
Class Log : Type := log : float -> float.

(** The methods the TD classes inherit from [tool_box.RLFunctions], which is
    not among the sources: they draw from the generator and return an
    action. *)
Class RLFunctions (State Action rng : Type) : Type := {
  get_random_action : option State -> rng -> Action * rng;
  epsilon_greedy : Action -> rng -> Action * rng;
}.

(** ** Temporal-difference learning ([TD.py]) *)

Module TD.
Section WithEnvironment.

(** A state is a tuple of coordinates, as [MultiIndex.from_tuples] in
    [get_q_df] needs it; [State] is the type of these tuples. *)
Context {State Action : Type} `{Countable State} `{Countable Action}.

(** The consumed environment contract: an object with exactly these
    attributes.  The predicate and the transition are functions of their
    arguments; [grid] is the one mutable container. *)
Record Env : Type := {
  possible_actions : list Action;
  all_states : list State;
  available_states : list State;
  initial_state : option State;
  is_terminal_state : State -> bool;
  new_state_given_action : State -> Action -> State;
  grid : gmap State float;
}.

Definition set_grid (env : Env) (g : gmap State float) : Env :=
  {| possible_actions := possible_actions env;
     all_states := all_states env;
     available_states := available_states env;
     initial_state := initial_state env;
     is_terminal_state := is_terminal_state env;
     new_state_given_action := new_state_given_action env;
     grid := g |}.

(** Attribute lookup by name, as Python resolves [env.<name>] at run time:
    a name outside the contract raises AttributeError. *)
Inductive attr : Type :=
| AttrActions (l : list Action)
| AttrStates (l : list State)
| AttrState (s : option State)
| AttrPredicate (f : State -> bool)
| AttrTransition (f : State -> Action -> State)
| AttrGrid (g : gmap State float).

Definition getattr (env : Env) (name : string) : run attr :=
  if String.eqb name "possible_actions" then Ret (AttrActions (possible_actions env))
  else if String.eqb name "all_states" then Ret (AttrStates (all_states env))
  else if String.eqb name "available_states" then Ret (AttrStates (available_states env))
  else if String.eqb name "initial_state" then Ret (AttrState (initial_state env))
  else if String.eqb name "is_terminal_state" then Ret (AttrPredicate (is_terminal_state env))
  else if String.eqb name "new_state_given_action" then
    Ret (AttrTransition (new_state_given_action env))
  else if String.eqb name "grid" then Ret (AttrGrid (grid env))
  else Raise AttributeError.

(** [env.<name>(state, action)]. *)
Definition call_method (env : Env) (name : string) (state : State) (action : Action)
  : run State :=
  a ← getattr env name;
  match a with
  | AttrTransition f => Ret (f state action)
  | _ => Raise TypeError
  end.

(** [env.grid[state]]. *)
Definition grid_at (env : Env) (state : State) : run float :=
  or_raise KeyError (grid env !! state).

(** The fields every TD class sets in [__init__]; [starting_state] is the
    attribute after [__init__] has replaced a missing argument by
    [env.initial_state]. *)
Record Agent : Type := {
  env : Env;
  alpha : float;
  gamma : float;
  epsilon : float;
  reward : float;
  step_cost : float;
  starting_state : option State;
  num_of_epochs : nat;
  num_episodes : Z;
  n_step : Z;
}.

Context {rng : Type} `{!Random rng} `{!Pow} `{!RLFunctions State Action rng}.

(** The action-value table: a DataFrame indexed by state with one column per
    action; [q.at[state, action]] raises KeyError on a missing label. *)
Abbreviation qtable := (gmap (State * Action) float).

Definition q_at (q : qtable) (state : State) (action : Action) : run float :=
  or_raise KeyError (q !! (state, action)).

(** [q.loc[state, :]]: the row of [state] in column order. *)
Definition q_loc (self : Agent) (q : qtable) (state : State) : run (list float) :=
  map_run (fun a => q_at q state a) (possible_actions (env self)).

Definition sarsa_formula (self : Agent) (q_values_df : qtable)
  (state : State) (action : Action) (reward : float)
  (next_state : State) (next_action : Action) : run qtable :=
  old ← q_at q_values_df state action;
  qn ← q_at q_values_df next_state next_action;
  Ret (<[(state, action) :=
          (old + alpha self * (reward + gamma self * qn - old))%float]> q_values_df).

Definition q_learning_formula (self : Agent) (q_values_df : qtable)
  (state : State) (action : Action) (reward : float)
  (next_state : State) (_ : Action) : run qtable :=
  row ← map_run (fun x => q_at q_values_df next_state x) (possible_actions (env self));
  max_value ← Float.py_max row;
  old ← q_at q_values_df state action;
  Ret (<[(state, action) :=
          (old + alpha self * (reward + gamma self * max_value - old))%float]> q_values_df).

(** The exploitation branch of [select_action]:
    [self.env.possible_actions[np.argmax(Q.loc[state, :])]]. *)
Definition greedy_action (self : Agent) (state : State) (Q : qtable) : run Action :=
  row ← q_loc self Q state;
  i ← Float.series_argmax row;
  or_raise IndexError (possible_actions (env self) !! i).

Definition select_action (self : Agent) (state : State) (Q : qtable) (g : rng)
  : run (Action * rng) :=
  let '(u, g1) := np_random_rand g in
  if PrimFloat.ltb u (epsilon self) then Ret (get_random_action (Some state) g1)
  else
    a ← greedy_action self state Q;
    Ret (a, g1).

(** [pd.DataFrame(0, columns=possible_actions, index=..., dtype=float)]
    over the index of all states. *)
Definition zero_table (self : Agent) : qtable :=
  list_to_map
    (flat_map (fun s => map (fun a => ((s, a), PrimFloat.zero))
                          (possible_actions (env self)))
              (all_states (env self))).

(** [pd.MultiIndex.from_tuples] cannot infer the number of levels from an
    empty list: it raises TypeError. *)
Definition get_q_df (self : Agent) : run qtable :=
  match all_states (env self) with
  | [] => Raise TypeError
  | _ => Ret (zero_table self)
  end.

(** A Python dict keeps its keys in insertion order; assigning to a present
    key keeps its place. *)
Fixpoint dict_get (d : list (State * Action)) (k : State) : option Action :=
  match d with
  | [] => None
  | (k', v) :: d' => if decide (k' = k) then Some v else dict_get d' k
  end.

Fixpoint dict_set (d : list (State * Action)) (k : State) (v : Action)
  : list (State * Action) :=
  match d with
  | [] => [(k, v)]
  | (k', v') :: d' =>
      if decide (k' = k) then (k', v) :: d' else (k', v') :: dict_set d' k v
  end.

(** [{state: self.get_random_action() for state in self.env.all_states}] *)
Definition random_pairs (self : Agent) (g : rng) : list (State * Action) * rng :=
  fold_left
    (fun '(d, g) state =>
       let '(a, g') := get_random_action None g in (dict_set d state a, g'))
    (all_states (env self)) ([], g).

(** [for x, y in pairs.items(): pairs[x] = self.epsilon_greedy(y)] *)
Fixpoint greedy_pairs (d : list (State * Action)) (g : rng)
  : list (State * Action) * rng :=
  match d with
  | [] => ([], g)
  | (x, y) :: d' =>
      let '(y', g1) := epsilon_greedy y g in
      let '(d'', g2) := greedy_pairs d' g1 in
      ((x, y') :: d'', g2)
  end.

(** The first state of an episode. *)
Definition first_state (self : Agent) (g : rng) : run (State * rng) :=
  match starting_state self with
  | Some s => Ret (s, g)
  | None =>
      let '(i, g') := random_choice (length (available_states (env self))) g in
      s ← or_raise IndexError (available_states (env self) !! i);
      Ret (s, g')
  end.

(** The variables of the stepping loop of [td_control]. *)
Record Control : Type := {
  q_values_df : qtable;
  state_action_pairs : list (State * Action);
  state : State;
  action : Action;
  num_of_steps : Z;
  gen : rng;
}.

Definition algorithm : Type :=
  qtable -> State -> Action -> float -> State -> Action -> run qtable.

Definition td_control_cond (self : Agent) (c : Control) : bool :=
  negb (is_terminal_state (env self) (state c))
  && (num_of_steps c <? num_episodes self)%Z.

Definition td_control_body (self : Agent) (algo : algorithm) (c : Control)
  : run Control :=
  next_state ← call_method (env self) "new_state_given_action" (state c) (action c);
  y ← or_raise KeyError (dict_get (state_action_pairs c) next_state);
  let '(next_action, g1) := epsilon_greedy y (gen c) in
  reward ← grid_at (env self) next_state;
  q ← algo (q_values_df c) (state c) (action c) reward next_state next_action;
  Ret {| q_values_df := q;
         state_action_pairs := dict_set (state_action_pairs c) next_state next_action;
         state := next_state;
         action := next_action;
         num_of_steps := num_of_steps c + 1;
         gen := g1 |}.

(** One pass of [for epoch in range(self.num_of_epochs)]. *)
Definition td_control_epoch (fuel : nat) (self : Agent) (algo : algorithm)
  (acc : qtable * list (State * Action) * rng)
  : run (qtable * list (State * Action) * rng) :=
  let '(q, pairs, g) := acc in
  '(s, g1) ← first_state self g;
  a ← or_raise KeyError (dict_get pairs s);
  c ← while fuel (td_control_cond self) (td_control_body self algo)
        {| q_values_df := q; state_action_pairs := pairs; state := s; action := a;
           num_of_steps := 0; gen := g1 |};
  Ret (q_values_df c, state_action_pairs c, gen c).

(** [td_control]: the table handed to [drew_policy], with the generator. *)
Definition td_control (fuel : nat) (self : Agent) (algo : algorithm) (g : rng)
  : run (qtable * rng) :=
  q ← get_q_df self;
  let '(pairs, g1) := random_pairs self g in
  let '(pairs', g2) := greedy_pairs pairs g1 in
  '(q', _, g3) ← for_each (seq 0 (num_of_epochs self))
                    (fun _ acc => td_control_epoch fuel self algo acc) (q, pairs', g2);
  Ret (q', g3).

Definition Sarsa_compute_state_value (fuel : nat) (self : Agent) (g : rng) :=
  td_control fuel self (sarsa_formula self) g.

Definition QLearning_compute_state_value (fuel : nat) (self : Agent) (g : rng) :=
  td_control fuel self (q_learning_formula self) g.

(** *** TabularTD0 *)

(** One record of [logger.debug]: the state, the action drawn there and the
    state it leads to. *)
Definition transition : Type := (State * Action * State)%type.

(** The variables of the stepping loop of [TabularTD0.compute_state_value];
    the value estimates live in [grid] of [td0_env]. *)
Record TD0 : Type := {
  td0_env : Env;
  td0_state : State;
  td0_done : bool;
  td0_gen : rng;
  td0_log : list transition;
}.

Definition td0_cond (c : TD0) : bool := negb (td0_done c).

Definition td0_body (self : Agent) (c : TD0) : run TD0 :=
  let e := td0_env c in
  let state := td0_state c in
  let done := td0_done c in
  let '(action, g1) := get_random_action None (td0_gen c) in
  next_state ← call_method e "new_state_given_action" state action;
  v ← grid_at e state;
  vn ← grid_at e next_state;
  Ret {| td0_env :=
           set_grid e
             (<[state := (v + alpha self *
                            (reward self + gamma self * vn * Float.of_bool (negb done) - v))%float]>
                (grid e));
         td0_state := next_state;
         td0_done := is_terminal_state e next_state;
         td0_gen := g1;
         td0_log := td0_log c ++ [(state, action, next_state)] |}.

(** One pass of [for epoch in range(self.num_of_epochs)].  A missing
    starting state would be handed to the environment as [None], which the
    contract does not cover: the model raises TypeError. *)
Definition td0_epoch (fuel : nat) (self : Agent)
  (acc : Env * rng * list transition) : run (Env * rng * list transition) :=
  let '(e, g, log) := acc in
  state ← or_raise TypeError (starting_state self);
  c ← while fuel td0_cond (td0_body self)
        {| td0_env := e; td0_state := state; td0_done := false; td0_gen := g;
           td0_log := log |};
  Ret (td0_env c, td0_gen c, td0_log c).

(** [TabularTD0.compute_state_value]: the environment it leaves behind, the
    generator and the debug log. *)
Definition TabularTD0_compute_state_value (fuel : nat) (self : Agent) (g : rng)
  : run (Env * rng * list transition) :=
  for_each (seq 0 (num_of_epochs self))
    (fun _ acc => td0_epoch fuel self acc) (env self, g, []).

(** *** NStepTD *)

Record NStep : Type := {
  ns_env : Env;
  ns_T : Z;
  ns_t : Z;
  ns_states : list State;
  ns_rewards : list float;
  ns_state : State;
  ns_next_state : option State;
  ns_done : bool;
  ns_gen : rng;
  ns_log : list transition;
}.

Definition ns_cond (c : NStep) : bool := negb (ns_done c).

(** [if t < T: ...]: draw an action, query the environment, record state and
    reward, and close the episode when the current state is terminal. *)
Definition ns_observe (self : Agent) (c : NStep) : run NStep :=
  if (ns_t c <? ns_T c)%Z then
    let '(action, g1) := get_random_action None (ns_gen c) in
    next_state ← call_method (ns_env c) "new_state_given_action" (ns_state c) action;
    vn ← grid_at (ns_env c) next_state;
    let reward := (vn + step_cost self)%float in
    let terminal := is_terminal_state (ns_env c) (ns_state c) in
    Ret {| ns_env := ns_env c;
           ns_T := if terminal then (ns_t c + 1)%Z else ns_T c;
           ns_t := ns_t c;
           ns_states := ns_states c ++ [ns_state c];
           ns_rewards := ns_rewards c ++ [reward];
           ns_state := ns_state c;
           ns_next_state := Some next_state;
           ns_done := if terminal then true else ns_done c;
           ns_gen := g1;
           ns_log := ns_log c ++ [(ns_state c, action, next_state)] |}
  else Ret c.

(** [G], as computed when [r >= 0]. *)
Definition ns_return (self : Agent) (c : NStep) (r : Z) : run float :=
  terms ← map_run
            (fun x => rx ← py_index (ns_rewards c) x;
                      p ← py_pow (gamma self) (r - x);
                      Ret (rx * p)%float)
            (py_range r (Z.min (r + n_step self) (ns_T c)));
  let G := Float.py_sum terms in
  if (r + n_step self <? ns_T c)%Z then
    p ← py_pow (gamma self) (n_step self);
    s ← py_index (ns_states c) (r + n_step self - 1);
    v ← grid_at (ns_env c) s;
    Ret (G + p * v)%float
  else Ret G.

(** [if r >= 0: ...]: the delayed update of [states[r]]. *)
Definition ns_update (self : Agent) (c : NStep) (r : Z) : run Env :=
  if (0 <=? r)%Z then
    G ← ns_return self c r;
    if negb (is_terminal_state (ns_env c) (ns_state c)) then
      s ← py_index (ns_states c) r;
      v ← grid_at (ns_env c) s;
      Ret (set_grid (ns_env c)
             (<[s := (v + alpha self * (G - v))%float]> (grid (ns_env c))))
    else Ret (ns_env c)
  else Ret (ns_env c).

Definition ns_body (self : Agent) (c0 : NStep) : run NStep :=
  c ← ns_observe self c0;
  let r := (ns_t c - n_step self + 1)%Z in
  e ← ns_update self c r;
  next_state ← or_raise TypeError (ns_next_state c);
  Ret {| ns_env := e;
         ns_T := ns_T c;
         ns_t := (ns_t c + 1)%Z;
         ns_states := ns_states c;
         ns_rewards := ns_rewards c;
         ns_state := next_state;
         ns_next_state := ns_next_state c;
         ns_done := if (r =? ns_T c - 1)%Z then true else ns_done c;
         ns_gen := ns_gen c;
         ns_log := ns_log c |}.

Definition ns_epoch (fuel : nat) (self : Agent)
  (acc : Env * rng * list transition) : run (Env * rng * list transition) :=
  let '(e, g, log) := acc in
  state ← or_raise TypeError (starting_state self);
  c ← while fuel ns_cond (ns_body self)
        {| ns_env := e; ns_T := 100000; ns_t := 0; ns_states := []; ns_rewards := [];
           ns_state := state; ns_next_state := None; ns_done := false; ns_gen := g;
           ns_log := log |};
  Ret (ns_env c, ns_gen c, ns_log c).

Definition NStepTD_compute_state_value (fuel : nat) (self : Agent) (g : rng)
  : run (Env * rng * list transition) :=
  for_each (seq 0 (num_of_epochs self))
    (fun _ acc => ns_epoch fuel self acc) (env self, g, []).

(** *** DoubleQLearning and TabularDynaQ *)

(** [(Q1 + Q2) / 2], entry by entry. *)
Definition q_average (Q1 Q2 : qtable) : qtable :=
  map_zip_with (fun a b => ((a + b) / 2)%float) Q1 Q2.

Record DoubleQ : Type := {
  dq_Q1 : qtable;
  dq_Q2 : qtable;
  dq_state : State;
  dq_action : Action;
  dq_num_of_steps : Z;
  dq_gen : rng;
}.

Definition dq_cond (self : Agent) (c : DoubleQ) : bool :=
  negb (is_terminal_state (env self) (dq_state c))
  && (dq_num_of_steps c <? num_episodes self)%Z.

(** The update of table [Qa], bootstrapped from table [Qb]. *)
Definition dq_update (self : Agent) (Qa Qb : qtable) (state : State) (action : Action)
  (reward : float) (next_state : State) : run qtable :=
  row ← q_loc self Qa state;
  i ← Float.series_argmax row;
  best_action ← or_raise IndexError (possible_actions (env self) !! i);
  qb ← q_at Qb next_state best_action;
  let td_target := (reward + gamma self * qb)%float in
  old ← q_at Qa state action;
  let td_error := (td_target - old)%float in
  Ret (<[(state, action) := (old + alpha self * td_error)%float]> Qa).

(** One pass of the loop body, given the environment's answer [successor] to
    [self.env.next_state_given_action(state, action)]. *)
Definition dq_step (self : Agent) (successor : State -> Action -> run State)
  (c : DoubleQ) : run DoubleQ :=
  next_state ← successor (dq_state c) (dq_action c);
  '(next_action, g1) ← select_action self next_state (q_average (dq_Q1 c) (dq_Q2 c))
                         (dq_gen c);
  reward ← grid_at (env self) next_state;
  let '(coin, g2) := np_random_randint 2 g1 in
  '(Q1, Q2) ←
    (if (coin =? 0)%Z then
       Q2 ← dq_update self (dq_Q2 c) (dq_Q1 c) (dq_state c) (dq_action c) reward next_state;
       Ret (dq_Q1 c, Q2)
     else
       Q1 ← dq_update self (dq_Q1 c) (dq_Q2 c) (dq_state c) (dq_action c) reward next_state;
       Ret (Q1, dq_Q2 c));
  Ret {| dq_Q1 := Q1; dq_Q2 := Q2; dq_state := next_state; dq_action := next_action;
         dq_num_of_steps := dq_num_of_steps c + 1; dq_gen := g2 |}.

(** ... on an environment with the attributes of the contract. *)
Definition dq_body (self : Agent) (c : DoubleQ) : run DoubleQ :=
  dq_step self (call_method (env self) "next_state_given_action") c.

Definition dq_epoch (fuel : nat) (self : Agent) (acc : qtable * qtable * rng)
  : run (qtable * qtable * rng) :=
  let '(Q1, Q2, g) := acc in
  '(s, g1) ← first_state self g;
  '(a, g2) ← select_action self s (q_average Q1 Q2) g1;
  c ← while fuel (dq_cond self) (dq_body self)
        {| dq_Q1 := Q1; dq_Q2 := Q2; dq_state := s; dq_action := a;
           dq_num_of_steps := 0; dq_gen := g2 |};
  Ret (dq_Q1 c, dq_Q2 c, dq_gen c).

Definition DoubleQLearning_compute_state_value (fuel : nat) (self : Agent) (g : rng)
  : run (qtable * qtable * rng) :=
  Q1 ← get_q_df self;
  Q2 ← get_q_df self;
  for_each (seq 0 (num_of_epochs self))
    (fun _ acc => dq_epoch fuel self acc) (Q1, Q2, g).

(** [TabularDynaQ.compute_state_value] stops in the source after the reward
    is read: the loop body below is all there is of it. *)
Definition dyna_body (self : Agent) (Q : qtable) (state : State) (action : Action)
  (g : rng) : run (State * Action * float * rng) :=
  next_state ← call_method (env self) "next_state_given_action" state action;
  '(next_action, g1) ← select_action self next_state Q g;
  reward ← grid_at (env self) next_state;
  Ret (next_state, next_action, reward, g1).

End WithEnvironment.

Arguments Env State Action {_ _}.
Arguments Agent State Action {_ _}.
Arguments attr State Action {_ _}.
Arguments algorithm State Action {_ _ _ _}.
Arguments transition : clear implicits.
Arguments Control State Action {_ _ _ _} rng.
Arguments TD0 State Action {_ _} rng.
Arguments NStep State Action {_ _} rng.
Arguments DoubleQ State Action {_ _ _ _} rng.

End TD.

(** ** Multi-armed bandits ([bandit.py]) *)

Module Bandit.
Section WithArms.

Context {Name : Type} `{EqDecision Name}.
Context {rng : Type} `{!Random rng} `{!Log}.

(** One column of [bandit_df], that is one arm: its rows are 'mean', 'sd',
    'action_count' and 'q_estimation'. *)
Record Column : Type := {
  mean : float;
  sd : float;
  action_count : float;
  q_estimation : float;
}.

(** [bandit_df]: the columns in order, each under its arm's name.  The
    names are meant to be distinct, as the default names A, B, ... are, but
    pandas accepts a name more than once. *)
Abbreviation frame := (list (Name * Column)).

Record Bandits : Type := {
  bandit_name : list Name;
  initial : float;
  bandit_df : frame;
}.

(** A list given as one row of a frame over [n] labels: pandas repeats a
    list of one entry for every label, and raises ValueError for a list of
    any other length that is not [n]. *)
Definition df_row (l : list float) (n : nat) : run (list float) :=
  match l with
  | [x] => Ret (replicate n x)
  | _ => if (length l =? n)%nat then Ret l else Raise ValueError
  end.

(** [Bandits.__init__] with every argument given. *)
Definition Bandits_init (bandit_name : list Name) (q_mean q_sd : list float)
  (initial : float) : run Bandits :=
  means ← df_row q_mean (length bandit_name);
  sds ← df_row q_sd (length bandit_name);
  Ret {| bandit_name := bandit_name;
         initial := initial;
         bandit_df :=
           zip bandit_name
             (zip_with (fun m s => {| mean := m; sd := s; action_count := 0;
                                      q_estimation := (0 + initial)%float |})
                       means sds) |}.

(** [df[action][row]]: [df[action]] is the column of that name when exactly
    one column has it.  With none it raises KeyError; with several it is the
    frame of these columns, in which [row] is not a column: KeyError again. *)
Fixpoint df_get (df : frame) (action : Name) : option Column :=
  match df with
  | [] => None
  | (n, c) :: df' =>
      if decide (n = action) then
        if bool_decide (action ∈ map fst df') then None else Some c
      else df_get df' action
  end.

(** [df[action][row] = ...]: the write goes through the column returned by
    [df[action]] into the frame (pandas without copy-on-write, which the
    source relies on). *)
Fixpoint df_alter (f : Column -> Column) (df : frame) (action : Name) : frame :=
  match df with
  | [] => []
  | (n, c) :: df' =>
      if decide (n = action) then (n, f c) :: df' else (n, c) :: df_alter f df' action
  end.

Definition set_action_count (v : float) (c : Column) : Column :=
  {| mean := mean c; sd := sd c; action_count := v; q_estimation := q_estimation c |}.

Definition set_q_estimation (v : float) (c : Column) : Column :=
  {| mean := mean c; sd := sd c; action_count := action_count c; q_estimation := v |}.

Definition set_bandit_df (b : Bandits) (df : frame) : Bandits :=
  {| bandit_name := bandit_name b; initial := initial b; bandit_df := df |}.

(** [reset_bandit_df]: the rows 'action_count' and 'q_estimation' are set to
    0 and to 0 + initial in every column. *)
Definition reset_bandit_df (b : Bandits) : Bandits :=
  set_bandit_df b
    (map (fun p => (fst p, set_q_estimation (0 + initial b)%float
                             (set_action_count 0%float (snd p))))
         (bandit_df b)).

(** [np.random.choice(seq)]: ValueError on an empty sequence. *)
Definition choice {A : Type} (l : list A) (g : rng) : run (A * rng) :=
  match l with
  | [] => Raise ValueError
  | _ =>
      let '(i, g') := np_random_choice (length l) g in
      a ← or_raise IndexError (l !! i);
      Ret (a, g')
  end.

(** [df.idxmax(axis=1)['mean']]: the name of the first column whose mean is
    largest; [None] stands for the NaN label pandas gives a row of NaN. *)
Definition idxmax_mean (df : frame) : run (option Name) :=
  let row := map (fun p => mean (snd p)) df in
  match row with
  | [] => Raise ValueError
  | x :: xs =>
      if forallb PrimFloat.is_nan row then Ret None
      else
        Ret (fst <$> df !! Float.argmax_from (map Float.nan_to_neg_inf xs) 1
                                 (Float.nan_to_neg_inf x) 0)
  end.

(** [np.random.normal] raises ValueError for a scale whose sign bit is set
    and that is not NaN: a negative deviation, and -0.0. *)
Definition scale_rejected (sd : float) : bool :=
  negb (PrimFloat.is_nan sd) && PrimFloat.get_sign sd.

(** The update shared by [Greedy._step] and [UCB._step]. *)
Definition step (sample_averages : bool) (step_size : float) (b : Bandits)
  (action : Name) (g : rng) : run (Bandits * rng) :=
  c ← or_raise KeyError (df_get (bandit_df b) action);
  _ ← (if scale_rejected (sd c) then Raise ValueError else Ret tt);
  let '(reward, g1) := np_random_normal (mean c) (sd c) g in
  let df1 := df_alter (fun c => set_action_count (action_count c + 1)%float c)
               (bandit_df b) action in
  c1 ← or_raise KeyError (df_get df1 action);
  let q :=
    if sample_averages then
      (q_estimation c1 + (reward - q_estimation c1) / action_count c1)%float
    else (q_estimation c1 + step_size * (reward - q_estimation c1))%float in
  Ret (set_bandit_df b (df_alter (set_q_estimation q) df1 action), g1).

(** The bookkeeping of [simulate] after one action. *)
Record Simulation : Type := {
  sim_bandit : Bandits;
  best_action_count : Z;
  best_action_percentage : list float;
  sim_gen : rng;
}.

Definition record_action (b : Bandits) (g : rng) (s : Simulation) (num : nat)
  (action : Name) : run Simulation :=
  best ← idxmax_mean (bandit_df b);
  if bool_decide (Some action = best) then
    let count := (best_action_count s + 1)%Z in
    Ret {| sim_bandit := b;
           best_action_count := count;
           best_action_percentage :=
             best_action_percentage s
               ++ [(Float.of_Z count / Float.of_Z (Z.of_nat num + 1))%float];
           sim_gen := g |}
  else
    Ret {| sim_bandit := b;
           best_action_count := best_action_count s;
           best_action_percentage := best_action_percentage s;
           sim_gen := g |}.

(** *** Greedy *)

Record Greedy : Type := {
  epsilon : float;
  sample_averages : bool;
  step_size : float;
}.

(** The arms [_act] chooses among when it exploits:
    [row[row == row.max()].index] for the row 'q_estimation'. *)
Definition maximizers (b : Bandits) : list Name :=
  let m := Float.series_max (map (fun p => q_estimation (snd p)) (bandit_df b)) in
  map fst (List.filter (fun p => PrimFloat.eqb (q_estimation (snd p)) m) (bandit_df b)).

Definition Greedy_act (self : Greedy) (b : Bandits) (g : rng) : run (Name * rng) :=
  let '(u, g1) := np_random_rand g in
  if PrimFloat.ltb u (epsilon self) then choice (bandit_name b) g1
  else choice (maximizers b) g1.

Definition Greedy_step (self : Greedy) (b : Bandits) (action : Name) (g : rng)
  : run (Bandits * rng) :=
  step (sample_averages self) (step_size self) b action g.

Definition Greedy_simulate (self : Greedy) (b : Bandits) (time : nat) (g : rng)
  : run Simulation :=
  for_each (seq 0 time)
    (fun num s =>
       '(action, g1) ← Greedy_act self (sim_bandit s) (sim_gen s);
       '(b1, g2) ← Greedy_step self (sim_bandit s) action g1;
       record_action b1 g2 s num action)
    {| sim_bandit := b; best_action_count := 0; best_action_percentage := [];
       sim_gen := g |}.

(** *** UCB *)

Record UCB : Type := {
  UCB_param : float;
  ucb_sample_averages : bool;
  ucb_step_size : float;
}.

(** [np.max] of a pandas Series calls [Series.max]: the maximum of the
    entries that are not NaN, and NaN when there is none. *)
Definition np_max (l : list float) : float := Float.series_max l.

(** [np.where(mask)[0]]: the positions at which the mask holds. *)
Definition np_where (mask : list bool) : list nat :=
  map fst (List.filter (fun p => snd p) (imap (fun i b => (i, b)) mask)).

Definition UCB_act (self : UCB) (b : Bandits) (num : nat) (g : rng)
  : run (Name * rng) :=
  let UCB_estimation :=
    map (fun p =>
           (q_estimation (snd p)
            + UCB_param self
              * PrimFloat.sqrt (log (Float.of_Z (Z.of_nat num + 1))
                                / (action_count (snd p) + 0x1.4f8b588e368f1p-17)))%float)
        (bandit_df b) in
  let m := np_max UCB_estimation in
  '(i, g1) ← choice (np_where (map (fun x => PrimFloat.eqb x m) UCB_estimation)) g;
  a ← or_raise IndexError (fst <$> bandit_df b !! i);
  Ret (a, g1).

Definition UCB_step (self : UCB) (b : Bandits) (action : Name) (g : rng)
  : run (Bandits * rng) :=
  step (ucb_sample_averages self) (ucb_step_size self) b action g.

Definition UCB_simulate (self : UCB) (b : Bandits) (time : nat) (g : rng)
  : run Simulation :=
  for_each (seq 0 time)
    (fun num s =>
       '(action, g1) ← UCB_act self (sim_bandit s) num (sim_gen s);
       '(b1, g2) ← UCB_step self (sim_bandit s) action g1;
       record_action b1 g2 s num action)
    {| sim_bandit := b; best_action_count := 0; best_action_percentage := [];
       sim_gen := g |}.

End WithArms.

Arguments Bandits Name : clear implicits.
Arguments Simulation Name rng : clear implicits.

End Bandit.

(** ** A scripted run-time environment and a corridor, for concrete runs *)

Module Script.

(** A scripted draw: a float or an integer. *)
Inductive draw : Type :=
| F (f : float)
| I (z : Z).

(** The generator state is the tape of draws still to come.  A draw of the
    wrong kind, or an empty tape, leaves the tape alone and gives a default. *)
Definition tape : Type := list draw.

Definition pop_float (default : float) (g : tape) : float * tape :=
  match g with
  | F f :: g' => (f, g')
  | _ => (default, g)
  end.

Definition pop_Z (default : Z) (g : tape) : Z * tape :=
  match g with
  | I z :: g' => (z, g')
  | _ => (default, g)
  end.

Definition pop_nat (g : tape) : nat * tape :=
  let '(z, g') := pop_Z 0 g in (Z.to_nat z, g').

#[global] Instance tape_random : Random tape := {|
  np_random_rand := pop_float 0;
  np_random_randint := fun _ => pop_Z 0;
  np_random_choice := fun _ => pop_nat;
  np_random_normal := fun mu sigma g =>
    let '(z, g') := pop_float 0 g in ((mu + sigma * z)%float, g');
  random_choice := fun _ => pop_nat;
|}.

(** [x ** k] by repeated multiplication: what [pow] returns whenever the
    products are exact, in particular for the exponents 0 and 1. *)
#[global] Instance pow_by_multiplication : Pow := fun x k =>
  match k with
  | Z0 => 1%float
  | Zpos p => Pos.iter (PrimFloat.mul x) 1%float p
  | Zneg p => (1 / Pos.iter (PrimFloat.mul x) 1 p)%float
  end.

(** [np.log] at the one argument the scripted runs reach, log 1 = 0; NaN
    stands for the values that are not tabulated. *)
#[global] Instance log_of_one : Log := fun x =>
  if PrimFloat.eqb x 1 then 0%float else PrimFloat.nan.

(** Actions are integers.  [get_random_action] returns the scripted action
    (1 on an empty tape); [epsilon_greedy] returns the scripted action if
    there is one and the action it was given otherwise. *)
#[global] Instance tape_actions {State : Type} : RLFunctions State Z tape := {|
  get_random_action := fun _ => pop_Z 1;
  epsilon_greedy := fun y => pop_Z y;
|}.

End Script.

(** The corridor of three cells with the terminal cell at its right end: a
    grid of one row, whose cells (0, 0), (0, 1), (0, 2) are written by their
    column, 0, 1, 2.  The actions -1 and 1 move left and right and stop at
    the walls. *)
Module Corridor.

Definition move (s a : Z) : Z := Z.max 0 (Z.min 2 (s + a)).

Definition corridor (values : list (Z * float)) : TD.Env Z Z :=
  {| TD.possible_actions := [(-1)%Z; 1%Z];
     TD.all_states := [0%Z; 1%Z; 2%Z];
     TD.available_states := [0%Z; 1%Z; 2%Z];
     TD.initial_state := Some 0%Z;
     TD.is_terminal_state := fun s => (s =? 2)%Z;
     TD.new_state_given_action := move;
     TD.grid := list_to_map values |}.

(** Values 0 and -1 on the way and 10 at the goal. *)
Definition goal_values : list (Z * float) :=
  [(0%Z, 0%float); (1%Z, (-1)%float); (2%Z, 10%float)].

(** The same cells with no terminal cell within reach: the walk never
    leaves cell 0. *)
Definition pit : TD.Env Z Z :=
  {| TD.possible_actions := [(-1)%Z; 1%Z];
     TD.all_states := [0%Z; 1%Z; 2%Z];
     TD.available_states := [0%Z; 1%Z; 2%Z];
     TD.initial_state := Some 0%Z;
     TD.is_terminal_state := fun s => (s =? 2)%Z;
     TD.new_state_given_action := fun _ _ => 0%Z;
     TD.grid := list_to_map [(0%Z, 0%float); (1%Z, 0%float); (2%Z, 0%float)] |}.

Definition agent (e : TD.Env Z Z) (alpha gamma : float)
  (epochs : nat) (budget : Z) : TD.Agent Z Z :=
  {| TD.env := e; TD.alpha := alpha; TD.gamma := gamma; TD.epsilon := 0;
     TD.reward := (-1)%float; TD.step_cost := (-1)%float;
     TD.starting_state := Some 0%Z; TD.num_of_epochs := epochs;
     TD.num_episodes := budget; TD.n_step := 1 |}.

End Corridor.

(** Two arms A and B with true means 0 and 1, unit deviations, and
    estimates and counts still at 0. *)
Module TwoArms.

Definition fresh (m : float) : Bandit.Column :=
  {| Bandit.mean := m; Bandit.sd := 1; Bandit.action_count := 0;
     Bandit.q_estimation := 0 |}.

Definition bandit : Bandit.Bandits string :=
  {| Bandit.bandit_name := ["A"; "B"]%string;
     Bandit.initial := 0;
     Bandit.bandit_df := [("A"%string, fresh 0); ("B"%string, fresh 1)] |}.

Example bandit_init :
  Bandit.Bandits_init ["A"; "B"]%string [0%float; 1%float] [1%float; 1%float] 0 = Ret bandit.
Proof. vm_compute. reflexivity. Qed.

(** Pure exploitation with sample averages. *)
Definition greedy : Bandit.Greedy :=
  {| Bandit.epsilon := 0; Bandit.sample_averages := true; Bandit.step_size := 0.5 |}.

Definition ucb : Bandit.UCB :=
  {| Bandit.UCB_param := 0.5; Bandit.ucb_sample_averages := true;
     Bandit.ucb_step_size := 0.5 |}.

End TwoArms.

(** * Theorems *)

(** ** The order of the floats *)

Module FloatOrder.

#[local] Ltac cmp_cases :=
  repeat match goal with
  | |- context [Z.compare ?a ?b] => destruct (Z.compare_spec a b)
  | |- context [Pos.compare ?a ?b] => destruct (Pos.compare_spec a b)
  end.

Lemma SFltb_irrefl (a : spec_float) : SFltb a a = false.
Proof.
  destruct a as [s|s| |s m e]; try destruct s; try reflexivity;
    unfold SFltb, SFcompare;
    change (Pos.compare_cont Eq m m) with (Pos.compare m m);
    rewrite Z.compare_refl, Pos.compare_refl; reflexivity.
Qed.

Lemma SFltb_trans (a b c : spec_float) :
  SFltb a b = true -> SFltb b c = true -> SFltb a c = true.
Proof.
  destruct a as [sa|sa| |sa ma ea], b as [sb|sb| |sb mb eb], c as [sc|sc| |sc mc ec];
    unfold SFltb, SFcompare;
    repeat match goal with s : bool |- _ => destruct s end;
    try discriminate; try reflexivity;
    repeat match goal with
    | |- context [Pos.compare_cont Eq ?x ?y] =>
        change (Pos.compare_cont Eq x y) with (Pos.compare x y)
    end;
    cmp_cases; simpl; try discriminate; try reflexivity; intros; lia.
Qed.

#[local] Ltac spec_cases :=
  unfold SFleb, SFltb, SFeqb, SFcompare;
  repeat match goal with s : bool |- _ => destruct s end;
  try discriminate; try reflexivity;
  repeat match goal with
  | |- context [Pos.compare_cont Eq ?x ?y] =>
      change (Pos.compare_cont Eq x y) with (Pos.compare x y)
  end;
  cmp_cases; simpl; try discriminate; try reflexivity; try (intros; lia).

Lemma SFleb_trans (a b c : spec_float) :
  SFleb a b = true -> SFleb b c = true -> SFleb a c = true.
Proof.
  destruct a as [sa|sa| |sa ma ea], b as [sb|sb| |sb mb eb], c as [sc|sc| |sc mc ec];
    spec_cases.
Qed.

Lemma SFleb_total (a b : spec_float) :
  SFeqb a a = true -> SFeqb b b = true -> SFleb a b = false -> SFleb b a = true.
Proof. destruct a as [sa|sa| |sa ma ea], b as [sb|sb| |sb mb eb]; spec_cases. Qed.

Lemma SFleb_refl (a : spec_float) : SFeqb a a = true -> SFleb a a = true.
Proof. destruct a as [sa|sa| |sa ma ea]; spec_cases. Qed.

Lemma SFltb_false_leb (a b : spec_float) :
  SFeqb a a = true -> SFeqb b b = true -> SFltb a b = false -> SFleb b a = true.
Proof. destruct a as [sa|sa| |sa ma ea], b as [sb|sb| |sb mb eb]; spec_cases. Qed.

Lemma SFeqb_leb (a b : spec_float) : SFeqb a b = true -> SFleb b a = true.
Proof. destruct a as [sa|sa| |sa ma ea], b as [sb|sb| |sb mb eb]; spec_cases. Qed.

Lemma SFleb_antisym (a b : spec_float) :
  SFleb a b = true -> SFleb b a = true -> SFeqb a b = true.
Proof. destruct a as [sa|sa| |sa ma ea], b as [sb|sb| |sb mb eb]; spec_cases. Qed.

Lemma is_nan_spec (x : float) :
  PrimFloat.is_nan x = false -> SFeqb (Prim2SF x) (Prim2SF x) = true.
Proof. unfold PrimFloat.is_nan. rewrite FloatAxioms.eqb_spec. apply negb_false_iff. Qed.

Lemma ltb_irrefl (x : float) : PrimFloat.ltb x x = false.
Proof. rewrite ltb_spec. apply SFltb_irrefl. Qed.

Lemma ltb_trans (x y z : float) :
  PrimFloat.ltb x y = true -> PrimFloat.ltb y z = true -> PrimFloat.ltb x z = true.
Proof. rewrite !ltb_spec. apply SFltb_trans. Qed.

Lemma leb_trans (x y z : float) :
  PrimFloat.leb x y = true -> PrimFloat.leb y z = true -> PrimFloat.leb x z = true.
Proof. rewrite !leb_spec. apply SFleb_trans. Qed.

Lemma leb_total (x y : float) :
  PrimFloat.is_nan x = false -> PrimFloat.is_nan y = false ->
  PrimFloat.leb x y = false -> PrimFloat.leb y x = true.
Proof.
  intros Hx Hy. rewrite !leb_spec. apply SFleb_total; apply is_nan_spec; assumption.
Qed.

Lemma leb_refl (x : float) : PrimFloat.is_nan x = false -> PrimFloat.leb x x = true.
Proof. intros Hx. rewrite leb_spec. apply SFleb_refl, is_nan_spec, Hx. Qed.

Lemma eqb_refl (x : float) : PrimFloat.is_nan x = false -> PrimFloat.eqb x x = true.
Proof. intros Hx. rewrite FloatAxioms.eqb_spec. apply is_nan_spec, Hx. Qed.

Lemma ltb_false_leb (x y : float) :
  PrimFloat.is_nan x = false -> PrimFloat.is_nan y = false ->
  PrimFloat.ltb x y = false -> PrimFloat.leb y x = true.
Proof.
  intros Hx Hy. rewrite ltb_spec, leb_spec.
  apply SFltb_false_leb; apply is_nan_spec; assumption.
Qed.

Lemma eqb_leb (x y : float) : PrimFloat.eqb x y = true -> PrimFloat.leb y x = true.
Proof. rewrite FloatAxioms.eqb_spec, leb_spec. apply SFeqb_leb. Qed.

Lemma leb_antisym (x y : float) :
  PrimFloat.leb x y = true -> PrimFloat.leb y x = true -> PrimFloat.eqb x y = true.
Proof. rewrite FloatAxioms.eqb_spec, !leb_spec. apply SFleb_antisym. Qed.

(** Nothing the running maximum has seen is greater than it. *)
Lemma max_step_keeps (m y x : float) :
  PrimFloat.ltb m x = false -> PrimFloat.ltb (Float.max_step m y) x = false.
Proof.
  intros Hm. unfold Float.max_step.
  destruct (PrimFloat.ltb m y) eqn:Hmy; [|exact Hm].
  destruct (PrimFloat.ltb y x) eqn:Hyx; [|reflexivity].
  rewrite (ltb_trans m y x Hmy Hyx) in Hm. discriminate.
Qed.

Lemma max_step_sees (m y : float) : PrimFloat.ltb (Float.max_step m y) y = false.
Proof.
  unfold Float.max_step. destruct (PrimFloat.ltb m y) eqn:Hmy.
  - apply ltb_irrefl.
  - exact Hmy.
Qed.

Lemma fold_max_keeps (xs : list float) (m x : float) :
  PrimFloat.ltb m x = false -> PrimFloat.ltb (fold_left Float.max_step xs m) x = false.
Proof.
  revert m. induction xs as [|y xs IH]; intros m Hm; simpl; [exact Hm|].
  apply IH, max_step_keeps, Hm.
Qed.

Lemma fold_max_upper (xs : list float) (m x : float) :
  x ∈ m :: xs -> PrimFloat.ltb (fold_left Float.max_step xs m) x = false.
Proof.
  revert m. induction xs as [|y xs IH]; intros m Hx; simpl.
  - apply list_elem_of_singleton in Hx. subst x. apply ltb_irrefl.
  - apply elem_of_cons in Hx as [->|Hx].
    + apply fold_max_keeps, max_step_keeps, ltb_irrefl.
    + apply elem_of_cons in Hx as [->|Hx].
      * apply fold_max_keeps, max_step_sees.
      * apply IH. apply elem_of_cons. right. exact Hx.
Qed.

Lemma fold_max_elem (xs : list float) (m : float) :
  fold_left Float.max_step xs m ∈ m :: xs.
Proof.
  revert m. induction xs as [|y xs IH]; intros m; simpl.
  - apply list_elem_of_here.
  - specialize (IH (Float.max_step m y)).
    apply elem_of_cons in IH as [IH|IH].
    + rewrite IH. unfold Float.max_step. destruct (PrimFloat.ltb m y).
      * apply list_elem_of_further, list_elem_of_here.
      * apply list_elem_of_here.
    + apply list_elem_of_further, list_elem_of_further, IH.
Qed.

(** Python's [max] returns an item of the sequence that no item exceeds. *)
Lemma py_max_spec (l : list float) :
  l <> [] ->
  exists m, Float.py_max l = Ret m /\ m ∈ l /\
            forall x, x ∈ l -> PrimFloat.ltb m x = false.
Proof.
  destruct l as [|x xs]; [congruence|]. intros _.
  exists (fold_left Float.max_step xs x). split; [reflexivity|]. split.
  - apply fold_max_elem.
  - intros y Hy. apply fold_max_upper, Hy.
Qed.

(** [b] is the position of the first largest entry of [row]: no entry is
    above it, and every entry before it is strictly below. *)
Definition first_maximum (row : list float) (b : nat) : Prop :=
  exists M, row !! b = Some M
            /\ (forall y, y ∈ row -> PrimFloat.leb y M = true)
            /\ (forall j y, (j < b)%nat -> row !! j = Some y -> PrimFloat.leb M y = false).

Lemma argmax_from_first_maximum (l pre : list float) (m : float) (best : nat) :
  (forall x, x ∈ pre ++ l -> PrimFloat.is_nan x = false) ->
  pre !! best = Some m ->
  (forall y, y ∈ pre -> PrimFloat.leb y m = true) ->
  (forall j y, (j < best)%nat -> pre !! j = Some y -> PrimFloat.leb m y = false) ->
  first_maximum (pre ++ l) (Float.argmax_from l (length pre) m best).
Proof.
  revert pre m best. induction l as [|x xs IH]; intros pre m best Hnan Hbest Hup Hlow.
  - rewrite app_nil_r. exists m. auto.
  - cbn [Float.argmax_from].
    assert (Hx : PrimFloat.is_nan x = false) by (apply Hnan; set_solver).
    assert (Hm : PrimFloat.is_nan m = false).
    { apply Hnan, elem_of_app. left. eapply list_elem_of_lookup_2, Hbest. }
    replace (pre ++ x :: xs) with ((pre ++ [x]) ++ xs) in * by (rewrite <- app_assoc; reflexivity).
    replace (S (length pre)) with (length (pre ++ [x])) by (rewrite length_app; cbn; lia).
    destruct (PrimFloat.leb x m) eqn:Hxm; cbn [negb].
    + apply IH.
      * exact Hnan.
      * apply lookup_app_l_Some, Hbest.
      * intros y Hy. apply elem_of_app in Hy as [Hy|Hy]; [apply Hup, Hy|].
        apply list_elem_of_singleton in Hy. subst y. exact Hxm.
      * intros j y Hj Hy. apply (Hlow j y Hj).
        rewrite lookup_app_l in Hy; [exact Hy|].
        apply lookup_lt_Some in Hbest. lia.
    + apply IH.
      * exact Hnan.
      * rewrite lookup_app_r by lia. rewrite Nat.sub_diag. reflexivity.
      * intros y Hy. apply elem_of_app in Hy as [Hy|Hy].
        -- apply (leb_trans y m x); [apply Hup, Hy|]. apply leb_total; assumption.
        -- apply list_elem_of_singleton in Hy. subst y. apply leb_refl, Hx.
      * intros j y Hj Hy. rewrite lookup_app_l in Hy by exact Hj.
        destruct (PrimFloat.leb x y) eqn:Hxy; [|reflexivity].
        rewrite (leb_trans x y m Hxy) in Hxm; [discriminate|].
        apply Hup. eapply list_elem_of_lookup_2, Hy.
Qed.

(** On a row without NaN, [np.argmax] is the position of the first largest
    entry. *)
Lemma series_argmax_spec (row : list float) :
  row <> [] ->
  (forall x, x ∈ row -> PrimFloat.is_nan x = false) ->
  exists b, Float.series_argmax row = Ret b /\ first_maximum row b.
Proof.
  destruct row as [|x xs]; [congruence|]. intros _ Hnan.
  assert (Hx : PrimFloat.is_nan x = false) by (apply Hnan; set_solver).
  unfold Float.series_argmax. cbn [forallb]. rewrite Hx. cbn [andb].
  assert (Hmap : map Float.nan_to_neg_inf xs = xs).
  { rewrite <- (map_id xs) at 2. apply map_ext_in. intros y Hy.
    unfold Float.nan_to_neg_inf. rewrite Hnan; [reflexivity|].
    apply list_elem_of_further, list_elem_of_In, Hy. }
  rewrite Hmap. unfold Float.nan_to_neg_inf at 1. rewrite Hx.
  eexists. split; [reflexivity|].
  apply (argmax_from_first_maximum xs [x] x 0).
  - exact Hnan.
  - reflexivity.
  - intros y Hy. apply list_elem_of_singleton in Hy. subst y. apply leb_refl, Hx.
  - intros j y Hj. lia.
Qed.

(** On a list without NaN, [Series.max] is an entry that none exceeds. *)
Lemma skipna_id (l : list float) :
  (forall x, x ∈ l -> PrimFloat.is_nan x = false) -> Float.skipna l = l.
Proof.
  intros Hnan. unfold Float.skipna. induction l as [|x xs IH]; [reflexivity|].
  cbn [List.filter]. rewrite Hnan by set_solver. cbn [negb]. f_equal.
  apply IH. intros y Hy. apply Hnan. set_solver.
Qed.

Lemma series_max_spec (l : list float) :
  l <> [] ->
  (forall x, x ∈ l -> PrimFloat.is_nan x = false) ->
  Float.series_max l ∈ l
  /\ forall x, x ∈ l -> PrimFloat.ltb (Float.series_max l) x = false.
Proof.
  intros Hne Hnan. unfold Float.series_max. rewrite (skipna_id l Hnan).
  destruct l as [|x xs]; [congruence|]. split.
  - apply fold_max_elem.
  - intros y Hy. apply fold_max_upper, Hy.
Qed.

End FloatOrder.

(** ** The update rules *)

Module UpdateRules.
Section WithEnvironment.
Import TD.

Context {State Action : Type} `{Countable State} `{Countable Action}.

Lemma q_at_Some (q : gmap (State * Action) float) (s : State) (a : Action) (v : float) :
  q !! (s, a) = Some v -> q_at q s a = Ret v.
Proof. intros Hv. unfold q_at. rewrite Hv. reflexivity. Qed.

Lemma map_run_q_at (q : gmap (State * Action) float) (s : State)
  (actions : list Action) (row : list float) :
  map (fun x => q !! (s, x)) actions = map Some row ->
  map_run (fun x => q_at q s x) actions = Ret row.
Proof.
  revert row. induction actions as [|x xs IH]; intros [|v row] Hrow;
    try discriminate; [reflexivity|].
  cbn [map] in Hrow. injection Hrow as Hx Hxs.
  cbn [map_run]. rewrite (q_at_Some _ _ _ _ Hx). cbn. rewrite (IH row Hxs). reflexivity.
Qed.

(** SARSA: the entry of (state, action) becomes old + alpha * (target - old)
    with target = reward + gamma * Q[next_state, next_action]. *)
Lemma sarsa_formula_spec (self : Agent State Action) (q : gmap (State * Action) float)
  (state : State) (action : Action) (reward : float)
  (next_state : State) (next_action : Action) (old qn : float) :
  q !! (state, action) = Some old ->
  q !! (next_state, next_action) = Some qn ->
  sarsa_formula self q state action reward next_state next_action
  = Ret (<[(state, action) :=
            (old + alpha self * (reward + gamma self * qn - old))%float]> q).
Proof.
  intros Hold Hqn. unfold sarsa_formula.
  rewrite (q_at_Some _ _ _ _ Hold), (q_at_Some _ _ _ _ Hqn). reflexivity.
Qed.

(** Q-learning: the same with target = reward + gamma * max(row), the row
    being Q[next_state, x] for every x of possible_actions. *)
Lemma q_learning_formula_spec (self : Agent State Action) (q : gmap (State * Action) float)
  (state : State) (action : Action) (reward : float)
  (next_state : State) (next_action : Action) (old m : float) (row : list float) :
  q !! (state, action) = Some old ->
  map (fun x => q !! (next_state, x)) (possible_actions (env self)) = map Some row ->
  Float.py_max row = Ret m ->
  q_learning_formula self q state action reward next_state next_action
  = Ret (<[(state, action) :=
            (old + alpha self * (reward + gamma self * m - old))%float]> q).
Proof.
  intros Hold Hrow Hm. unfold q_learning_formula.
  rewrite (map_run_q_at _ _ _ _ Hrow). cbn. rewrite Hm. cbn.
  rewrite (q_at_Some _ _ _ _ Hold). reflexivity.
Qed.

(** The action taken next is not looked at by the Q-learning rule. *)
Lemma q_learning_formula_ignores_next_action (self : Agent State Action)
  (q : gmap (State * Action) float) (state : State) (action : Action)
  (reward : float) (next_state : State) (a1 a2 : Action) :
  q_learning_formula self q state action reward next_state a1
  = q_learning_formula self q state action reward next_state a2.
Proof. reflexivity. Qed.

(** C1.  Let the table hold [old] at (state, action), [qn] at (next_state,
    next_action) and the row [row] (not empty) at next_state, one entry per
    possible action.  Then (SARSA) sarsa_formula returns a table whose entry
    at (state, action) is old + alpha * (target - old) with target = reward +
    gamma * qn, every other entry being as before; and (Q-learning)
    q_learning_formula returns, whatever action is passed as the next one, a
    table whose entry at (state, action) is old + alpha * (target - old) with
    target = reward + gamma * m, where m is an entry of the row that no entry
    of the row exceeds, every other entry being as before. *)
Theorem update_rules_exact (self : Agent State Action) (q : gmap (State * Action) float)
  (state : State) (action : Action) (reward : float)
  (next_state : State) (next_action : Action) (old qn : float) (row : list float) :
  q !! (state, action) = Some old ->
  q !! (next_state, next_action) = Some qn ->
  map (fun x => q !! (next_state, x)) (possible_actions (env self)) = map Some row ->
  row <> [] ->
  (exists q',
      sarsa_formula self q state action reward next_state next_action = Ret q'
      /\ q' !! (state, action)
         = Some (old + alpha self * (reward + gamma self * qn - old))%float
      /\ forall k, k <> (state, action) -> q' !! k = q !! k)
  /\
  (exists q' m,
      (forall a, q_learning_formula self q state action reward next_state a = Ret q')
      /\ m ∈ row
      /\ (forall x, x ∈ row -> PrimFloat.ltb m x = false)
      /\ q' !! (state, action)
         = Some (old + alpha self * (reward + gamma self * m - old))%float
      /\ forall k, k <> (state, action) -> q' !! k = q !! k).
Proof.
  intros Hold Hqn Hrow Hne. split.
  - eexists. split; [apply (sarsa_formula_spec _ _ _ _ _ _ _ _ _ Hold Hqn)|].
    split; [apply lookup_insert_eq|].
    intros k Hk. apply lookup_insert_ne. congruence.
  - destruct (FloatOrder.py_max_spec row Hne) as (m & Hm & Hin & Hup).
    eexists. exists m. split.
    { intros a. apply (q_learning_formula_spec _ _ _ _ _ _ _ _ _ _ Hold Hrow Hm). }
    split; [exact Hin|]. split; [exact Hup|].
    split; [apply lookup_insert_eq|].
    intros k Hk. apply lookup_insert_ne. congruence.
Qed.

End WithEnvironment.

(** The corridor with a table holding 1 at (0, 1), 2 at (1, -1) and 4 at
    (1, 1): alpha = gamma = 1/2 and reward -1 give 1 + (-1 + 2/2 - 1)/2 = 1/2
    for SARSA taking -1 next, and 1 + (-1 + 4/2 - 1)/2 = 1 for Q-learning. *)
Definition sample_table : gmap (Z * Z) float :=
  list_to_map [((0, 1)%Z, 1%float); ((1, -1)%Z, 2%float); ((1, 1)%Z, 4%float)].

Lemma update_rules_exact_witness :
  (exists q',
      TD.sarsa_formula (Corridor.agent (Corridor.corridor []) 0.5 0.5 1 10)
        sample_table 0%Z 1%Z (-1)%float 1%Z (-1)%Z = Ret q'
      /\ q' !! (0%Z, 1%Z) = Some (1 + 0.5 * (-1 + 0.5 * 2 - 1))%float
      /\ forall k, k <> (0%Z, 1%Z) -> q' !! k = sample_table !! k)
  /\
  (exists q' m,
      (forall a, TD.q_learning_formula (Corridor.agent (Corridor.corridor []) 0.5 0.5 1 10)
                   sample_table 0%Z 1%Z (-1)%float 1%Z a = Ret q')
      /\ m ∈ [2%float; 4%float]
      /\ (forall x, x ∈ [2%float; 4%float] -> PrimFloat.ltb m x = false)
      /\ q' !! (0%Z, 1%Z) = Some (1 + 0.5 * (-1 + 0.5 * m - 1))%float
      /\ forall k, k <> (0%Z, 1%Z) -> q' !! k = sample_table !! k).
Proof.
  apply (update_rules_exact (Corridor.agent (Corridor.corridor []) 0.5 0.5 1 10)
           sample_table 0%Z 1%Z (-1)%float 1%Z (-1)%Z 1%float 2%float
           [2%float; 4%float]).
  - vm_compute. reflexivity.
  - vm_compute. reflexivity.
  - vm_compute. reflexivity.
  - discriminate.
Defined.

End UpdateRules.

(** ** Loops *)

Module Loops.
Section While.

Context {S : Type} (cond : S -> bool) (body : S -> run S).

Lemma while_unfold (fuel : nat) (s : S) :
  while fuel cond body s
  = if cond s then
      match fuel with
      | O => OutOfFuel
      | Datatypes.S fuel' =>
          match body s with
          | Ret s' => while fuel' cond body s'
          | Raise e => Raise e
          | OutOfFuel => OutOfFuel
          end
      end
    else Ret s.
Proof. destruct fuel; reflexivity. Qed.

(** A property kept by every pass of the body holds when the loop returns,
    and the condition is then false. *)
Lemma while_invariant (I : S -> Prop) :
  (forall s s', I s -> cond s = true -> body s = Ret s' -> I s') ->
  forall fuel s s', I s -> while fuel cond body s = Ret s' -> I s' /\ cond s' = false.
Proof.
  intros Hstep fuel. induction fuel as [|fuel IH]; intros s s' Hs Hrun;
    rewrite while_unfold in Hrun; destruct (cond s) eqn:Hc; try discriminate.
  - injection Hrun as <-. auto.
  - destruct (body s) as [s1| |] eqn:Hb; try discriminate.
    apply (IH s1 s'); [eapply Hstep; eauto|exact Hrun].
  - injection Hrun as <-. auto.
Qed.

(** A loop whose passes use up a measure does not run out of fuel once the
    fuel covers the measure (the body having no loop of its own). *)
Lemma while_enough_fuel (mu : S -> nat) :
  (forall s, body s <> OutOfFuel) ->
  (forall s, cond s = true -> (0 < mu s)%nat) ->
  (forall s s', cond s = true -> body s = Ret s' -> (mu s' < mu s)%nat) ->
  forall fuel s, (mu s <= fuel)%nat -> while fuel cond body s <> OutOfFuel.
Proof.
  intros Hbody Hpos Hdec fuel. induction fuel as [|fuel IH]; intros s Hmu;
    rewrite while_unfold; destruct (cond s) eqn:Hc; try discriminate.
  - specialize (Hpos s Hc). lia.
  - destruct (body s) as [s1| |] eqn:Hb; try discriminate.
    + apply IH. specialize (Hdec s s1 Hc Hb). lia.
    + destruct (Hbody s Hb).
Qed.

(** What it is for the loop to stop on a terminal state or on a step
    budget: it takes no step from a terminal state or with the counter at
    the budget, and takes one otherwise; every pass adds one to the counter;
    so from the counter 0 it returns within [budget] passes, and then the
    state is terminal or the budget is used up. *)
Record stops_on_terminal_or_budget (terminal : S -> bool) (steps : S -> Z)
  (budget : Z) : Prop := {
  stops_at_once : forall fuel s,
    terminal s = true \/ (budget <= steps s)%Z -> while fuel cond body s = Ret s;
  steps_on : forall fuel s,
    terminal s = false -> (steps s < budget)%Z ->
    while (Datatypes.S fuel) cond body s = body s ≫= while fuel cond body;
  counts : forall s s', body s = Ret s' -> steps s' = (steps s + 1)%Z;
  within_budget : forall fuel s0,
    steps s0 = 0%Z -> (Z.to_nat budget <= fuel)%nat ->
    while fuel cond body s0 <> OutOfFuel
    /\ forall s, while fuel cond body s0 = Ret s ->
                 (0 <= steps s <= Z.max 0 budget)%Z
                 /\ (terminal s = true \/ (budget <= steps s)%Z);
}.

Lemma budgeted_loop (terminal : S -> bool) (steps : S -> Z) (budget : Z) :
  (forall s, cond s = negb (terminal s) && (steps s <? budget)%Z) ->
  (forall s s', body s = Ret s' -> steps s' = (steps s + 1)%Z) ->
  (forall s, body s <> OutOfFuel) ->
  stops_on_terminal_or_budget terminal steps budget.
Proof.
  intros Hcond Hcount Hbody. split.
  - intros fuel s Hstop. rewrite while_unfold, Hcond.
    destruct Hstop as [-> | Hb]; [reflexivity|].
    apply Z.ltb_ge in Hb. rewrite Hb, andb_false_r. reflexivity.
  - intros fuel s Hlive Hlt. rewrite while_unfold, Hcond, Hlive.
    apply Z.ltb_lt in Hlt. rewrite Hlt. cbn [negb andb].
    destruct (body s); reflexivity.
  - exact Hcount.
  - intros fuel s0 Hzero Hfuel. split.
    + apply (while_enough_fuel (fun s => Z.to_nat (budget - steps s))).
      * exact Hbody.
      * intros s Hs. rewrite Hcond in Hs. apply andb_prop in Hs as [_ Hs].
        apply Z.ltb_lt in Hs. lia.
      * intros s s' Hs Hb. rewrite Hcond in Hs. apply andb_prop in Hs as [_ Hs].
        apply Z.ltb_lt in Hs. apply Hcount in Hb. lia.
      * rewrite Hzero. lia.
    + intros s Hrun.
      apply (while_invariant (fun s => (0 <= steps s <= Z.max 0 budget)%Z))
        in Hrun as [Hin Hc].
      * split; [exact Hin|]. rewrite Hcond in Hc.
        apply andb_false_iff in Hc as [Hc|Hc].
        -- left. apply negb_false_iff, Hc.
        -- right. apply Z.ltb_ge, Hc.
      * intros s1 s2 Hs Hc Hb. rewrite Hcond in Hc.
        apply andb_prop in Hc as [_ Hc]. apply Z.ltb_lt in Hc.
        apply Hcount in Hb. lia.
      * rewrite Hzero. lia.
Qed.

End While.
End Loops.

Module Runs.

(** Case analysis on the next command of a run that is known to return. *)
Ltac step_run H :=
  lazymatch type of H with
  | mbind _ ?m = _ =>
      let E := fresh "E" in
      destruct m eqn:E; cbn [mbind run_bind mret run_ret] in H; [|discriminate H..]
  | match ?p with pair _ _ => _ end = _ =>
      let E := fresh "E" in destruct p eqn:E
  end.

Lemma or_raise_fuel {A : Type} (e : exn) (o : option A) : or_raise e o <> OutOfFuel.
Proof. destruct o; discriminate. Qed.

Lemma bind_fuel {A B : Type} (m : run A) (k : A -> run B) :
  m <> OutOfFuel -> (forall a, m = Ret a -> k a <> OutOfFuel) -> (m ≫= k) <> OutOfFuel.
Proof. destruct m; cbn; intros Hm Hk; [auto|discriminate|congruence]. Qed.

Lemma map_run_fuel {X Y : Type} (f : X -> run Y) (xs : list X) :
  (forall x, f x <> OutOfFuel) -> map_run f xs <> OutOfFuel.
Proof.
  intros Hf. induction xs as [|x xs IH]; cbn [map_run]; [discriminate|].
  apply bind_fuel; [apply Hf|]. intros y _.
  apply bind_fuel; [exact IH|]. discriminate.
Qed.

Lemma for_each_fuel {X S : Type} (xs : list X) (body : X -> S -> run S) (s : S) :
  (forall x s, body x s <> OutOfFuel) -> for_each xs body s <> OutOfFuel.
Proof.
  intros Hb. revert s. induction xs as [|x xs IH]; intros s; cbn [for_each];
    [discriminate|].
  apply bind_fuel; [apply Hb|]. intros s' _. apply IH.
Qed.

Lemma for_each_invariant {X S : Type} (I : S -> Prop) (xs : list X)
  (body : X -> S -> run S) :
  (forall x s s', I s -> body x s = Ret s' -> I s') ->
  forall s s', I s -> for_each xs body s = Ret s' -> I s'.
Proof.
  intros Hb. induction xs as [|x xs IH]; intros s s' Hs Hrun; cbn [for_each] in Hrun.
  - injection Hrun as <-. exact Hs.
  - step_run Hrun. eapply IH; [|exact Hrun]. eapply Hb; eauto.
Qed.

End Runs.

(** ** The control driver: step budget and terminal rows *)

Module ControlDriver.
Section WithEnvironment.
Import TD Runs.

Context {State Action : Type} `{Countable State} `{Countable Action}.
Context {rng : Type} `{!Random rng} `{!Pow} `{!RLFunctions State Action rng}.

(** What the driver needs of an update rule: it has no loop of its own, and
    it writes the entry of the pair it is given and no other. *)
Record update_rule (algo : algorithm State Action) : Prop := {
  rule_fuel : forall q s a r s' a', algo q s a r s' a' <> OutOfFuel;
  rule_frame : forall q s a r s' a' q',
    algo q s a r s' a' = Ret q' -> forall k, k <> (s, a) -> q' !! k = q !! k;
}.

Lemma sarsa_update_rule (self : Agent State Action) : update_rule (sarsa_formula self).
Proof.
  split.
  - intros q s a r s' a'. unfold sarsa_formula.
    apply bind_fuel; [apply or_raise_fuel|]. intros old _.
    apply bind_fuel; [apply or_raise_fuel|]. discriminate.
  - intros q s a r s' a' q' Hrun k Hk. unfold sarsa_formula in Hrun.
    do 2 step_run Hrun. injection Hrun as <-. apply lookup_insert_ne. congruence.
Qed.

Lemma q_learning_update_rule (self : Agent State Action) : update_rule (q_learning_formula self).
Proof.
  split.
  - intros q s a r s' a'. unfold q_learning_formula.
    apply bind_fuel; [apply map_run_fuel; intros x; apply or_raise_fuel|]. intros row _.
    apply bind_fuel; [destruct row; discriminate|]. intros m _.
    apply bind_fuel; [apply or_raise_fuel|]. discriminate.
  - intros q s a r s' a' q' Hrun k Hk. unfold q_learning_formula in Hrun.
    do 3 step_run Hrun. injection Hrun as <-. apply lookup_insert_ne. congruence.
Qed.

Lemma call_new_state (e : Env State Action) (s : State) (a : Action) :
  call_method e "new_state_given_action" s a = Ret (new_state_given_action e s a).
Proof. reflexivity. Qed.

(** One pass of the loop body: the table is updated by the rule at the
    current pair, the successor becomes the current state, and the step
    counter grows by one. *)
Lemma td_control_body_inv (self : Agent State Action) (algo : algorithm State Action) (c c' : Control State Action rng) :
  td_control_body self algo c = Ret c' ->
  state c' = new_state_given_action (env self) (state c) (action c)
  /\ num_of_steps c' = (num_of_steps c + 1)%Z
  /\ exists r, algo (q_values_df c) (state c) (action c) r (state c') (action c')
               = Ret (q_values_df c').
Proof.
  unfold td_control_body. rewrite call_new_state. cbn [mbind run_bind].
  intros Hrun. do 4 step_run Hrun.
  injection Hrun as <-. cbn. eauto.
Qed.

Lemma td_control_body_fuel (self : Agent State Action) (algo : algorithm State Action) (c : Control State Action rng) :
  update_rule algo -> td_control_body self algo c <> OutOfFuel.
Proof.
  intros [Hfuel _]. unfold td_control_body. rewrite call_new_state. cbn [mbind run_bind].
  apply bind_fuel; [apply or_raise_fuel|]. intros y _.
  destruct (epsilon_greedy y (gen c)) as [next_action g1].
  apply bind_fuel; [apply or_raise_fuel|]. intros r _.
  apply bind_fuel; [apply Hfuel|]. discriminate.
Qed.

(** The stepping loop returns within [num_episodes] passes; when it returns,
    the counter is within the ceiling and the state is terminal or the
    ceiling is reached. *)
Lemma td_control_loop_bounded (self : Agent State Action) (algo : algorithm State Action) (c0 : Control State Action rng)
  (fuel : nat) :
  update_rule algo ->
  num_of_steps c0 = 0%Z ->
  (Z.to_nat (num_episodes self) <= fuel)%nat ->
  while fuel (td_control_cond self) (td_control_body self algo) c0 <> OutOfFuel
  /\ forall c,
      while fuel (td_control_cond self) (td_control_body self algo) c0 = Ret c ->
      (0 <= num_of_steps c <= Z.max 0 (num_episodes self))%Z
      /\ (is_terminal_state (env self) (state c) = true
          \/ (num_episodes self <= num_of_steps c)%Z).
Proof.
  intros Halgo Hzero Hfuel. split.
  - apply (Loops.while_enough_fuel _ _
             (fun c => Z.to_nat (num_episodes self - num_of_steps c))).
    + intros c. apply td_control_body_fuel, Halgo.
    + intros c Hc. unfold td_control_cond in Hc.
      apply andb_prop in Hc as [_ Hc]. apply Z.ltb_lt in Hc. lia.
    + intros c c' Hc Hb. unfold td_control_cond in Hc.
      apply andb_prop in Hc as [_ Hc]. apply Z.ltb_lt in Hc.
      apply td_control_body_inv in Hb as (_ & Hn & _). lia.
    + rewrite Hzero. lia.
  - intros c Hrun.
    apply (Loops.while_invariant _ _
             (fun c => (0 <= num_of_steps c <= Z.max 0 (num_episodes self))%Z))
      in Hrun as [Hin Hc].
    + split; [exact Hin|]. unfold td_control_cond in Hc.
      apply andb_false_iff in Hc as [Hc|Hc].
      * left. apply negb_false_iff, Hc.
      * right. apply Z.ltb_ge, Hc.
    + intros s s' Hs Hc Hb. unfold td_control_cond in Hc.
      apply andb_prop in Hc as [_ Hc]. apply Z.ltb_lt in Hc.
      apply td_control_body_inv in Hb as (_ & Hn & _). lia.
    + rewrite Hzero. lia.
Qed.

(** The loop body of DoubleQLearning, for any answer of the environment to
    the successor query: it has no loop of its own, and a pass adds one to
    the step counter. *)
Lemma select_action_fuel (self : Agent State Action) (s : State)
  (Q : gmap (State * Action) float) (g : rng) :
  select_action self s Q g <> OutOfFuel.
Proof.
  unfold select_action. destruct (np_random_rand g) as [u g1].
  destruct (PrimFloat.ltb u (epsilon self)); [discriminate|].
  apply bind_fuel; [|discriminate]. unfold greedy_action.
  apply bind_fuel; [apply map_run_fuel; intros x; apply or_raise_fuel|]. intros row _.
  apply bind_fuel; [|intros i _; apply or_raise_fuel].
  unfold Float.series_argmax. destruct row; [discriminate|].
  destruct (forallb _ _); discriminate.
Qed.

Lemma dq_update_fuel (self : Agent State Action) (Qa Qb : gmap (State * Action) float)
  (s : State) (a : Action) (r : float) (s' : State) :
  dq_update self Qa Qb s a r s' <> OutOfFuel.
Proof.
  unfold dq_update.
  apply bind_fuel; [apply map_run_fuel; intros x; apply or_raise_fuel|]. intros row _.
  apply bind_fuel.
  { unfold Float.series_argmax. destruct row; [discriminate|].
    destruct (forallb _ _); discriminate. }
  intros i _. apply bind_fuel; [apply or_raise_fuel|]. intros best _.
  apply bind_fuel; [apply or_raise_fuel|]. intros qb _.
  apply bind_fuel; [apply or_raise_fuel|]. discriminate.
Qed.

Lemma dq_step_fuel (self : Agent State Action)
  (successor : State -> Action -> run State) (c : DoubleQ State Action rng) :
  (forall s a, successor s a <> OutOfFuel) ->
  dq_step self successor c <> OutOfFuel.
Proof.
  intros Hsucc. unfold dq_step. apply bind_fuel; [apply Hsucc|]. intros s' _.
  apply bind_fuel; [apply select_action_fuel|]. intros [a' g1] _.
  apply bind_fuel; [apply or_raise_fuel|]. intros r _.
  destruct (np_random_randint 2 g1) as [coin g2].
  apply bind_fuel; [|intros [Q1 Q2] _; discriminate].
  destruct (coin =? 0)%Z; (apply bind_fuel; [apply dq_update_fuel|discriminate]).
Qed.

Lemma dq_step_counts (self : Agent State Action)
  (successor : State -> Action -> run State) (c c' : DoubleQ State Action rng) :
  dq_step self successor c = Ret c' ->
  dq_num_of_steps c' = (dq_num_of_steps c + 1)%Z.
Proof.
  unfold dq_step. intros Hrun. step_run Hrun. step_run Hrun. destruct a0 as [a' g1].
  step_run Hrun. destruct (np_random_randint 2 g1) as [coin g2].
  step_run Hrun. destruct a1 as [Q1 Q2]. injection Hrun as <-. reflexivity.
Qed.

(** The rows of the terminal states are those of the table [q0]. *)
Definition terminal_rows (self : Agent State Action) (q0 q : gmap (State * Action) float) : Prop :=
  forall s a, is_terminal_state (env self) s = true -> q !! (s, a) = q0 !! (s, a).

Lemma td_control_body_terminal_rows (self : Agent State Action)
  (algo : algorithm State Action)
  (q0 : gmap (State * Action) float) (c c' : Control State Action rng) :
  update_rule algo ->
  td_control_cond self c = true ->
  td_control_body self algo c = Ret c' ->
  terminal_rows self q0 (q_values_df c) ->
  terminal_rows self q0 (q_values_df c').
Proof.
  intros [_ Hframe] Hc Hb Hq s a Hs.
  apply td_control_body_inv in Hb as (_ & _ & r & Hr).
  rewrite (Hframe _ _ _ _ _ _ _ Hr); [apply Hq, Hs|].
  intros [= -> ->]. unfold td_control_cond in Hc.
  rewrite Hs in Hc. discriminate.
Qed.

Lemma td_control_epoch_terminal_rows (fuel : nat) (self : Agent State Action)
  (algo : algorithm State Action)
  (q0 q q' : gmap (State * Action) float) (pairs pairs' : list (State * Action))
  (g g' : rng) :
  update_rule algo ->
  td_control_epoch fuel self algo (q, pairs, g) = Ret (q', pairs', g') ->
  terminal_rows self q0 q ->
  terminal_rows self q0 q'.
Proof.
  intros Halgo Hrun Hq. unfold td_control_epoch in Hrun.
  step_run Hrun. destruct a as [s g1]. do 2 step_run Hrun.
  injection Hrun as <- _ _.
  apply (Loops.while_invariant _ _
           (fun c => terminal_rows self q0 (q_values_df c))) in E1 as [Hc _];
    [exact Hc| |exact Hq].
  intros c c' Hc Hcond Hb. eapply td_control_body_terminal_rows; eauto.
Qed.

Lemma td_control_epoch_fuel (fuel : nat) (self : Agent State Action)
  (algo : algorithm State Action)
  (acc : gmap (State * Action) float * list (State * Action) * rng) :
  update_rule algo ->
  (Z.to_nat (num_episodes self) <= fuel)%nat ->
  td_control_epoch fuel self algo acc <> OutOfFuel.
Proof.
  intros Halgo Hfuel. destruct acc as [[q pairs] g]. unfold td_control_epoch.
  apply bind_fuel.
  { unfold first_state. destruct (starting_state self); [discriminate|].
    destruct (random_choice _ g). apply bind_fuel; [apply or_raise_fuel|]. discriminate. }
  intros [s g1] _. apply bind_fuel; [apply or_raise_fuel|]. intros a _.
  apply bind_fuel; [|discriminate].
  apply td_control_loop_bounded; [exact Halgo|reflexivity|exact Hfuel].
Qed.

(** Every entry of the fresh table is 0. *)
Lemma list_to_map_constant {K V : Type} `{Countable K} (l : list (K * V)) (k : K) (v : V) :
  Forall (fun p => p.2 = v) l -> k ∈ l.*1 ->
  (list_to_map l : gmap K V) !! k = Some v.
Proof.
  induction l as [|[k' v'] l IH]; intros Hall Hk; [inversion Hk|].
  apply Forall_cons in Hall as [Hv Hall]. cbn in Hv. subst v'.
  cbn [list_to_map foldr]. destruct (decide (k' = k)) as [->|Hne].
  - apply lookup_insert_eq.
  - rewrite lookup_insert_ne by exact Hne. apply IH; [exact Hall|].
    cbn in Hk. apply elem_of_cons in Hk as [Hk|Hk]; [congruence|exact Hk].
Qed.

Lemma zero_table_zero (self : Agent State Action) (s : State) (a : Action) :
  s ∈ all_states (env self) -> a ∈ possible_actions (env self) ->
  zero_table self !! (s, a) = Some PrimFloat.zero.
Proof.
  intros Hs Ha. unfold zero_table. apply list_to_map_constant.
  - apply Forall_forall. intros [k v] Hin. apply list_elem_of_In, in_flat_map in Hin.
    destruct Hin as (s' & _ & Hin). apply in_map_iff in Hin as (a' & Heq & _).
    inversion Heq. reflexivity.
  - apply list_elem_of_fmap. exists (s, a, PrimFloat.zero). split; [reflexivity|].
    apply list_elem_of_In, in_flat_map. exists s. split; [apply list_elem_of_In, Hs|].
    apply in_map_iff. exists a. split; [reflexivity|apply list_elem_of_In, Ha].
Qed.

(** [get_q_df] returns the table of zeros or raises; it has no loop. *)
Lemma get_q_df_inv (self : Agent State Action) (q : gmap (State * Action) float) :
  get_q_df self = Ret q -> q = zero_table self /\ all_states (env self) <> [].
Proof.
  unfold get_q_df. destruct (all_states (env self)); [discriminate|].
  intros [= <-]. split; [reflexivity|discriminate].
Qed.

Lemma get_q_df_fuel (self : Agent State Action) : get_q_df self <> OutOfFuel.
Proof. unfold get_q_df. destruct (all_states (env self)); discriminate. Qed.

Lemma td_control_fuel (fuel : nat) (self : Agent State Action)
  (algo : algorithm State Action) (g : rng) :
  update_rule algo ->
  (Z.to_nat (num_episodes self) <= fuel)%nat ->
  td_control fuel self algo g <> OutOfFuel.
Proof.
  intros Halgo Hfuel. unfold td_control.
  apply bind_fuel; [apply get_q_df_fuel|]. intros q _.
  destruct (random_pairs self g) as [pairs g1].
  destruct (greedy_pairs pairs g1) as [pairs' g2].
  apply bind_fuel.
  - apply for_each_fuel. intros _ acc. apply td_control_epoch_fuel; assumption.
  - intros [[q' p] g3] _. discriminate.
Qed.

Lemma td_control_terminal_rows (fuel : nat) (self : Agent State Action)
  (algo : algorithm State Action) (g g' : rng)
  (q : gmap (State * Action) float) :
  update_rule algo ->
  td_control fuel self algo g = Ret (q, g') ->
  terminal_rows self (zero_table self) q.
Proof.
  intros Halgo Hrun. unfold td_control in Hrun.
  step_run Hrun. apply get_q_df_inv in E as [-> _].
  destruct (random_pairs self g) as [pairs g1].
  destruct (greedy_pairs pairs g1) as [pairs' g2].
  step_run Hrun. destruct a as [[q' p] g3]. injection Hrun as -> _.
  apply (for_each_invariant
           (fun acc => terminal_rows self (zero_table self) acc.1.1)) in E.
  - exact E.
  - intros _ [[q1 p1] g4] [[q2 p2] g5] Hq Hep.
    eapply td_control_epoch_terminal_rows; eauto.
  - intros s a _. reflexivity.
Qed.

(** C5.  Run td_control with the SARSA or the Q-learning rule, for any
    number of epochs, with fuel for num_episodes passes of the stepping
    loop.  The run does not exhaust the fuel; and if it returns a table (it
    raised no exception), every row of a terminal state is as in the freshly
    initialised table, so every entry (s, a) with s a terminal state of
    all_states and a a possible action still holds 0. *)
Theorem terminal_rows_stay_zero (fuel : nat) (self : Agent State Action)
  (algo : algorithm State Action) (g : rng) :
  algo = sarsa_formula self \/ algo = q_learning_formula self ->
  (Z.to_nat (num_episodes self) <= fuel)%nat ->
  td_control fuel self algo g <> OutOfFuel
  /\ forall q g',
      td_control fuel self algo g = Ret (q, g') ->
      forall s a,
        is_terminal_state (env self) s = true ->
        q !! (s, a) = zero_table self !! (s, a)
        /\ (s ∈ all_states (env self) -> a ∈ possible_actions (env self) ->
            q !! (s, a) = Some PrimFloat.zero).
Proof.
  intros Halgo Hfuel.
  assert (Hrule : update_rule algo).
  { destruct Halgo as [-> | ->];
      [apply sarsa_update_rule|apply q_learning_update_rule]. }
  split; [apply td_control_fuel; assumption|].
  intros q g' Hrun s a Hs.
  pose proof (td_control_terminal_rows _ _ _ _ _ _ Hrule Hrun s a Hs) as Hq.
  split; [exact Hq|]. intros Hin Ha. rewrite Hq. apply zero_table_zero; assumption.
Qed.

End WithEnvironment.

(** Two epochs of SARSA in the corridor (values 0, -1 on the way and 10 at
    the goal), walking right: the run returns, the entry of (0, 1) has
    moved, and the row of the terminal cell 2 is still 0. *)
Lemma terminal_rows_stay_zero_witness :
  exists q g',
    TD.td_control 10
      (Corridor.agent (Corridor.corridor Corridor.goal_values) 0.5 0.5 2 10)
      (TD.sarsa_formula
         (Corridor.agent (Corridor.corridor Corridor.goal_values) 0.5 0.5 2 10))
      [] = Ret (q, g')
    /\ q !! (0%Z, 1%Z) = Some 0.5%float
    /\ q !! (2%Z, 1%Z) = Some PrimFloat.zero.
Proof.
  eexists. eexists. split; [vm_compute; reflexivity|]. split; [vm_compute; reflexivity|].
  refine (proj2 (proj2 (terminal_rows_stay_zero 10
            (Corridor.agent (Corridor.corridor Corridor.goal_values)
               0.5 0.5 2 10) _ [] (or_introl eq_refl) _) _ [] _ 2%Z 1%Z _) _ _).
  - vm_compute. lia.
  - vm_compute. reflexivity.
  - reflexivity.
  - vm_compute. set_solver.
  - vm_compute. set_solver.
Defined.

End ControlDriver.

(** ** TD(0) prediction *)

Module Prediction.
Section WithEnvironment.
Import TD Runs.

Context {State Action : Type} `{Countable State} `{Countable Action}.
Context {rng : Type} `{!Random rng} `{!Pow} `{!RLFunctions State Action rng}.

(** The value TD(0) stores for a state holding [v] whose successor holds
    [vn]; inside the loop [done] is false, so the factor [(not done)] is 1. *)
Definition td0_value (self : Agent State Action) (v vn : float) : float :=
  (v + alpha self * (reward self + gamma self * vn * 1 - v))%float.

(** The loop variables after one pass over [d] that draws [action] and
    leaves the generator [g1], read off [td0_body]. *)
Definition td0_next (self : Agent State Action) (d : TD0 State Action rng)
  (action : Action) (g1 : rng) (v vn : float) : TD0 State Action rng :=
  let s := td0_state d in
  let s' := new_state_given_action (td0_env d) s action in
  {| td0_env := set_grid (td0_env d) (<[s := td0_value self v vn]> (grid (td0_env d)));
     td0_state := s';
     td0_done := is_terminal_state (td0_env d) s';
     td0_gen := g1;
     td0_log := td0_log d ++ [(s, action, s')] |}.

Lemma td0_body_inv (self : Agent State Action) (d d' : TD0 State Action rng) :
  td0_done d = false ->
  td0_body self d = Ret d' ->
  exists action g1 v vn,
    get_random_action None (td0_gen d) = (action, g1)
    /\ grid (td0_env d) !! td0_state d = Some v
    /\ grid (td0_env d) !! new_state_given_action (td0_env d) (td0_state d) action
       = Some vn
    /\ d' = td0_next self d action g1 v vn.
Proof.
  intros Hdone Hrun. unfold td0_body in Hrun. rewrite Hdone in Hrun.
  destruct (get_random_action None (td0_gen d)) as [action g1] eqn:Hact.
  rewrite ControlDriver.call_new_state in Hrun. cbn [mbind run_bind] in Hrun.
  unfold grid_at in Hrun.
  destruct (grid (td0_env d) !! td0_state d) as [v|] eqn:Hv; [|discriminate].
  cbn [or_raise mbind run_bind] in Hrun.
  destruct (grid (td0_env d) !! _) as [vn|] eqn:Hvn in Hrun; [|discriminate].
  cbn [or_raise mbind run_bind] in Hrun. injection Hrun as <-.
  exists action, g1, v, vn. repeat split; assumption.
Qed.

Lemma td0_body_run (self : Agent State Action) (d : TD0 State Action rng)
  (action : Action) (g1 : rng) (v vn : float) :
  td0_done d = false ->
  get_random_action None (td0_gen d) = (action, g1) ->
  grid (td0_env d) !! td0_state d = Some v ->
  grid (td0_env d) !! new_state_given_action (td0_env d) (td0_state d) action = Some vn ->
  td0_body self d = Ret (td0_next self d action g1 v vn).
Proof.
  intros Hdone Hact Hv Hvn. unfold td0_body. rewrite Hdone, Hact.
  rewrite ControlDriver.call_new_state. cbn [mbind run_bind].
  unfold grid_at. rewrite Hv. cbn [or_raise mbind run_bind]. rewrite Hvn. reflexivity.
Qed.

Lemma td0_body_fuel (self : Agent State Action) (d : TD0 State Action rng) :
  td0_body self d <> OutOfFuel.
Proof.
  unfold td0_body. destruct (get_random_action None (td0_gen d)) as [action g1].
  rewrite ControlDriver.call_new_state. cbn [mbind run_bind].
  apply bind_fuel; [apply or_raise_fuel|]. intros v _.
  apply bind_fuel; [apply or_raise_fuel|]. discriminate.
Qed.

(** The loop of TD(0) has one exit: the state just entered is terminal. *)
Lemma td0_loop_exit (self : Agent State Action) (fuel : nat)
  (d0 d : TD0 State Action rng) :
  td0_done d0 = false ->
  while fuel td0_cond (td0_body self) d0 = Ret d ->
  is_terminal_state (td0_env d0) (td0_state d) = true.
Proof.
  intros Hdone Hrun.
  apply (Loops.while_invariant _ _
           (fun d => is_terminal_state (td0_env d) = is_terminal_state (td0_env d0)
                     /\ (td0_done d = true ->
                         is_terminal_state (td0_env d0) (td0_state d) = true)))
    in Hrun as [[_ Hd] Hc].
  - apply Hd. unfold td0_cond in Hc. apply negb_false_iff, Hc.
  - intros d1 d2 [He _] Hc Hb. unfold td0_cond in Hc. apply negb_true_iff in Hc.
    apply (td0_body_inv _ _ _ Hc) in Hb as (a & g1 & v & vn & _ & _ & _ & ->).
    cbn. rewrite <- He. auto.
  - split; [reflexivity|]. rewrite Hdone. discriminate.
Qed.

(** C7.  A pass of the TD(0) loop over a state [s] holding [v], with
    successor [s'] holding [vn], stores v + alpha * (reward + gamma * vn - v)
    in the entry [s] of the environment's own grid, which is the only table
    among the loop's variables: the environment after the pass is the one
    before it with that one grid entry replaced.  The value [v] is kept
    nowhere: a pass that starts from the same variables with any other value
    [w] in the entry [s] and arrives at the same stored value ends in the very
    same variables. *)
Theorem td0_writes_into_reward_grid (self : Agent State Action)
  (d d' : TD0 State Action rng) :
  td0_done d = false ->
  td0_body self d = Ret d' ->
  exists action g1 v vn,
    let s := td0_state d in
    let s' := new_state_given_action (td0_env d) s action in
    get_random_action None (td0_gen d) = (action, g1)
    /\ grid (td0_env d) !! s = Some v
    /\ grid (td0_env d) !! s' = Some vn
    /\ td0_env d'
       = set_grid (td0_env d) (<[s := td0_value self v vn]> (grid (td0_env d)))
    /\ grid (td0_env d') !! s = Some (td0_value self v vn)
    /\ (forall k, k <> s -> grid (td0_env d') !! k = grid (td0_env d) !! k)
    /\ forall w : float,
        s' <> s ->
        td0_value self w vn = td0_value self v vn ->
        td0_body self
          {| td0_env := set_grid (td0_env d) (<[s := w]> (grid (td0_env d)));
             td0_state := s; td0_done := false; td0_gen := td0_gen d;
             td0_log := td0_log d |}
        = Ret d'.
Proof.
  intros Hdone Hrun.
  destruct (td0_body_inv _ _ _ Hdone Hrun) as (a & g1 & v & vn & Hact & Hv & Hvn & ->).
  exists a, g1, v, vn. cbn zeta. split; [exact Hact|].
  split; [exact Hv|]. split; [exact Hvn|].
  split; [reflexivity|]. split; [apply lookup_insert_eq|].
  split; [intros k Hk; apply lookup_insert_ne; congruence|].
  intros w Hne Hw.
  rewrite (td0_body_run self _ a g1 w vn).
  - unfold td0_next, set_grid.
    cbn [td0_env td0_state td0_gen td0_log grid new_state_given_action
         is_terminal_state possible_actions all_states available_states initial_state].
    rewrite Hw, insert_insert_eq. reflexivity.
  - reflexivity.
  - exact Hact.
  - apply lookup_insert_eq.
  - cbn. rewrite lookup_insert_ne by congruence. exact Hvn.
Qed.

(** C4 (as amended).  The stepping loop of td_control, with the SARSA or the
    Q-learning rule, and the stepping loop of DoubleQLearning, whatever the
    environment answers to its successor query, stop on a terminal state or
    on the step budget num_episodes: the loop takes no step from a terminal
    state or with the counter at num_episodes, and takes one otherwise;
    every pass adds one to the counter; so, entered with the counter at 0,
    the loop returns within num_episodes passes, with the counter at most
    num_episodes and the state terminal or the counter at num_episodes.
    The loop of TabularTD0 has no counter: when it returns, the state it
    entered last is terminal. *)
Theorem episode_step_budget (self : Agent State Action) :
  (forall algo : algorithm State Action,
      algo = sarsa_formula self \/ algo = q_learning_formula self ->
      Loops.stops_on_terminal_or_budget
        (td_control_cond self) (td_control_body self algo)
        (fun c => is_terminal_state (env self) (state c))
        num_of_steps (num_episodes self))
  /\ (forall successor : State -> Action -> run State,
        (forall s a, successor s a <> OutOfFuel) ->
        Loops.stops_on_terminal_or_budget
          (dq_cond self) (dq_step self successor)
          (fun c => is_terminal_state (env self) (dq_state c))
          dq_num_of_steps (num_episodes self))
  /\ forall (n : nat) (d0 d : TD0 State Action rng),
      td0_done d0 = false ->
      while n td0_cond (td0_body self) d0 = Ret d ->
      is_terminal_state (td0_env d0) (td0_state d) = true.
Proof.
  split; [|split].
  - intros algo Halgo. apply Loops.budgeted_loop.
    + reflexivity.
    + intros c c' Hb. apply ControlDriver.td_control_body_inv in Hb as (_ & Hn & _).
      exact Hn.
    + intros c. apply ControlDriver.td_control_body_fuel.
      destruct Halgo as [-> | ->];
        [apply ControlDriver.sarsa_update_rule
        |apply ControlDriver.q_learning_update_rule].
  - intros successor Hsucc. apply Loops.budgeted_loop.
    + reflexivity.
    + intros c c'. apply ControlDriver.dq_step_counts.
    + intros c. apply ControlDriver.dq_step_fuel, Hsucc.
  - intros n d0 d. apply td0_loop_exit.
Qed.

End WithEnvironment.

(** The start of an episode in the corridor with the values [values]. *)
Definition start (values : list (Z * float)) : TD.TD0 Z Z Script.tape :=
  {| TD.td0_env := Corridor.corridor values; TD.td0_state := 0%Z;
     TD.td0_done := false; TD.td0_gen := []; TD.td0_log := [] |}.

Definition zero_at_0 : list (Z * float) :=
  [(0%Z, 0%float); (1%Z, 0%float); (2%Z, 0%float)].

Definition one_at_0 : list (Z * float) :=
  [(0%Z, 1%float); (1%Z, 0%float); (2%Z, 0%float)].

(** With alpha = 1 the pass from cell 0 to cell 1 stores -1 at cell 0
    whether the grid held 0 or 1 there: both starts end in the same
    variables. *)
Lemma td0_writes_into_reward_grid_witness :
  exists d',
    TD.td0_body (Corridor.agent (Corridor.corridor zero_at_0) 1 0.5 1 10) (start zero_at_0)
    = Ret d'
    /\ TD.grid (TD.td0_env d') !! 0%Z = Some (-1)%float
    /\ TD.td0_body (Corridor.agent (Corridor.corridor zero_at_0) 1 0.5 1 10) (start one_at_0)
       = Ret d'.
Proof.
  set (self := Corridor.agent (Corridor.corridor zero_at_0) 1 0.5 1 10).
  assert (Hrun : TD.td0_body self (start zero_at_0)
                 = Ret (td0_next self (start zero_at_0) 1%Z [] 0%float 0%float))
    by (vm_compute; reflexivity).
  exists (td0_next self (start zero_at_0) 1%Z [] 0%float 0%float).
  destruct (td0_writes_into_reward_grid self (start zero_at_0) _ eq_refl Hrun)
    as (a & g1 & v & vn & Hact & Hv & Hvn & _ & _ & _ & Hw).
  injection Hact as <- <-.
  assert (v = 0%float) as -> by (vm_compute in Hv; congruence).
  assert (vn = 0%float) as -> by (vm_compute in Hvn; congruence).
  split; [exact Hrun|]. split; [vm_compute; reflexivity|].
  assert (Hother : td0_value self 1 0 = td0_value self 0 0 -> _)
    by (apply (Hw 1%float); discriminate).
  rewrite <- Hother; [|vm_compute; reflexivity].
  vm_compute. reflexivity.
Defined.

(** The corridor with a budget of one step: the loop returns after one pass
    in cell 1, which is not terminal, with the counter at the ceiling; and
    entered in the terminal cell 2 with the counter at 0 it takes no step. *)
Definition one_step : TD.Agent Z Z :=
  Corridor.agent (Corridor.corridor Corridor.goal_values) 0.5 0.5 1 1.

Definition first_pass : TD.Control Z Z Script.tape :=
  {| TD.q_values_df := TD.zero_table one_step;
     TD.state_action_pairs := [(0, 1); (1, 1); (2, 1)]%Z;
     TD.state := 0%Z; TD.action := 1%Z; TD.num_of_steps := 0%Z; TD.gen := [] |}.

Definition at_goal : TD.Control Z Z Script.tape :=
  {| TD.q_values_df := TD.zero_table one_step;
     TD.state_action_pairs := [(0, 1); (1, 1); (2, 1)]%Z;
     TD.state := 2%Z; TD.action := 1%Z; TD.num_of_steps := 0%Z; TD.gen := [] |}.

Lemma episode_step_budget_witness :
  exists c,
    while 1 (TD.td_control_cond one_step)
      (TD.td_control_body one_step (TD.sarsa_formula one_step)) first_pass = Ret c
    /\ TD.state c = 1%Z
    /\ (0 <= TD.num_of_steps c <= Z.max 0 (TD.num_episodes one_step))%Z
    /\ (TD.is_terminal_state (TD.env one_step) (TD.state c) = true
        \/ (TD.num_episodes one_step <= TD.num_of_steps c)%Z)
    /\ while 1 (TD.td_control_cond one_step)
         (TD.td_control_body one_step (TD.sarsa_formula one_step)) at_goal = Ret at_goal.
Proof.
  pose proof (proj1 (episode_step_budget (rng := Script.tape) one_step)
                (TD.sarsa_formula one_step) (or_introl eq_refl)) as Hloop.
  eexists. split; [vm_compute; reflexivity|]. split; [reflexivity|].
  apply and_assoc.
  split; [|apply (Loops.stops_at_once _ _ _ _ _ Hloop); left; reflexivity].
  refine (proj2 (Loops.within_budget _ _ _ _ _ Hloop 1 first_pass eq_refl _) _ _).
  - vm_compute. lia.
  - vm_compute. reflexivity.
Defined.

(** In the pit no terminal state is ever entered, and TD(0) loops for as
    long as it is given fuel. *)
Lemma td0_pit_loops (self : TD.Agent Z Z) (fuel : nat) (d : TD.TD0 Z Z Script.tape) :
  TD.td0_done d = false ->
  TD.td0_state d = 0%Z ->
  TD.new_state_given_action (TD.td0_env d) = (fun _ _ => 0%Z) ->
  TD.is_terminal_state (TD.td0_env d) = (fun s => (s =? 2)%Z) ->
  is_Some (TD.grid (TD.td0_env d) !! 0%Z) ->
  while fuel TD.td0_cond (TD.td0_body self) d = OutOfFuel.
Proof.
  revert d. induction fuel as [|fuel IH]; intros d Hdone Hs Hmove Hterm [v Hv];
    rewrite Loops.while_unfold; unfold TD.td0_cond at 1; rewrite Hdone; cbn [negb];
    [reflexivity|].
  destruct (get_random_action (State := Z) None (TD.td0_gen d)) as [a g1] eqn:Hact.
  rewrite (td0_body_run self d a g1 v v Hdone Hact).
  - apply IH; unfold td0_next, TD.set_grid;
      cbn [TD.td0_done TD.td0_state TD.td0_env TD.new_state_given_action
           TD.is_terminal_state TD.grid].
    + rewrite Hmove, Hterm. reflexivity.
    + rewrite Hmove. reflexivity.
    + exact Hmove.
    + exact Hterm.
    + rewrite Hs, lookup_insert_eq. eexists. reflexivity.
  - rewrite Hs. exact Hv.
  - rewrite Hmove. exact Hv.
Qed.

(** C4, the claim as stated fails for TD(0): in the pit, whose cell 0 is not
    terminal, TabularTD0.compute_state_value is still inside its first
    episode after any number of steps, also beyond a configured ceiling
    of 10. *)
Lemma td0_has_no_ceiling :
  TD.is_terminal_state Corridor.pit 0%Z = false
  /\ TD.num_episodes (Corridor.agent Corridor.pit 0.5 0.5 1 10) = 10%Z
  /\ forall (fuel : nat) (g : Script.tape),
      TD.TabularTD0_compute_state_value fuel (Corridor.agent Corridor.pit 0.5 0.5 1 10) g
      = OutOfFuel.
Proof.
  split; [reflexivity|]. split; [reflexivity|]. intros fuel g.
  unfold TD.TabularTD0_compute_state_value.
  cbn [TD.num_of_epochs Corridor.agent seq for_each TD.td0_epoch TD.starting_state
       TD.env or_raise mbind run_bind].
  rewrite td0_pit_loops; try reflexivity.
  eexists. vm_compute. reflexivity.
Qed.

End Prediction.

(** ** n-step TD *)

Module NStepReturn.
Import TD.

(** The return as the specification words it, for the state visited at time
    [r] and the window of [n_step] steps: the rewards discounted by
    gamma^0, gamma^1, ... in the order they were received, plus, unless the
    episode ends within the window, gamma^n times the estimate of the state
    reached after the window.  [visited] lists the states s_0, s_1, ... up
    to the state the last recorded step leads to. *)
Definition specified_return {State Action : Type} `{Countable State} {rng : Type}
  `{!Pow} (self : Agent State Action) (c : NStep State Action rng)
  (visited : list State) (r : Z) : run float :=
  terms ← map_run
            (fun x => rx ← py_index (ns_rewards c) x;
                      Ret (pow (gamma self) (x - r) * rx)%float)
            (py_range r (Z.min (r + n_step self) (ns_T c)));
  let G := Float.py_sum terms in
  if (r + n_step self <? ns_T c)%Z then
    s ← py_index visited (r + n_step self);
    v ← grid_at (ns_env c) s;
    Ret (G + pow (gamma self) (n_step self) * v)%float
  else Ret G.

(** The corridor with the estimates 4, 8 and 0, alpha = gamma = 1/2,
    step cost -1 and n_step = 1, at the first step of an episode from
    cell 0, moving right. *)
Definition estimates : list (Z * float) :=
  [(0%Z, 4%float); (1%Z, 8%float); (2%Z, 0%float)].

Definition walker : Agent Z Z :=
  Corridor.agent (Corridor.corridor estimates) 0.5 0.5 1 10.

Definition episode_start : NStep Z Z Script.tape :=
  {| ns_env := Corridor.corridor estimates; ns_T := 100000; ns_t := 0;
     ns_states := []; ns_rewards := []; ns_state := 0%Z; ns_next_state := None;
     ns_done := false; ns_gen := []; ns_log := [] |}.

(** C3.  At that step the reward is 8 - 1 = 7 and the state one step ahead
    is cell 1, whose estimate is 8: the specified return is
    7 + 8/2 = 11 and the specified new entry of cell 0 is
    4 + (11 - 4)/2 = 7.5.  The code bootstraps from the estimate of cell 0
    itself: its return is 7 + 4/2 = 9 and it stores 4 + (9 - 4)/2 = 6.5. *)
Theorem nstep_return_bootstraps_from_current_state :
  exists c c',
    ns_observe walker episode_start = Ret c
    /\ ns_states c = [0%Z] /\ ns_next_state c = Some 1%Z /\ ns_rewards c = [7%float]
    /\ specified_return walker c [0%Z; 1%Z] 0 = Ret 11%float
    /\ ns_return walker c 0 = Ret 9%float
    /\ ns_body walker episode_start = Ret c'
    /\ grid (ns_env c') !! 0%Z = Some 6.5%float
    /\ (4 + 0.5 * (11 - 4))%float = 7.5%float.
Proof.
  eexists. eexists. split; [vm_compute; reflexivity|].
  repeat split; vm_compute; reflexivity.
Qed.

(** With n_step = 2 the second reward of the window is multiplied by
    gamma^(-1) = 2 where the specification has gamma^1 = 1/2: after the
    steps 0 -> 1 -> 2 the rewards are 7 and -1, the specified return for
    cell 0 is 7 - 1/2 + 0/4 = 6.5, and the code computes
    7 - 2 + 8/4 = 7. *)
Definition walker2 : Agent Z Z :=
  {| env := Corridor.corridor estimates; alpha := 0.5; gamma := 0.5; epsilon := 0;
     reward := (-1)%float; step_cost := (-1)%float; starting_state := Some 0%Z;
     num_of_epochs := 1; num_episodes := 10; n_step := 2 |}.

Lemma nstep_return_discounts_backwards :
  exists c1 c2,
    ns_body walker2 episode_start = Ret c1
    /\ ns_observe walker2 c1 = Ret c2
    /\ ns_states c2 = [0%Z; 1%Z] /\ ns_next_state c2 = Some 2%Z
    /\ ns_rewards c2 = [7%float; (-1)%float]
    /\ specified_return walker2 c2 [0%Z; 1%Z; 2%Z] 0 = Ret 6.5%float
    /\ ns_return walker2 c2 0 = Ret 7%float.
Proof.
  eexists. eexists. split; [vm_compute; reflexivity|].
  split; [vm_compute; reflexivity|].
  repeat split; vm_compute; reflexivity.
Qed.

End NStepReturn.

(** ** n-step TD with n = 1 against TD(0) *)

Module NStepVsTD0.
Section WithEnvironment.
Import TD Runs.

Context {State Action : Type} `{Countable State} `{Countable Action}.
Context {rng : Type} `{!Random rng} `{!Pow} `{!RLFunctions State Action rng}.

(** The states a log passes through. *)
Definition visited (log : list (transition State Action)) : list State :=
  map (fun x => x.1.1) log.

Lemma py_range_one (r hi : Z) : (r < hi)%Z -> py_range r (Z.min (r + 1) hi) = [r].
Proof.
  intros Hr. unfold py_range.
  replace (Z.to_nat (Z.min (r + 1) hi - r)) with 1%nat by lia.
  cbn. f_equal. lia.
Qed.

Lemma py_index_last {A : Type} (l : list A) (x : A) (i : Z) :
  i = Z.of_nat (length l) -> py_index (l ++ [x]) i = Ret x.
Proof.
  intros ->. unfold py_index.
  destruct (Z.of_nat (length l) <? 0)%Z eqn:Hneg; [apply Z.ltb_lt in Hneg; lia|].
  rewrite Hneg, Nat2Z.id.
  rewrite lookup_app_r by lia. rewrite Nat.sub_diag. reflexivity.
Qed.

(** The variables of the n-step loop after a pass over a state that is not
    terminal: [w] is the value stored for it. *)
Definition ns_next (self : Agent State Action) (c : NStep State Action rng)
  (action : Action) (g1 : rng) (vn w : float) : NStep State Action rng :=
  let s := ns_state c in
  let s' := new_state_given_action (ns_env c) s action in
  {| ns_env := set_grid (ns_env c) (<[s := w]> (grid (ns_env c)));
     ns_T := ns_T c;
     ns_t := (ns_t c + 1)%Z;
     ns_states := ns_states c ++ [s];
     ns_rewards := ns_rewards c ++ [(vn + step_cost self)%float];
     ns_state := s';
     ns_next_state := Some s';
     ns_done := ns_done c;
     ns_gen := g1;
     ns_log := ns_log c ++ [(s, action, s')] |}.

(** ... and after the pass over a terminal state, which closes the episode
    and stores nothing. *)
Definition ns_last (self : Agent State Action) (c : NStep State Action rng)
  (action : Action) (g1 : rng) (vn : float) : NStep State Action rng :=
  let s := ns_state c in
  let s' := new_state_given_action (ns_env c) s action in
  {| ns_env := ns_env c;
     ns_T := (ns_t c + 1)%Z;
     ns_t := (ns_t c + 1)%Z;
     ns_states := ns_states c ++ [s];
     ns_rewards := ns_rewards c ++ [(vn + step_cost self)%float];
     ns_state := s';
     ns_next_state := Some s';
     ns_done := true;
     ns_gen := g1;
     ns_log := ns_log c ++ [(s, action, s')] |}.

(** The value the n-step loop stores with n_step = 1 for a state holding
    [v] whose successor holds [vn]: the return is the reward
    [vn + step_cost] times gamma ** 0, plus gamma ** 1 times [v], the
    estimate of the state itself. *)
Definition ns_stored (self : Agent State Action) (v vn : float) : float :=
  let G := (0 + (vn + step_cost self) * pow (gamma self) 0
            + pow (gamma self) 1 * v)%float in
  (v + alpha self * (G - v))%float.

(** What the comparison needs of the loop variables: the episode is open,
    under the ceiling, and has recorded one state and one reward per step. *)
Record in_episode (c : NStep State Action rng) : Prop := {
  ep_T : ns_T c = 100000%Z;
  ep_t : ns_t c = Z.of_nat (length (ns_states c));
  ep_rewards : length (ns_rewards c) = length (ns_states c);
  ep_ceiling : (ns_t c < 100000)%Z;
}.

Lemma ns_body_step (self : Agent State Action) (c : NStep State Action rng)
  (a : Action) (g1 : rng) (v vn : float) :
  n_step self = 1%Z ->
  in_episode c ->
  (ns_t c + 1 < 100000)%Z ->
  is_terminal_state (ns_env c) (ns_state c) = false ->
  get_random_action None (ns_gen c) = (a, g1) ->
  grid (ns_env c) !! ns_state c = Some v ->
  grid (ns_env c) !! new_state_given_action (ns_env c) (ns_state c) a = Some vn ->
  ns_body self c = Ret (ns_next self c a g1 vn (ns_stored self v vn)).
Proof.
  intros Hn [HT Ht Hrw Hceil] Hroom Hterm Hact Hv Hvn.
  unfold ns_body, ns_observe.
  destruct (ns_t c <? ns_T c)%Z eqn:Hlt; [|apply Z.ltb_ge in Hlt; lia].
  rewrite Hact, ControlDriver.call_new_state. cbn [mbind run_bind].
  unfold grid_at at 1. rewrite Hvn. cbn [or_raise mbind run_bind]. rewrite Hterm.
  cbn [ns_t ns_T ns_env ns_state ns_states ns_rewards ns_next_state ns_done ns_gen
       ns_log or_raise mbind run_bind].
  rewrite Hn. replace (ns_t c - 1 + 1)%Z with (ns_t c) by lia.
  unfold ns_update.
  destruct (0 <=? ns_t c)%Z eqn:Hpos; [|apply Z.leb_gt in Hpos; lia].
  unfold ns_return.
  cbn [ns_t ns_T ns_env ns_state ns_states ns_rewards ns_next_state ns_done ns_gen
       ns_log].
  rewrite Hn, py_range_one by lia. cbn [map_run mbind run_bind].
  rewrite (py_index_last (ns_rewards c)) by lia. cbn [mbind run_bind].
  destruct (ns_t c + 1 <? ns_T c)%Z eqn:Hboot; [|apply Z.ltb_ge in Hboot; lia].
  rewrite (py_index_last (ns_states c)) by lia. cbn [mbind run_bind].
  unfold grid_at. rewrite Hv, Hterm. cbn [or_raise mbind run_bind negb].
  rewrite (py_index_last (ns_states c)) by lia. cbn [mbind run_bind].
  rewrite Hv. cbn [or_raise mbind run_bind].
  destruct (ns_t c =? ns_T c - 1)%Z eqn:Hlast; [apply Z.eqb_eq in Hlast; lia|].
  rewrite Z.sub_diag. unfold ns_next, ns_stored. reflexivity.
Qed.

Lemma ns_body_last (self : Agent State Action) (c : NStep State Action rng)
  (a : Action) (g1 : rng) (vn : float) :
  n_step self = 1%Z ->
  in_episode c ->
  is_terminal_state (ns_env c) (ns_state c) = true ->
  get_random_action None (ns_gen c) = (a, g1) ->
  grid (ns_env c) !! new_state_given_action (ns_env c) (ns_state c) a = Some vn ->
  ns_body self c = Ret (ns_last self c a g1 vn).
Proof.
  intros Hn [HT Ht Hrw Hceil] Hterm Hact Hvn.
  unfold ns_body, ns_observe.
  destruct (ns_t c <? ns_T c)%Z eqn:Hlt; [|apply Z.ltb_ge in Hlt; lia].
  rewrite Hact, ControlDriver.call_new_state. cbn [mbind run_bind].
  unfold grid_at at 1. rewrite Hvn. cbn [or_raise mbind run_bind]. rewrite Hterm.
  cbn [ns_t ns_T ns_env ns_state ns_states ns_rewards ns_next_state ns_done ns_gen
       ns_log or_raise mbind run_bind].
  rewrite Hn. replace (ns_t c - 1 + 1)%Z with (ns_t c) by lia.
  unfold ns_update.
  destruct (0 <=? ns_t c)%Z eqn:Hpos; [|apply Z.leb_gt in Hpos; lia].
  unfold ns_return.
  cbn [ns_t ns_T ns_env ns_state ns_states ns_rewards ns_next_state ns_done ns_gen
       ns_log].
  rewrite Hn, py_range_one by lia. cbn [map_run mbind run_bind].
  rewrite (py_index_last (ns_rewards c)) by lia. cbn [mbind run_bind].
  rewrite Z.sub_diag. change (py_pow (gamma self) 0) with (Ret (pow (gamma self) 0)).
  cbn [mbind run_bind].
  rewrite Z.ltb_irrefl. cbn [mbind run_bind]. rewrite Hterm. cbn [negb mbind run_bind].
  replace (ns_t c + 1 - 1)%Z with (ns_t c) by lia. rewrite Z.eqb_refl.
  unfold ns_last. reflexivity.
Qed.








Lemma visited_app (log : list (transition State Action)) (x : transition State Action) :
  visited (log ++ [x]) = visited log ++ [x.1.1].
Proof. unfold visited. rewrite map_app. reflexivity. Qed.





End WithEnvironment.





End NStepVsTD0.

(** ** Action selection: exploitation and ties *)

Module Selection.
Section WithEnvironment.
Import Runs.

Context {State Action : Type} `{Countable State} `{Countable Action}.
Context {Name : Type} `{EqDecision Name}.
Context {rng : Type} `{!Random rng} `{!RLFunctions State Action rng}.

Lemma q_loc_length (self : TD.Agent State Action) (Q : gmap (State * Action) float)
  (state : State) (row : list float) :
  TD.q_loc self Q state = Ret row ->
  length row = length (TD.possible_actions (TD.env self)).
Proof.
  unfold TD.q_loc. generalize (TD.possible_actions (TD.env self)). intros actions.
  revert row. induction actions as [|a actions IH]; intros row Hrow; cbn [map_run] in Hrow.
  - injection Hrow as <-. reflexivity.
  - do 2 step_run Hrow. injection Hrow as <-.
    cbn [length]. f_equal. apply IH. reflexivity.
Qed.

(** On a row without NaN the exploitation branch of [select_action] returns
    the action at the position of the first largest entry. *)
Lemma greedy_action_first_maximum (self : TD.Agent State Action)
  (Q : gmap (State * Action) float) (state : State) (row : list float) :
  TD.q_loc self Q state = Ret row ->
  row <> [] ->
  (forall x, x ∈ row -> PrimFloat.is_nan x = false) ->
  exists i a,
    TD.greedy_action self state Q = Ret a
    /\ TD.possible_actions (TD.env self) !! i = Some a
    /\ FloatOrder.first_maximum row i.
Proof.
  intros Hrow Hne Hnan.
  destruct (FloatOrder.series_argmax_spec row Hne Hnan) as (i & Hi & Hmax).
  destruct Hmax as (M & HM & Hmax).
  assert (Hlt : (i < length (TD.possible_actions (TD.env self)))%nat).
  { rewrite <- (q_loc_length _ _ _ _ Hrow). eapply lookup_lt_Some, HM. }
  destruct (lookup_lt_is_Some_2 _ _ Hlt) as [a Ha].
  exists i, a. split; [|split; [exact Ha|exists M; split; [exact HM|exact Hmax]]].
  unfold TD.greedy_action. rewrite Hrow. cbn [mbind run_bind].
  rewrite Hi. cbn [mbind run_bind]. rewrite Ha. reflexivity.
Qed.

(** The arms among which [Greedy._act] chooses when it exploits are the arms
    whose estimate equals the largest estimate, in column order. *)
Lemma maximizers_spec (b : Bandit.Bandits Name) (a : Name) :
  a ∈ Bandit.maximizers b
  <-> exists c, (a, c) ∈ Bandit.bandit_df b
                /\ PrimFloat.eqb (Bandit.q_estimation c)
                     (Float.series_max
                        (map (fun p => Bandit.q_estimation (snd p)) (Bandit.bandit_df b)))
                   = true.
Proof.
  unfold Bandit.maximizers. rewrite list_elem_of_In, in_map_iff. split.
  - intros ([a' c] & <- & Hin). apply filter_In in Hin as [Hin Hq].
    exists c. split; [apply list_elem_of_In, Hin|exact Hq].
  - intros (c & Hin & Hq). exists (a, c). split; [reflexivity|].
    apply filter_In. split; [apply list_elem_of_In, Hin|exact Hq].
Qed.

Lemma NoDup_filter_fst {V : Type} (f : Name * V -> bool) (l : list (Name * V)) :
  NoDup (map fst l) -> NoDup (map fst (List.filter f l)).
Proof.
  induction l as [|[n v] l IH]; intros Hnd; [constructor|].
  cbn [map fst] in Hnd. apply NoDup_cons in Hnd as [Hn Hnd].
  cbn [List.filter]. destruct (f (n, v)); [|apply IH, Hnd].
  cbn [map fst]. apply NoDup_cons. split; [|apply IH, Hnd].
  intros Hin. apply Hn. apply list_elem_of_In, in_map_iff in Hin as (p & Hp & Hin).
  apply filter_In in Hin as [Hin _].
  apply list_elem_of_In, in_map_iff. exists p. split; assumption.
Qed.

Lemma choice_at {A : Type} (l : list A) (g g' : rng) (k : nat) (a : A) :
  l !! k = Some a ->
  np_random_choice (length l) g = (k, g') ->
  Bandit.choice l g = Ret (a, g').
Proof.
  intros Ha Hk. unfold Bandit.choice. destruct l as [|x l]; [discriminate|].
  rewrite Hk, Ha. reflexivity.
Qed.

(** With no NaN among the estimates, the arms [_act] chooses among are the
    arms of the largest estimate: the arms whose estimate no estimate of the
    frame exceeds. *)
Lemma maximizers_largest (b : Bandit.Bandits Name) (a : Name) :
  (forall p, p ∈ Bandit.bandit_df b -> PrimFloat.is_nan (Bandit.q_estimation p.2) = false) ->
  a ∈ Bandit.maximizers b
  <-> exists c, (a, c) ∈ Bandit.bandit_df b
                /\ forall p, p ∈ Bandit.bandit_df b ->
                      PrimFloat.leb (Bandit.q_estimation p.2) (Bandit.q_estimation c) = true.
Proof.
  intros Hnan. rewrite maximizers_spec.
  set (row := map (fun p : Name * Bandit.Column => Bandit.q_estimation (snd p))
                  (Bandit.bandit_df b)).
  assert (Hin : forall p, p ∈ Bandit.bandit_df b -> Bandit.q_estimation p.2 ∈ row).
  { intros p Hp. apply list_elem_of_In, in_map_iff. exists p.
    split; [reflexivity|apply list_elem_of_In, Hp]. }
  assert (Hrow : forall x, x ∈ row -> PrimFloat.is_nan x = false).
  { intros x Hx. apply list_elem_of_In, in_map_iff in Hx as (p & <- & Hp).
    apply Hnan, list_elem_of_In, Hp. }
  assert (Hmax : forall c, (a, c) ∈ Bandit.bandit_df b ->
                   Float.series_max row ∈ row
                   /\ forall x, x ∈ row -> PrimFloat.ltb (Float.series_max row) x = false).
  { intros c Hc. apply FloatOrder.series_max_spec; [|exact Hrow].
    intros Hnil. apply Hin in Hc. rewrite Hnil in Hc. inversion Hc. }
  split; intros (c & Hc & Hq); exists c; (split; [exact Hc|]);
    destruct (Hmax c Hc) as [HM Hup].
  - intros p Hp.
    apply (FloatOrder.leb_trans _ (Float.series_max row)).
    + apply FloatOrder.ltb_false_leb; [apply Hrow, HM|apply Hrow, Hin, Hp|].
      apply Hup, Hin, Hp.
    + apply FloatOrder.eqb_leb, Hq.
  - apply FloatOrder.leb_antisym.
    + apply FloatOrder.ltb_false_leb; [apply Hrow, HM|apply Hrow, (Hin _ Hc)|].
      apply Hup, (Hin _ Hc).
    + apply list_elem_of_In, in_map_iff in HM as (p & Hp & Hpin).
      rewrite <- Hp. apply Hq, list_elem_of_In, Hpin.
Qed.

Lemma NoDup_position {A : Type} (l : list A) (a : A) :
  NoDup l -> a ∈ l ->
  exists k, (k < length l)%nat /\ l !! k = Some a
            /\ forall j, l !! j = Some a -> j = k.
Proof.
  intros Hnd Ha. apply list_elem_of_lookup_1 in Ha as [k Hk]. exists k.
  split; [eapply lookup_lt_Some, Hk|]. split; [exact Hk|].
  intros j Hj. eapply NoDup_lookup; eassumption.
Qed.

(** C6 (as amended).  In the exploitation branch (the draw of
    np.random.rand() is not below epsilon):
    - select_action of TD.py draws nothing more and returns, on a row
      without NaN, the action at the position of the first largest entry of
      the row, so of several maximizing actions always the first in action
      order;
    - Greedy._act of bandit.py breaks the tie by np.random.choice among the
      maximizers.  With distinct arm names and no NaN among the estimates,
      the maximizers are exactly the arms whose estimate no estimate of the
      frame exceeds; each of them stands at exactly one of the positions
      np.random.choice draws from, and the arm returned is the one at the
      position drawn: every maximizer is returned for one draw in n, so with
      equal probability under NumPy's uniform draw. *)
Theorem ties_first_in_TD_random_in_bandit
  (self : TD.Agent State Action) (Q : gmap (State * Action) float) (state : State)
  (row : list float) (greedy : Bandit.Greedy) (b : Bandit.Bandits Name)
  (u : float) (g g1 : rng) :
  np_random_rand g = (u, g1) ->
  PrimFloat.ltb u (TD.epsilon self) = false ->
  PrimFloat.ltb u (Bandit.epsilon greedy) = false ->
  TD.q_loc self Q state = Ret row ->
  row <> [] ->
  (forall x, x ∈ row -> PrimFloat.is_nan x = false) ->
  NoDup (map fst (Bandit.bandit_df b)) ->
  (forall p, p ∈ Bandit.bandit_df b -> PrimFloat.is_nan (Bandit.q_estimation p.2) = false) ->
  (exists i a,
      TD.select_action self state Q g = Ret (a, g1)
      /\ TD.possible_actions (TD.env self) !! i = Some a
      /\ FloatOrder.first_maximum row i)
  /\ (forall a, a ∈ Bandit.maximizers b
                <-> exists c, (a, c) ∈ Bandit.bandit_df b
                              /\ forall p, p ∈ Bandit.bandit_df b ->
                                    PrimFloat.leb (Bandit.q_estimation p.2)
                                      (Bandit.q_estimation c) = true)
  /\ (forall a, a ∈ Bandit.maximizers b ->
                exists k, (k < length (Bandit.maximizers b))%nat
                          /\ Bandit.maximizers b !! k = Some a
                          /\ forall j, Bandit.maximizers b !! j = Some a -> j = k)
  /\ forall (k : nat) (a : Name) (g2 : rng),
      Bandit.maximizers b !! k = Some a ->
      np_random_choice (length (Bandit.maximizers b)) g1 = (k, g2) ->
      Bandit.Greedy_act greedy b g = Ret (a, g2).
Proof.
  intros Hrand Htd Hbandit Hrow Hne Hnan Hnames Hest. split; [|split; [|split]].
  - destruct (greedy_action_first_maximum self Q state row Hrow Hne Hnan)
      as (i & a & Ha & Hi & Hmax).
    exists i, a. split; [|auto].
    unfold TD.select_action. rewrite Hrand, Htd, Ha. reflexivity.
  - intros a. apply maximizers_largest, Hest.
  - intros a. apply NoDup_position, NoDup_filter_fst, Hnames.
  - intros k a g2 Ha Hk. unfold Bandit.Greedy_act. rewrite Hrand, Hbandit.
    eapply choice_at; eassumption.
Qed.

End WithEnvironment.

(** The fresh table of the corridor and the fresh two-armed bandit, with the
    draws 0.5 (exploit) and 1 (position 1): select_action returns the first
    action, -1, and leaves the draw 1 on the tape; Greedy._act has the
    maximizers A and B and returns B, the arm at position 1. *)
Lemma ties_witness :
  TD.select_action (Corridor.agent (Corridor.corridor Prediction.zero_at_0) 0.5 0.5 1 10)
    0%Z (TD.zero_table (Corridor.agent (Corridor.corridor Prediction.zero_at_0) 0.5 0.5 1 10))
    [Script.F 0.5; Script.I 1]
  = Ret ((-1)%Z, [Script.I 1])
  /\ Bandit.maximizers TwoArms.bandit = ["A"; "B"]%string
  /\ Bandit.Greedy_act TwoArms.greedy TwoArms.bandit [Script.F 0.5; Script.I 1]
     = Ret ("B"%string, []).
Proof.
  set (self := Corridor.agent (Corridor.corridor Prediction.zero_at_0) 0.5 0.5 1 10).
  assert (Hrow : TD.q_loc self (TD.zero_table self) 0%Z = Ret [0%float; 0%float])
    by (vm_compute; reflexivity).
  assert (Hnan : forall x, x ∈ [0%float; 0%float] -> PrimFloat.is_nan x = false).
  { intros x Hx. apply elem_of_cons in Hx as [->|Hx]; [reflexivity|].
    apply list_elem_of_singleton in Hx. subst x. reflexivity. }
  assert (Hnames : NoDup (map fst (Bandit.bandit_df TwoArms.bandit))).
  { apply NoDup_cons. split; [|apply NoDup_singleton].
    intros Hin. apply list_elem_of_singleton in Hin. discriminate. }
  assert (Hrand : np_random_rand (rng := Script.tape) [Script.F 0.5; Script.I 1]
                  = (0.5%float, [Script.I 1])) by reflexivity.
  assert (Hest : forall p, p ∈ Bandit.bandit_df TwoArms.bandit ->
                   PrimFloat.is_nan (Bandit.q_estimation p.2) = false).
  { intros p Hp. unfold TwoArms.bandit in Hp. cbn [Bandit.bandit_df] in Hp.
    apply elem_of_cons in Hp as [->|Hp]; [reflexivity|].
    apply list_elem_of_singleton in Hp. subst p. reflexivity. }
  destruct (ties_first_in_TD_random_in_bandit (rng := Script.tape)
              self (TD.zero_table self) 0%Z
              [0%float; 0%float] TwoArms.greedy TwoArms.bandit 0.5%float
              [Script.F 0.5; Script.I 1] [Script.I 1]
              Hrand eq_refl eq_refl Hrow ltac:(discriminate) Hnan Hnames Hest)
    as (_ & _ & _ & Hdraw).
  split; [vm_compute; reflexivity|]. split; [vm_compute; reflexivity|].
  apply (Hdraw 1%nat); reflexivity.
Defined.

(** C6, the claim as stated fails for select_action: in the fresh table of
    the corridor both actions of cell 0 hold 0, so both maximize the row, and
    the exploitation branch returns the first, -1, for every generator state;
    the maximizer 1 is never returned. *)
Lemma select_action_never_returns_the_second_maximizer :
  TD.q_loc (Corridor.agent (Corridor.corridor Prediction.zero_at_0) 0.5 0.5 1 10)
    (TD.zero_table (Corridor.agent (Corridor.corridor Prediction.zero_at_0) 0.5 0.5 1 10)) 0%Z
  = Ret [0%float; 0%float]
  /\ TD.possible_actions (Corridor.corridor Prediction.zero_at_0) = [(-1)%Z; 1%Z]
  /\ forall (g g1 : Script.tape) (u : float),
      np_random_rand g = (u, g1) ->
      PrimFloat.ltb u
        (TD.epsilon (Corridor.agent (Corridor.corridor Prediction.zero_at_0) 0.5 0.5 1 10))
      = false ->
      TD.select_action (Corridor.agent (Corridor.corridor Prediction.zero_at_0) 0.5 0.5 1 10)
        0%Z (TD.zero_table (Corridor.agent (Corridor.corridor Prediction.zero_at_0) 0.5 0.5 1 10))
        g
      = Ret ((-1)%Z, g1).
Proof.
  split; [vm_compute; reflexivity|]. split; [reflexivity|].
  intros g g1 u Hrand Hu. unfold TD.select_action. rewrite Hrand, Hu.
  set (a := TD.greedy_action _ _ _).
  assert (Ha : a = Ret (-1)%Z) by (vm_compute; reflexivity).
  rewrite Ha. reflexivity.
Qed.

End Selection.

(** ** The successor query of DoubleQLearning and TabularDynaQ *)

Module Successor.
Section WithEnvironment.
Import TD.

Context {State Action : Type} `{Countable State} `{Countable Action}.
Context {rng : Type} `{!Random rng} `{!Pow} `{!RLFunctions State Action rng}.

(** The environment contract has no attribute [next_state_given_action]. *)
Lemma next_state_given_action_missing (e : Env State Action) (s : State) (a : Action) :
  call_method e "next_state_given_action" s a = Raise AttributeError.
Proof. reflexivity. Qed.

Lemma dq_body_raises (self : Agent State Action) (c : DoubleQ State Action rng) :
  dq_body self c = Raise AttributeError.
Proof. reflexivity. Qed.

Lemma dyna_body_raises (self : Agent State Action) (Q : gmap (State * Action) float)
  (s : State) (a : Action) (g : rng) :
  dyna_body self Q s a g = Raise AttributeError.
Proof. reflexivity. Qed.

End WithEnvironment.

(** C8.  td_control, TabularTD0 and NStepTD ask the environment for
    new_state_given_action, which the contract provides.  The loop bodies of
    DoubleQLearning.compute_state_value and TabularDynaQ.compute_state_value
    ask for next_state_given_action, which it does not: on every environment
    built from the contract they raise AttributeError at their first
    statement, and so does a run of DoubleQLearning in the corridor, whose
    first episode starts in the cell 0, which is not terminal. *)
Theorem double_q_and_dyna_q_query_a_missing_method :
  (forall (e : TD.Env Z Z) (s a : Z),
      TD.call_method e "new_state_given_action" s a
      = Ret (TD.new_state_given_action e s a))
  /\ (forall (self : TD.Agent Z Z) (c : TD.DoubleQ Z Z Script.tape),
        TD.dq_body self c = Raise AttributeError)
  /\ (forall (self : TD.Agent Z Z) (Q : gmap (Z * Z) float) (s a : Z) (g : Script.tape),
        TD.dyna_body self Q s a g = Raise AttributeError)
  /\ TD.DoubleQLearning_compute_state_value 10
       (Corridor.agent (Corridor.corridor Corridor.goal_values) 0.5 0.5 1 10) []
     = Raise AttributeError.
Proof.
  split; [reflexivity|]. split; [intros; apply dq_body_raises|].
  split; [intros; apply dyna_body_raises|]. vm_compute. reflexivity.
Qed.

End Successor.

(** ** Bandits: what learning touches, and the performance series *)

Module BanditFacts.
Section WithArms.
Import Bandit Runs.

Context {Name : Type} `{EqDecision Name}.
Context {rng : Type} `{!Random rng} `{!Log}.

(** The ground truth of a frame: every arm with its mean and deviation. *)
Definition truth (df : list (Name * Column)) : list (Name * float * float) :=
  map (fun p => (p.1, mean p.2, sd p.2)) df.

(** The column of an arm with estimate [q] and count [n] after the reward
    [reward], read off [step]. *)
Definition learned (sample_averages : bool) (step_size : float) (c : Column)
  (reward : float) : Column :=
  let n := (action_count c + 1)%float in
  {| mean := mean c; sd := sd c; action_count := n;
     q_estimation :=
       if sample_averages then
         (q_estimation c + (reward - q_estimation c) / n)%float
       else (q_estimation c + step_size * (reward - q_estimation c))%float |}.

Lemma df_alter_names (f : Column -> Column) (df : list (Name * Column)) (action : Name) :
  map fst (df_alter f df action) = map fst df.
Proof.
  induction df as [|[k c] df IH]; [reflexivity|]. cbn [df_alter].
  destruct (decide (k = action)); cbn [map fst]; [reflexivity|]. f_equal. exact IH.
Qed.

Lemma df_get_alter (f : Column -> Column) (df : list (Name * Column)) (action n : Name) :
  df_get (df_alter f df action) n
  = if decide (n = action) then f <$> df_get df action else df_get df n.
Proof.
  induction df as [|[k c] df IH]; cbn [df_alter df_get].
  - destruct (decide (n = action)); reflexivity.
  - destruct (decide (k = action)) as [->|Hk]; cbn [df_get].
    + destruct (decide (action = n)) as [<-|Hn].
      * rewrite decide_True by reflexivity. destruct (bool_decide _); reflexivity.
      * rewrite decide_False by congruence. reflexivity.
    + destruct (decide (k = n)) as [->|Hn].
      * rewrite decide_False by congruence. rewrite df_alter_names. reflexivity.
      * exact IH.
Qed.

Lemma truth_alter (f : Column -> Column) (df : list (Name * Column)) (action : Name) :
  (forall c, mean (f c) = mean c /\ sd (f c) = sd c) ->
  truth (df_alter f df action) = truth df.
Proof.
  intros Hf. induction df as [|[k c] df IH]; [reflexivity|].
  cbn [df_alter]. destruct (decide (k = action)); cbn [truth map fst snd].
  - destruct (Hf c) as [-> ->]. reflexivity.
  - f_equal. exact IH.
Qed.

(** The number of columns of a name. *)
Definition columns_named (df : list (Name * Column)) (action : Name) : nat :=
  length (List.filter (fun p => bool_decide (p.1 = action)) df).

Lemma columns_named_0 (df : list (Name * Column)) (action : Name) :
  columns_named df action = 0%nat <-> action ∉ map fst df.
Proof.
  unfold columns_named. induction df as [|[k c] df IH]; cbn [List.filter map fst].
  - split; [intros _ Hin; inversion Hin|intros _; reflexivity].
  - rewrite not_elem_of_cons. destruct (bool_decide_reflect (k = action)) as [->|Hk];
      cbn [length fst].
    + split; [discriminate|intros [Hne _]; congruence].
    + rewrite IH. split; [intros Hin; split; [congruence|exact Hin]|intros [_ Hin]; exact Hin].
Qed.

(** [df[action][row]] finds a column exactly when one column has the name. *)
Lemma df_get_None (df : list (Name * Column)) (action : Name) :
  df_get df action = None <-> columns_named df action <> 1%nat.
Proof.
  induction df as [|[k c] df IH]; cbn [df_get].
  - split; [intros _; discriminate|intros _; reflexivity].
  - unfold columns_named in *. cbn [List.filter fst].
    destruct (decide (k = action)) as [->|Hk].
    + rewrite (bool_decide_eq_true_2 (action = action)) by reflexivity. cbn [length].
      pose proof (columns_named_0 df action) as H0. unfold columns_named in H0.
      destruct (bool_decide_reflect (action ∈ map fst df)) as [Hin|Hout].
      * split; [intros _ Heq|reflexivity]. apply Nat.succ_inj in Heq.
        apply H0 in Heq. contradiction.
      * apply H0 in Hout. rewrite Hout. split; [discriminate|congruence].
    + rewrite (bool_decide_eq_false_2 (k = action)) by exact Hk. exact IH.
Qed.

Lemma df_get_split (pre post : list (Name * Column)) (action : Name) (c : Column) :
  action ∉ map fst pre -> action ∉ map fst post ->
  df_get (pre ++ (action, c) :: post) action = Some c.
Proof.
  intros Hpre Hpost. induction pre as [|[k c'] pre IH]; cbn [app df_get].
  - rewrite decide_True by reflexivity. rewrite bool_decide_eq_false_2 by exact Hpost.
    reflexivity.
  - cbn [map fst] in Hpre. apply not_elem_of_cons in Hpre as [Hk Hpre].
    rewrite decide_False by congruence. apply IH, Hpre.
Qed.

Lemma df_alter_split (f : Column -> Column) (pre post : list (Name * Column))
  (action : Name) (c : Column) :
  action ∉ map fst pre ->
  df_alter f (pre ++ (action, c) :: post) action = pre ++ (action, f c) :: post.
Proof.
  intros Hpre. induction pre as [|[k c'] pre IH]; cbn [app df_alter].
  - rewrite decide_True by reflexivity. reflexivity.
  - cbn [map fst] in Hpre. apply not_elem_of_cons in Hpre as [Hk Hpre].
    rewrite decide_False by congruence. rewrite IH by exact Hpre. reflexivity.
Qed.

(** What one call of [_step] that returns does to the frame. *)
Lemma step_spec (sample_averages : bool) (step_size : float) (b b' : Bandits Name)
  (action : Name) (g g' : rng) :
  step sample_averages step_size b action g = Ret (b', g') ->
  exists c reward,
    df_get (bandit_df b) action = Some c
    /\ np_random_normal (mean c) (sd c) g = (reward, g')
    /\ df_get (bandit_df b') action = Some (learned sample_averages step_size c reward)
    /\ (forall n, n <> action -> df_get (bandit_df b') n = df_get (bandit_df b) n)
    /\ truth (bandit_df b') = truth (bandit_df b)
    /\ bandit_name b' = bandit_name b
    /\ scale_rejected (sd c) = false.
Proof.
  unfold step. intros Hrun.
  destruct (df_get (bandit_df b) action) as [c|] eqn:Hc; [|discriminate].
  cbn [or_raise mbind run_bind] in Hrun.
  destruct (scale_rejected (sd c)) eqn:Hsd; [discriminate|].
  cbn [mbind run_bind] in Hrun.
  destruct (np_random_normal (mean c) (sd c) g) as [reward g1] eqn:Hreward.
  rewrite df_get_alter, decide_True, Hc in Hrun by reflexivity.
  cbn [fmap option_fmap option_map or_raise mbind run_bind] in Hrun.
  injection Hrun as <- <-. exists c, reward.
  split; [reflexivity|]. split; [exact Hreward|]. cbn [bandit_df set_bandit_df].
  split.
  { rewrite !df_get_alter, !decide_True, Hc by reflexivity. reflexivity. }
  split.
  { intros n Hn. rewrite !df_get_alter, !decide_False by exact Hn. reflexivity. }
  split; [|split; [reflexivity|exact Hsd]].
  rewrite !truth_alter; [reflexivity|intros c'; split; reflexivity..].
Qed.

(** [_step] on an arm that names one column, with the deviation [sd] that
    NumPy accepts: the column is replaced by what was learned. *)
Lemma step_split (sample_averages : bool) (step_size : float) (b : Bandits Name)
  (pre post : list (Name * Column)) (action : Name) (c : Column)
  (g g1 : rng) (reward : float) :
  bandit_df b = pre ++ (action, c) :: post ->
  action ∉ map fst pre -> action ∉ map fst post ->
  scale_rejected (sd c) = false ->
  np_random_normal (mean c) (sd c) g = (reward, g1) ->
  step sample_averages step_size b action g
  = Ret (set_bandit_df b
           (pre ++ (action, learned sample_averages step_size c reward) :: post), g1).
Proof.
  intros Hdf Hpre Hpost Hsd Hdraw. unfold step.
  rewrite Hdf, (df_get_split _ _ _ _ Hpre Hpost). cbn [or_raise mbind run_bind].
  rewrite Hsd. cbn [mbind run_bind]. rewrite Hdraw.
  rewrite (df_alter_split _ _ _ _ _ Hpre), (df_get_split _ _ _ _ Hpre Hpost).
  cbn [or_raise mbind run_bind]. rewrite (df_alter_split _ _ _ _ _ Hpre).
  reflexivity.
Qed.

(** The two ways [_step] fails: no single column of that name, and a
    deviation that NumPy rejects. *)
Lemma step_KeyError (sample_averages : bool) (step_size : float) (b : Bandits Name)
  (action : Name) (g : rng) :
  columns_named (bandit_df b) action <> 1%nat ->
  step sample_averages step_size b action g = Raise KeyError.
Proof.
  intros Hcount. unfold step. apply df_get_None in Hcount. rewrite Hcount. reflexivity.
Qed.

Lemma step_ValueError (sample_averages : bool) (step_size : float) (b : Bandits Name)
  (action : Name) (c : Column) (g : rng) :
  df_get (bandit_df b) action = Some c ->
  scale_rejected (sd c) = true ->
  step sample_averages step_size b action g = Raise ValueError.
Proof.
  intros Hc Hsd. unfold step. rewrite Hc. cbn [or_raise mbind run_bind].
  rewrite Hsd. reflexivity.
Qed.

(** [_step] returns whenever the frame has the arm once, with an accepted
    deviation. *)
Lemma step_returns (sample_averages : bool) (step_size : float) (b : Bandits Name)
  (action : Name) (g : rng) (c : Column) :
  df_get (bandit_df b) action = Some c ->
  scale_rejected (sd c) = false ->
  exists b' g', step sample_averages step_size b action g = Ret (b', g').
Proof.
  intros Hc Hsd. unfold step. rewrite Hc. cbn [or_raise mbind run_bind].
  rewrite Hsd. cbn [mbind run_bind].
  destruct (np_random_normal (mean c) (sd c) g) as [reward g1].
  rewrite df_get_alter, decide_True, Hc by reflexivity.
  cbn [fmap option_fmap option_map or_raise mbind run_bind]. eauto.
Qed.

Lemma record_action_bandit (b : Bandits Name) (g : rng) (s s' : Simulation Name rng)
  (num : nat) (action : Name) :
  record_action b g s num action = Ret s' ->
  sim_bandit s' = b
  /\ (Z.of_nat (length (best_action_percentage s')) - best_action_count s'
      = Z.of_nat (length (best_action_percentage s)) - best_action_count s)%Z.
Proof.
  unfold record_action. intros Hrun. step_run Hrun.
  destruct (bool_decide _); injection Hrun as <-; cbn; [|auto].
  split; [reflexivity|]. rewrite length_app. cbn [length]. lia.
Qed.

(** One pass of the loop of [simulate], for any way of choosing the arm. *)
Definition simulate_pass (act : Bandits Name -> nat -> rng -> run (Name * rng))
  (sample_averages : bool) (step_size : float) (num : nat) (s : Simulation Name rng)
  : run (Simulation Name rng) :=
  '(action, g1) ← act (sim_bandit s) num (sim_gen s);
  '(b1, g2) ← step sample_averages step_size (sim_bandit s) action g1;
  record_action b1 g2 s num action.

Lemma simulate_pass_spec (act : Bandits Name -> nat -> rng -> run (Name * rng))
  (sample_averages : bool) (step_size : float) (num : nat) (s s' : Simulation Name rng) :
  simulate_pass act sample_averages step_size num s = Ret s' ->
  truth (bandit_df (sim_bandit s')) = truth (bandit_df (sim_bandit s))
  /\ (Z.of_nat (length (best_action_percentage s')) - best_action_count s'
      = Z.of_nat (length (best_action_percentage s)) - best_action_count s)%Z.
Proof.
  unfold simulate_pass. intros Hrun. step_run Hrun. destruct a as [action g1].
  step_run Hrun. destruct a as [b1 g2].
  apply record_action_bandit in Hrun as [-> Hlen]. split; [|exact Hlen].
  apply step_spec in E0 as (c & reward & _ & _ & _ & _ & Htruth & _). exact Htruth.
Qed.

Lemma simulate_spec (act : Bandits Name -> nat -> rng -> run (Name * rng))
  (sample_averages : bool) (step_size : float) (b : Bandits Name) (time : nat) (g : rng)
  (s : Simulation Name rng) :
  for_each (seq 0 time) (simulate_pass act sample_averages step_size)
    {| sim_bandit := b; best_action_count := 0; best_action_percentage := [];
       sim_gen := g |} = Ret s ->
  truth (bandit_df (sim_bandit s)) = truth (bandit_df b)
  /\ Z.of_nat (length (best_action_percentage s)) = best_action_count s.
Proof.
  intros Hrun.
  apply (for_each_invariant
           (fun s => truth (bandit_df (sim_bandit s)) = truth (bandit_df b)
                     /\ (Z.of_nat (length (best_action_percentage s))
                         - best_action_count s = 0)%Z)) in Hrun.
  - destruct Hrun as [Ht Hl]. split; [exact Ht|lia].
  - intros num s1 s2 [Ht Hl] Hpass.
    apply simulate_pass_spec in Hpass as [Ht' Hl']. split; congruence.
  - split; reflexivity.
Qed.

Lemma Greedy_simulate_pass (self : Greedy) (b : Bandits Name) (time : nat) (g : rng) :
  Greedy_simulate self b time g
  = for_each (seq 0 time)
      (simulate_pass (fun b _ g => Greedy_act self b g) (sample_averages self)
         (step_size self))
      {| sim_bandit := b; best_action_count := 0; best_action_percentage := [];
         sim_gen := g |}.
Proof. reflexivity. Qed.

Lemma UCB_simulate_pass (self : UCB) (b : Bandits Name) (time : nat) (g : rng) :
  UCB_simulate self b time g
  = for_each (seq 0 time)
      (simulate_pass (UCB_act self) (ucb_sample_averages self) (ucb_step_size self))
      {| sim_bandit := b; best_action_count := 0; best_action_percentage := [];
         sim_gen := g |}.
Proof. reflexivity. Qed.

(** The series of [simulate] has one entry per step on which the best arm
    was chosen, not one per step. *)
Lemma series_counts_best_steps (greedy : Greedy) (ucb : UCB) (b : Bandits Name)
  (time : nat) (g : rng) (s : Simulation Name rng) :
  Greedy_simulate greedy b time g = Ret s \/ UCB_simulate ucb b time g = Ret s ->
  Z.of_nat (length (best_action_percentage s)) = best_action_count s.
Proof.
  intros [Hrun|Hrun];
    [rewrite Greedy_simulate_pass in Hrun|rewrite UCB_simulate_pass in Hrun];
    apply simulate_spec in Hrun as [_ Hlen]; exact Hlen.
Qed.

(** C10.  A call of Greedy._step or UCB._step on an arm either raises
    before anything is written (KeyError unless exactly one column has the
    arm's name, ValueError when np.random.normal rejects the arm's
    deviation), or returns the frame in which the column of that arm, and no
    other, is replaced by one with the same mean and sd, the count raised by
    1 and the estimate moved towards the reward: every other column is in
    its place as it was.  The means and deviations of all arms, in column
    order, are the same after _step and after any run of Greedy.simulate or
    UCB.simulate that returns; _act returns an arm and a generator state and
    no frame. *)
Theorem learning_leaves_the_truth (greedy : Greedy) (ucb : UCB) (b : Bandits Name)
  (action : Name) (g : rng) :
  (columns_named (bandit_df b) action <> 1%nat ->
   Greedy_step greedy b action g = Raise KeyError
   /\ UCB_step ucb b action g = Raise KeyError)
  /\ (forall pre post c,
        bandit_df b = pre ++ (action, c) :: post ->
        action ∉ map fst pre -> action ∉ map fst post ->
        (scale_rejected (sd c) = true ->
         Greedy_step greedy b action g = Raise ValueError
         /\ UCB_step ucb b action g = Raise ValueError)
        /\ (scale_rejected (sd c) = false ->
            exists reward g1,
              np_random_normal (mean c) (sd c) g = (reward, g1)
              /\ Greedy_step greedy b action g
                 = Ret (set_bandit_df b
                          (pre ++ (action, learned (sample_averages greedy)
                                             (step_size greedy) c reward) :: post), g1)
              /\ UCB_step ucb b action g
                 = Ret (set_bandit_df b
                          (pre ++ (action, learned (ucb_sample_averages ucb)
                                             (ucb_step_size ucb) c reward) :: post), g1)
              /\ truth (pre ++ (action, learned (sample_averages greedy)
                                          (step_size greedy) c reward) :: post)
                 = truth (bandit_df b)
              /\ truth (pre ++ (action, learned (ucb_sample_averages ucb)
                                          (ucb_step_size ucb) c reward) :: post)
                 = truth (bandit_df b)))
  /\ (forall time s, Greedy_simulate greedy b time g = Ret s ->
                     truth (bandit_df (sim_bandit s)) = truth (bandit_df b))
  /\ (forall time s, UCB_simulate ucb b time g = Ret s ->
                     truth (bandit_df (sim_bandit s)) = truth (bandit_df b)).
Proof.
  split; [|split; [|split]].
  - intros Hcount. split; apply step_KeyError, Hcount.
  - intros pre post c Hdf Hpre Hpost. split.
    + intros Hsd.
      assert (Hc : df_get (bandit_df b) action = Some c)
        by (rewrite Hdf; apply df_get_split; assumption).
      split; eapply step_ValueError; eassumption.
    + intros Hsd. destruct (np_random_normal (mean c) (sd c) g) as [reward g1] eqn:Hdraw.
      exists reward, g1. split; [reflexivity|].
      split; [apply step_split; assumption|]. split; [apply step_split; assumption|].
      rewrite Hdf. unfold truth. rewrite !map_app. cbn [map fst snd learned mean sd].
      split; reflexivity.
  - intros time s Hrun. rewrite Greedy_simulate_pass in Hrun.
    apply simulate_spec in Hrun as [Ht _]. exact Ht.
  - intros time s Hrun. rewrite UCB_simulate_pass in Hrun.
    apply simulate_spec in Hrun as [Ht _]. exact Ht.
Qed.

End WithArms.

(** Arm A of the fresh two-armed bandit, with the normal draw -1: the
    reward is 0 + 1 * (-1) = -1; the count of A becomes 1 and its estimate
    0 + (-1 - 0) / 1 = -1, arm B and the means and deviations stay. *)
Definition after_A : Bandit.Bandits string :=
  {| Bandit.bandit_name := ["A"; "B"]%string;
     Bandit.initial := 0;
     Bandit.bandit_df :=
       [("A"%string, {| Bandit.mean := 0; Bandit.sd := 1; Bandit.action_count := 1;
                        Bandit.q_estimation := (-1)%float |});
        ("B"%string, TwoArms.fresh 1)] |}.

Lemma learning_leaves_the_truth_witness :
  Bandit.Greedy_step TwoArms.greedy TwoArms.bandit "A"%string [Script.F (-1)]
  = Ret (after_A, [])
  /\ truth (Bandit.bandit_df after_A)
     = [("A"%string, 0%float, 1%float); ("B"%string, 1%float, 1%float)].
Proof.
  destruct (proj1 (proj2 (learning_leaves_the_truth (rng := Script.tape)
                            TwoArms.greedy TwoArms.ucb TwoArms.bandit "A"%string
                            [Script.F (-1)]))
              [] [("B"%string, TwoArms.fresh 1)] (TwoArms.fresh 0) eq_refl)
    as [_ Hok].
  { intros Hin. inversion Hin. }
  { intros Hin. apply list_elem_of_singleton in Hin. discriminate. }
  destruct (Hok eq_refl) as (reward & g1 & Hdraw & Hrun & _ & Htruth & _).
  assert (Hdraw' : np_random_normal (rng := Script.tape) (Bandit.mean (TwoArms.fresh 0))
                     (Bandit.sd (TwoArms.fresh 0)) [Script.F (-1)]
                   = ((-1)%float, [])) by (vm_compute; reflexivity).
  rewrite Hdraw' in Hdraw. injection Hdraw as <- <-.
  split; [|reflexivity]. refine (eq_trans Hrun _). vm_compute. reflexivity.
Defined.

(** C9.  Greedy.simulate(2) on the two-armed bandit, with the draws: 0.5
    (exploit), position 0 of the maximizers A, B (arm A), normal draw -1
    (reward -1); then 0.5 (exploit), position 0 of the only maximizer B,
    normal draw 0 (reward 1).  The best arm, B, is chosen on the second step
    only: the series specified for 2 steps is 0/1, 1/2; the series of the
    code is the single entry 1/2, appended on the step on which B was
    chosen.  UCB.simulate(1), choosing A on its only step, records no entry
    at all. *)
Theorem series_skips_the_steps_off_the_best_arm :
  (exists s,
      Bandit.Greedy_simulate TwoArms.greedy TwoArms.bandit 2
        [Script.F 0.5; Script.I 0; Script.F (-1); Script.F 0.5; Script.I 0; Script.F 0]
      = Ret s
      /\ Bandit.idxmax_mean (Bandit.bandit_df (Bandit.sim_bandit s)) = Ret (Some "B"%string)
      /\ Bandit.best_action_percentage s = [0.5%float]
      /\ length (Bandit.best_action_percentage s) <> 2%nat)
  /\ (exists s,
        Bandit.UCB_simulate TwoArms.ucb TwoArms.bandit 1 [Script.I 0; Script.F (-1)] = Ret s
        /\ Bandit.best_action_percentage s = []
        /\ length (Bandit.best_action_percentage s) <> 1%nat).
Proof.
  split.
  - eexists. split; [vm_compute; reflexivity|].
    split; [vm_compute; reflexivity|]. split; [reflexivity|]. discriminate.
  - eexists. split; [vm_compute; reflexivity|]. split; [reflexivity|]. discriminate.
Qed.

End BanditFacts.

(** ** The action-value table through a run of the control driver *)

Module TableFacts.
Section WithEnvironment.
Import TD Runs.

Context {State Action : Type} `{Countable State} `{Countable Action}.
Context {rng : Type} `{!Random rng} `{!Pow} `{!RLFunctions State Action rng}.

Lemma zero_table_missing (self : Agent State Action) (s : State) (a : Action) :
  s ∉ all_states (env self) \/ a ∉ possible_actions (env self) ->
  zero_table self !! (s, a) = None.
Proof.
  intros Hout. unfold zero_table. apply not_elem_of_list_to_map_1.
  intros Hin. apply list_elem_of_fmap in Hin as ([k v] & Hk & Hin). cbn in Hk. subst k.
  apply list_elem_of_In, in_flat_map in Hin as (s' & Hs' & Hin).
  apply in_map_iff in Hin as (a' & Heq & Ha'). injection Heq as -> -> _.
  destruct Hout as [Hout|Hout]; apply Hout, list_elem_of_In; assumption.
Qed.

(** X1.  get_q_df raises TypeError when all_states is empty (the index
    cannot be built); otherwise it returns a table that has an entry for
    exactly the pairs of a state of all_states and an action of
    possible_actions, and every entry is 0; any other pair is a missing
    label. *)
Theorem get_q_df_entries (self : Agent State Action) (s : State) (a : Action) :
  (all_states (env self) = [] -> get_q_df self = Raise TypeError)
  /\ (all_states (env self) <> [] -> get_q_df self = Ret (zero_table self))
  /\ (s ∈ all_states (env self) /\ a ∈ possible_actions (env self)
      -> get_q_df self = Ret (zero_table self)
         /\ zero_table self !! (s, a) = Some PrimFloat.zero)
  /\ (s ∉ all_states (env self) \/ a ∉ possible_actions (env self)
      -> zero_table self !! (s, a) = None).
Proof.
  assert (Hsome : all_states (env self) <> [] -> get_q_df self = Ret (zero_table self)).
  { unfold get_q_df. destruct (all_states (env self)); [congruence|reflexivity]. }
  split; [|split; [exact Hsome|split]].
  - intros Hnone. unfold get_q_df. rewrite Hnone. reflexivity.
  - intros [Hs Ha]. split; [|apply ControlDriver.zero_table_zero; assumption].
    apply Hsome. intros Hnone. rewrite Hnone in Hs. inversion Hs.
  - apply zero_table_missing.
Qed.

Lemma map_run_q_at_missing (q : gmap (State * Action) float) (s : State)
  (actions : list Action) (x : Action) :
  x ∈ actions -> q !! (s, x) = None ->
  map_run (fun a => q_at q s a) actions = Raise KeyError.
Proof.
  intros Hx Hnone. induction actions as [|a actions IH]; [inversion Hx|].
  cbn [map_run]. unfold q_at in *.
  destruct (q !! (s, a)) as [v|] eqn:Hv; cbn [or_raise mbind run_bind]; [|reflexivity].
  apply elem_of_cons in Hx as [->|Hx]; [congruence|].
  rewrite (IH Hx). reflexivity.
Qed.

Lemma map_run_q_at_present (q : gmap (State * Action) float) (s : State)
  (actions : list Action) :
  (forall x, x ∈ actions -> is_Some (q !! (s, x))) ->
  exists row, map_run (fun a => q_at q s a) actions = Ret row
              /\ length row = length actions.
Proof.
  induction actions as [|a actions IH]; intros Hall.
  - exists []. split; reflexivity.
  - destruct (Hall a) as [v Hv]; [apply list_elem_of_here|].
    destruct IH as (row & Hrow & Hlen).
    { intros x Hx. apply Hall, list_elem_of_further, Hx. }
    exists (v :: row). cbn [map_run]. rewrite (UpdateRules.q_at_Some _ _ _ _ Hv).
    cbn [mbind run_bind]. rewrite Hrow. cbn [length]. auto.
Qed.

(** X2.  The update rules fail exactly on missing labels.  sarsa_formula
    raises KeyError when the table lacks (state, action) or (next_state,
    next_action).  q_learning_formula raises ValueError when there is no
    possible action at all (max of an empty sequence), and otherwise
    KeyError when the row of next_state lacks an action or the table lacks
    (state, action). *)
Theorem update_rules_missing_labels (self : Agent State Action)
  (q : gmap (State * Action) float) (s : State) (a : Action) (r : float)
  (s' : State) (a' : Action) :
  (q !! (s, a) = None \/ q !! (s', a') = None
   -> sarsa_formula self q s a r s' a' = Raise KeyError)
  /\ (possible_actions (env self) = []
      -> q_learning_formula self q s a r s' a' = Raise ValueError)
  /\ (possible_actions (env self) <> []
      -> (exists x, x ∈ possible_actions (env self) /\ q !! (s', x) = None)
         \/ q !! (s, a) = None
      -> q_learning_formula self q s a r s' a' = Raise KeyError).
Proof.
  split; [|split].
  - intros Hmiss. unfold sarsa_formula, q_at.
    destruct (q !! (s, a)) as [old|]; cbn [or_raise mbind run_bind]; [|reflexivity].
    destruct Hmiss as [Hmiss|Hmiss]; [discriminate|]. rewrite Hmiss. reflexivity.
  - intros Hnone. unfold q_learning_formula. rewrite Hnone. reflexivity.
  - intros Hsome Hmiss. unfold q_learning_formula.
    destruct (decide (Forall (fun x => is_Some (q !! (s', x)))
                             (possible_actions (env self)))) as [Hall|Hex].
    + destruct Hmiss as [(x & Hx & Hnone)|Hmiss].
      { rewrite (map_run_q_at_missing _ _ _ x Hx Hnone). reflexivity. }
      destruct (map_run_q_at_present q s' (possible_actions (env self)))
        as (row & Hrow & Hlen).
      { intros x Hx. apply (proj1 (Forall_forall _ _) Hall x Hx). }
      rewrite Hrow. cbn [mbind run_bind].
      destruct row as [|v row].
      { destruct (possible_actions (env self)); [congruence|discriminate]. }
      cbn [Float.py_max mbind run_bind]. unfold q_at. rewrite Hmiss. reflexivity.
    + apply not_Forall_Exists in Hex; [|intros x; apply _].
      apply Exists_exists in Hex as (x & Hx & Hnone).
      rewrite (map_run_q_at_missing _ _ _ x Hx); [reflexivity|].
      unfold compose in Hnone.
      destruct (q !! (s', x)); [exfalso; apply Hnone; eauto|reflexivity].
Qed.

Lemma sarsa_keeps_labels (self : Agent State Action) (q q' : gmap (State * Action) float)
  (s : State) (a : Action) (r : float) (s' : State) (a' : Action) :
  sarsa_formula self q s a r s' a' = Ret q' -> dom q' = dom q.
Proof.
  unfold sarsa_formula, q_at. intros Hrun.
  destruct (q !! (s, a)) as [old|] eqn:Hold; [|discriminate].
  cbn [or_raise mbind run_bind] in Hrun. step_run Hrun. injection Hrun as <-.
  apply dom_insert_lookup_L. eauto.
Qed.

Lemma q_learning_keeps_labels (self : Agent State Action)
  (q q' : gmap (State * Action) float)
  (s : State) (a : Action) (r : float) (s' : State) (a' : Action) :
  q_learning_formula self q s a r s' a' = Ret q' -> dom q' = dom q.
Proof.
  unfold q_learning_formula. intros Hrun. do 2 step_run Hrun.
  unfold q_at in Hrun. destruct (q !! (s, a)) as [old|] eqn:Hold; [|discriminate].
  cbn [or_raise mbind run_bind] in Hrun. injection Hrun as <-.
  apply dom_insert_lookup_L. eauto.
Qed.

Lemma td_control_keeps_dom (fuel : nat) (self : Agent State Action)
  (algo : algorithm State Action) (g g' : rng) (q : gmap (State * Action) float) :
  (forall q s a r s' a' q', algo q s a r s' a' = Ret q' -> dom q' = dom q) ->
  td_control fuel self algo g = Ret (q, g') ->
  dom q = dom (zero_table self).
Proof.
  intros Halgo Hrun. unfold td_control in Hrun.
  step_run Hrun. apply ControlDriver.get_q_df_inv in E as [-> _].
  destruct (random_pairs self g) as [pairs g1].
  destruct (greedy_pairs pairs g1) as [pairs' g2].
  step_run Hrun. destruct a as [[q' p] g3]. injection Hrun as -> _.
  apply (for_each_invariant (fun acc => dom acc.1.1 = dom (zero_table self))) in E;
    [exact E| |reflexivity].
  intros _ [[q1 p1] g4] [[q2 p2] g5] Hq Hep. cbn [fst] in *.
  unfold td_control_epoch in Hep.
  step_run Hep. destruct a as [s g6]. do 2 step_run Hep. injection Hep as <- _ _.
  apply (Loops.while_invariant _ _
           (fun c => dom (q_values_df c) = dom (zero_table self))) in E2 as [Hc _];
    [exact Hc| |exact Hq].
  intros c c' Hc _ Hb.
  apply ControlDriver.td_control_body_inv in Hb as (_ & _ & r & Hr).
  rewrite (Halgo _ _ _ _ _ _ _ Hr). exact Hc.
Qed.

(** X3.  The control driver never adds or drops a label of the table: when
    td_control returns, with the SARSA or the Q-learning rule, the table has
    an entry for (s, a) exactly when s is in all_states and a in
    possible_actions, as the fresh table has. *)
Theorem td_control_keeps_labels (fuel : nat) (self : Agent State Action)
  (algo : algorithm State Action) (g g' : rng) (q : gmap (State * Action) float) :
  algo = sarsa_formula self \/ algo = q_learning_formula self ->
  td_control fuel self algo g = Ret (q, g') ->
  forall s a,
    is_Some (q !! (s, a))
    <-> s ∈ all_states (env self) /\ a ∈ possible_actions (env self).
Proof.
  intros Halgo Hrun s a.
  assert (Hdom : dom q = dom (zero_table self)).
  { eapply td_control_keeps_dom; [|exact Hrun].
    destruct Halgo as [-> | ->]; intros ? ? ? ? ? ? ?;
      [apply sarsa_keeps_labels|apply q_learning_keeps_labels]. }
  rewrite <- elem_of_dom, Hdom, elem_of_dom. split.
  - intros Hsome.
    destruct (decide (s ∈ all_states (env self))) as [Hs|Hs];
      [destruct (decide (a ∈ possible_actions (env self))) as [Ha|Ha]|]; [auto|..].
    + rewrite zero_table_missing in Hsome by auto. destruct Hsome; discriminate.
    + rewrite zero_table_missing in Hsome by auto. destruct Hsome; discriminate.
  - intros [Hs Ha]. rewrite (ControlDriver.zero_table_zero self s a Hs Ha). eauto.
Qed.

(** *** The dict of the action planned for each state *)

Lemma dict_get_None (d : list (State * Action)) (k : State) :
  dict_get d k = None <-> k ∉ d.*1.
Proof.
  induction d as [|[k' v] d IH]; cbn [dict_get fmap list_fmap fst].
  - split; [intros _ Hin; inversion Hin|reflexivity].
  - rewrite not_elem_of_cons. destruct (decide (k' = k)) as [->|Hne].
    + split; [discriminate|intros [Hk _]; congruence].
    + rewrite IH. split; [intros Hk; split; [congruence|exact Hk]|intros [_ Hk]; exact Hk].
Qed.

Lemma dict_set_keys (d : list (State * Action)) (k : State) (v : Action) (x : State) :
  x ∈ (dict_set d k v).*1 <-> x = k \/ x ∈ d.*1.
Proof.
  induction d as [|[k' v'] d IH]; cbn [dict_set fmap list_fmap fst].
  - rewrite list_elem_of_singleton. split; [auto|intros [Hx|Hx]; [exact Hx|inversion Hx]].
  - destruct (decide (k' = k)) as [->|Hne]; cbn [fmap list_fmap fst];
      rewrite !elem_of_cons; [tauto|]. rewrite IH. tauto.
Qed.

Lemma random_pairs_keys (self : Agent State Action) (g : rng) (x : State) :
  x ∈ (random_pairs self g).1.*1 <-> x ∈ all_states (env self).
Proof.
  unfold random_pairs.
  assert (Hgen : forall l d g0,
    x ∈ (fold_left
           (fun '(d, g) state =>
              let '(a, g') := get_random_action None g in (dict_set d state a, g'))
           l (d, g0)).1.*1 <-> x ∈ d.*1 \/ x ∈ l).
  { induction l as [|s l IH]; intros d g0; cbn [fold_left].
    - split; [auto|intros [Hx|Hx]; [exact Hx|inversion Hx]].
    - destruct (get_random_action None g0) as [a g1]. rewrite IH, dict_set_keys, elem_of_cons.
      tauto. }
  rewrite Hgen. split; [intros [Hx|Hx]; [inversion Hx|exact Hx]|auto].
Qed.

Lemma greedy_pairs_keys (d : list (State * Action)) (g : rng) :
  (greedy_pairs d g).1.*1 = d.*1.
Proof.
  revert g. induction d as [|[x y] d IH]; intros g; cbn [greedy_pairs]; [reflexivity|].
  destruct (epsilon_greedy y g) as [y' g1]. specialize (IH g1).
  destruct (greedy_pairs d g1) as [d' g2]. cbn [fst fmap list_fmap] in *.
  rewrite IH. reflexivity.
Qed.

(** X4.  With a starting state outside all_states and at least one epoch,
    td_control raises before any step is taken, with any update rule: when
    all_states is empty get_q_df raises TypeError; otherwise the starting
    state is not a key of the dict of planned actions and the first epoch
    raises KeyError. *)
Theorem td_control_start_outside_all_states (fuel : nat) (self : Agent State Action)
  (algo : algorithm State Action) (g : rng) (s : State) :
  starting_state self = Some s ->
  s ∉ all_states (env self) ->
  num_of_epochs self <> 0%nat ->
  (all_states (env self) = [] -> td_control fuel self algo g = Raise TypeError)
  /\ (all_states (env self) <> [] -> td_control fuel self algo g = Raise KeyError).
Proof.
  intros Hstart Hout Hepochs. unfold td_control. split.
  - intros Hnone. unfold get_q_df. rewrite Hnone. reflexivity.
  - intros Hsome. unfold get_q_df.
    destruct (all_states (env self)) as [|s1 states] eqn:Hstates; [congruence|].
    cbn [mbind run_bind].
    pose proof (random_pairs_keys self g s) as Hkeys. rewrite Hstates in Hkeys.
    destruct (random_pairs self g) as [pairs g1].
    pose proof (greedy_pairs_keys pairs g1) as Hsame.
    destruct (greedy_pairs pairs g1) as [pairs' g2]. cbn [fst] in *.
    destruct (num_of_epochs self) as [|n]; [congruence|].
    cbn [seq for_each]. unfold td_control_epoch, first_state. rewrite Hstart.
    cbn [mbind run_bind].
    assert (Hnone : dict_get pairs' s = None).
    { apply dict_get_None. rewrite Hsame, Hkeys. exact Hout. }
    rewrite Hnone. reflexivity.
Qed.

Lemma for_each_fixed {X S : Type} (xs : list X) (body : X -> S -> run S) (s : S) :
  (forall x, body x s = Ret s) -> for_each xs body s = Ret s.
Proof.
  intros Hb. induction xs as [|x xs IH]; cbn [for_each]; [reflexivity|].
  rewrite Hb. exact IH.
Qed.

(** X5.  From a terminal starting state, or with a step budget num_episodes
    of 0 or less, no epoch of td_control takes a step: whatever the update
    rule, the number of epochs and the fuel, the run returns the freshly
    initialised table. *)
Theorem td_control_without_steps (fuel : nat) (self : Agent State Action)
  (algo : algorithm State Action) (g : rng) (s : State) :
  starting_state self = Some s ->
  s ∈ all_states (env self) ->
  is_terminal_state (env self) s = true \/ (num_episodes self <= 0)%Z ->
  exists g', td_control fuel self algo g = Ret (zero_table self, g').
Proof.
  intros Hstart Hin Hstop. unfold td_control.
  assert (Hq : get_q_df self = Ret (zero_table self)).
  { unfold get_q_df. destruct (all_states (env self)); [inversion Hin|reflexivity]. }
  rewrite Hq. cbn [mbind run_bind].
  pose proof (random_pairs_keys self g s) as Hkeys.
  destruct (random_pairs self g) as [pairs g1].
  pose proof (greedy_pairs_keys pairs g1) as Hsame.
  destruct (greedy_pairs pairs g1) as [pairs' g2]. cbn [fst] in *.
  exists g2. rewrite for_each_fixed; [reflexivity|].
  intros _. unfold td_control_epoch, first_state. rewrite Hstart.
  cbn [mbind run_bind].
  destruct (dict_get pairs' s) as [a|] eqn:Ha.
  2:{ apply dict_get_None in Ha. rewrite Hsame, Hkeys in Ha. contradiction. }
  cbn [or_raise mbind run_bind]. rewrite Loops.while_unfold.
  unfold td_control_cond at 1. cbn [state num_of_steps].
  replace (negb (is_terminal_state (env self) s) && (0 <? num_episodes self)%Z)
    with false; [reflexivity|].
  symmetry. apply andb_false_iff.
  destruct Hstop as [Ht|Hb]; [left; rewrite Ht; reflexivity|right; apply Z.ltb_ge, Hb].
Qed.

End WithEnvironment.

(** Two epochs of SARSA in the corridor: the returned table has the entry of
    a cell and a move, and none for the cell 7. *)
Lemma td_control_keeps_labels_witness :
  exists q g',
    TD.td_control 10
      (Corridor.agent (Corridor.corridor Corridor.goal_values) 0.5 0.5 2 10)
      (TD.sarsa_formula
         (Corridor.agent (Corridor.corridor Corridor.goal_values) 0.5 0.5 2 10))
      [] = Ret (q, g')
    /\ q !! (0%Z, 1%Z) = Some 0.5%float
    /\ (is_Some (q !! (7%Z, 1%Z))
        <-> 7%Z ∈ [0%Z; 1%Z; 2%Z] /\ 1%Z ∈ [(-1)%Z; 1%Z]).
Proof.
  eexists. eexists. split; [vm_compute; reflexivity|]. split; [vm_compute; reflexivity|].
  eapply (td_control_keeps_labels 10
           (Corridor.agent (Corridor.corridor Corridor.goal_values) 0.5 0.5 2 10)
           _ [] _ _ (or_introl eq_refl)).
  vm_compute. reflexivity.
Defined.

(** The corridor agent told to start in a cell the corridor does not have. *)
Definition stray (epochs : nat) : TD.Agent Z Z :=
  {| TD.env := Corridor.corridor Corridor.goal_values;
     TD.alpha := 0.5; TD.gamma := 0.5; TD.epsilon := 0;
     TD.reward := (-1)%float; TD.step_cost := (-1)%float;
     TD.starting_state := Some 7%Z; TD.num_of_epochs := epochs;
     TD.num_episodes := 10; TD.n_step := 1 |}.

Lemma td_control_start_outside_all_states_witness :
  TD.starting_state (stray 1) = Some 7%Z
  /\ TD.td_control 10 (stray 1) (TD.q_learning_formula (stray 1)) [] = Raise KeyError.
Proof.
  split; [reflexivity|].
  apply (td_control_start_outside_all_states 10 (stray 1) _ [] 7%Z eq_refl).
  - intros Hin. repeat (apply elem_of_cons in Hin as [Hin|Hin]; [discriminate|]).
    inversion Hin.
  - discriminate.
  - discriminate.
Defined.

(** A budget of 0 steps: three epochs of Q-learning in the corridor leave the
    fresh table. *)
Lemma td_control_without_steps_witness :
  exists g',
    TD.td_control 0
      (Corridor.agent (Corridor.corridor Corridor.goal_values) 0.5 0.5 3 0)
      (TD.q_learning_formula
         (Corridor.agent (Corridor.corridor Corridor.goal_values) 0.5 0.5 3 0))
      [] = Ret (TD.zero_table
                  (Corridor.agent (Corridor.corridor Corridor.goal_values) 0.5 0.5 3 0),
                g').
Proof.
  apply (td_control_without_steps 0
           (Corridor.agent (Corridor.corridor Corridor.goal_values) 0.5 0.5 3 0)
           _ [] 0%Z eq_refl).
  - vm_compute. set_solver.
  - right. vm_compute. discriminate.
Defined.

End TableFacts.

(** ** Episodes of the prediction loops *)

Module Episodes.
Section WithEnvironment.
Import TD Runs.

Context {State Action : Type} `{Countable State} `{Countable Action}.
Context {rng : Type} `{!Random rng} `{!Pow} `{!RLFunctions State Action rng}.

(** X6.  TabularTD0 does not test its starting state: the first pass of an
    epoch always runs.  When the state it leads to is terminal the epoch is
    that one pass: it stores v + alpha * (reward + gamma * vn - v) at the
    starting state, terminal or not, logs one transition and consumes one
    draw. *)
Theorem td0_one_step_episode (fuel : nat) (self : Agent State Action)
  (e : Env State Action) (g g1 : rng) (log : list (transition State Action))
  (s0 : State) (a : Action) (v vn : float) :
  starting_state self = Some s0 ->
  get_random_action None g = (a, g1) ->
  grid e !! s0 = Some v ->
  grid e !! new_state_given_action e s0 a = Some vn ->
  is_terminal_state e (new_state_given_action e s0 a) = true ->
  td0_epoch (S fuel) self (e, g, log)
  = Ret (set_grid e (<[s0 := Prediction.td0_value self v vn]> (grid e)), g1,
         log ++ [(s0, a, new_state_given_action e s0 a)]).
Proof.
  intros Hstart Hact Hv Hvn Hterm. unfold td0_epoch. rewrite Hstart.
  cbn [or_raise mbind run_bind].
  rewrite Loops.while_unfold. cbn [td0_cond td0_done negb].
  rewrite (Prediction.td0_body_run self _ a g1 v vn);
    [|reflexivity|exact Hact|exact Hv|exact Hvn].
  rewrite Loops.while_unfold. unfold Prediction.td0_next.
  cbn [td0_cond td0_done td0_env td0_state td0_gen td0_log]. rewrite Hterm.
  reflexivity.
Qed.

Lemma py_range_empty (lo hi : Z) : (hi <= lo)%Z -> py_range lo hi = [].
Proof.
  intros Hle. unfold py_range. replace (Z.to_nat (hi - lo)) with 0%nat by lia.
  reflexivity.
Qed.

Lemma py_index_zero {A : Type} (x : A) : py_index [x] 0 = Ret x.
Proof. reflexivity. Qed.

Lemma py_index_beyond {A : Type} (l : list A) (i : Z) :
  (Z.of_nat (length l) <= i)%Z -> py_index l i = Raise IndexError.
Proof.
  intros Hi. unfold py_index.
  destruct (i <? 0)%Z eqn:Hneg; [apply Z.ltb_lt in Hneg; lia|]. rewrite Hneg.
  rewrite lookup_ge_None_2 by lia. reflexivity.
Qed.

(** X7.  NStepTD does test its starting state.  From a terminal starting
    state an epoch is one pass, whatever n_step is: it draws one action,
    reads the grid at the successor, logs the transition and stores
    nothing. *)
Theorem nstep_terminal_start (fuel : nat) (self : Agent State Action)
  (e : Env State Action) (g g1 : rng) (log : list (transition State Action))
  (s0 : State) (a : Action) :
  starting_state self = Some s0 ->
  is_terminal_state e s0 = true ->
  get_random_action None g = (a, g1) ->
  is_Some (grid e !! new_state_given_action e s0 a) ->
  ns_epoch (S fuel) self (e, g, log)
  = Ret (e, g1, log ++ [(s0, a, new_state_given_action e s0 a)]).
Proof.
  intros Hstart Hterm Hact [vn Hvn]. unfold ns_epoch. rewrite Hstart.
  cbn [or_raise mbind run_bind].
  rewrite Loops.while_unfold. cbn [ns_cond ns_done negb].
  unfold ns_body, ns_observe.
  cbn [ns_t ns_T ns_env ns_state ns_states ns_rewards ns_next_state ns_done ns_gen
       ns_log].
  change (0 <? 100000)%Z with true. cbn iota.
  rewrite Hact, ControlDriver.call_new_state. cbn [mbind run_bind].
  unfold grid_at at 1. rewrite Hvn. cbn [or_raise mbind run_bind]. rewrite Hterm.
  cbn [ns_t ns_T ns_env ns_state ns_states ns_rewards ns_next_state ns_done ns_gen
       ns_log or_raise mbind run_bind app].
  assert (Hup : forall c : NStep State Action rng,
             ns_env c = e -> ns_state c = s0 -> ns_T c = 1%Z ->
             ns_rewards c = [(vn + step_cost self)%float] ->
             ns_update self c (0 - n_step self + 1) = Ret e).
  { intros c He Hs HT Hr. unfold ns_update.
    destruct (0 <=? 0 - n_step self + 1)%Z eqn:Hpos; [|rewrite He; reflexivity].
    apply Z.leb_le in Hpos. unfold ns_return. rewrite HT, Hr, He, Hs, Hterm.
    replace (0 - n_step self + 1 + n_step self)%Z with 1%Z by lia.
    cbn [Z.min Z.compare Pos.compare Pos.compare_cont Z.ltb].
    destruct (decide (n_step self = 1%Z)) as [Hn|Hn].
    - rewrite Hn. cbn. reflexivity.
    - rewrite py_range_empty by lia. cbn. reflexivity. }
  rewrite Hup by reflexivity. cbn [mbind run_bind].
  rewrite Loops.while_unfold. unfold ns_cond at 1. cbn [ns_done ns_t ns_T].
  destruct (0 - n_step self + 1 =? 0 + 1 - 1)%Z; reflexivity.
Qed.

(** X8.  With n_step = 0 the delayed update of the first pass already looks
    one state ahead of what the episode has recorded: from a starting state
    that is not terminal and has a grid entry, as its successor has, the
    epoch raises IndexError at states[r], whatever the fuel. *)
Theorem nstep_zero_steps_raises (fuel : nat) (self : Agent State Action)
  (e : Env State Action) (g g1 : rng) (log : list (transition State Action))
  (s0 : State) (a : Action) :
  n_step self = 0%Z ->
  starting_state self = Some s0 ->
  is_terminal_state e s0 = false ->
  get_random_action None g = (a, g1) ->
  is_Some (grid e !! s0) ->
  is_Some (grid e !! new_state_given_action e s0 a) ->
  ns_epoch (S fuel) self (e, g, log) = Raise IndexError.
Proof.
  intros Hn Hstart Hterm Hact [v Hv] [vn Hvn]. unfold ns_epoch. rewrite Hstart.
  cbn [or_raise mbind run_bind].
  rewrite Loops.while_unfold. cbn [ns_cond ns_done negb].
  unfold ns_body, ns_observe.
  cbn [ns_t ns_T ns_env ns_state ns_states ns_rewards ns_next_state ns_done ns_gen
       ns_log].
  change (0 <? 100000)%Z with true. cbn iota.
  rewrite Hact, ControlDriver.call_new_state. cbn [mbind run_bind].
  unfold grid_at at 1. rewrite Hvn. cbn [or_raise mbind run_bind]. rewrite Hterm.
  cbn [ns_t ns_T ns_env ns_state ns_states ns_rewards ns_next_state ns_done ns_gen
       ns_log or_raise mbind run_bind app].
  rewrite Hn. unfold ns_update, ns_return.
  cbn [ns_t ns_T ns_env ns_state ns_states ns_rewards ns_next_state ns_done ns_gen
       ns_log].
  rewrite Hn. change (0 <=? 0 - 0 + 1)%Z with true. cbn iota.
  change (py_range (0 - 0 + 1) (Z.min (0 - 0 + 1 + 0) 100000)) with (@nil Z).
  cbn [map_run mbind run_bind]. change (0 - 0 + 1 + 0 <? 100000)%Z with true. cbn iota.
  change (0 - 0 + 1 + 0 - 1)%Z with 0%Z. rewrite py_index_zero. cbn [mbind run_bind].
  unfold grid_at. rewrite Hv, Hterm. cbn [or_raise mbind run_bind negb].
  rewrite py_index_beyond by (cbn; lia). reflexivity.
Qed.

(** X20.  A state without a grid entry is a KeyError in the first pass.
    TabularTD0 reads the grid at the starting state and at its successor;
    NStepTD, for any n_step, reads it at the successor when it computes the
    reward. *)
Theorem prediction_missing_grid_entry (fuel : nat) (self : Agent State Action)
  (e : Env State Action) (g g1 : rng) (log : list (transition State Action))
  (s0 : State) (a : Action) :
  starting_state self = Some s0 ->
  get_random_action None g = (a, g1) ->
  (grid e !! s0 = None \/ grid e !! new_state_given_action e s0 a = None
   -> td0_epoch (S fuel) self (e, g, log) = Raise KeyError)
  /\ (grid e !! new_state_given_action e s0 a = None
      -> ns_epoch (S fuel) self (e, g, log) = Raise KeyError).
Proof.
  intros Hstart Hact. split.
  - intros Hmiss. unfold td0_epoch. rewrite Hstart. cbn [or_raise mbind run_bind].
    rewrite Loops.while_unfold. cbn [td0_cond td0_done negb].
    unfold td0_body. cbn [td0_env td0_state td0_done td0_gen td0_log].
    rewrite Hact, ControlDriver.call_new_state. cbn [mbind run_bind]. unfold grid_at.
    destruct (grid e !! s0) as [v|]; cbn [or_raise mbind run_bind]; [|reflexivity].
    destruct Hmiss as [Hmiss|Hmiss]; [discriminate|]. rewrite Hmiss. reflexivity.
  - intros Hmiss. unfold ns_epoch. rewrite Hstart. cbn [or_raise mbind run_bind].
    rewrite Loops.while_unfold. cbn [ns_cond ns_done negb].
    unfold ns_body, ns_observe.
    cbn [ns_t ns_T ns_env ns_state ns_states ns_rewards ns_next_state ns_done ns_gen
         ns_log].
    change (0 <? 100000)%Z with true. cbn iota.
    rewrite Hact, ControlDriver.call_new_state. cbn [mbind run_bind].
    unfold grid_at. rewrite Hmiss. reflexivity.
Qed.

(** *** One pass of the n-step loop, for any n_step *)

Lemma py_index_elem {A : Type} (l : list A) (i : Z) (x : A) :
  py_index l i = Ret x -> x ∈ l.
Proof.
  unfold py_index. intros Hrun.
  destruct (_ <? 0)%Z in Hrun; [discriminate|].
  destruct (l !! _) as [y|] eqn:Hy in Hrun; [|discriminate].
  injection Hrun as <-. eapply list_elem_of_lookup_2, Hy.
Qed.

Lemma py_index_fuel {A : Type} (l : list A) (i : Z) : py_index l i <> OutOfFuel.
Proof.
  unfold py_index. destruct (_ <? 0)%Z; [discriminate|]. apply or_raise_fuel.
Qed.

(** What [ns_observe] leaves of the loop variables. *)
Record observed (c c1 : NStep State Action rng) : Prop := {
  ob_env : ns_env c1 = ns_env c;
  ob_t : ns_t c1 = ns_t c;
  ob_state : ns_state c1 = ns_state c;
  ob_T : ns_done c1 = false -> ns_T c1 = ns_T c;
  ob_log : (ns_log c1 = ns_log c /\ ns_states c1 = ns_states c)
           \/ exists a s',
                ns_log c1 = ns_log c ++ [(ns_state c, a, s')]
                /\ ns_states c1 = ns_states c ++ [ns_state c];
}.

Lemma ns_observe_inv (self : Agent State Action) (c c1 : NStep State Action rng) :
  ns_observe self c = Ret c1 -> observed c c1.
Proof.
  unfold ns_observe. intros Hrun.
  destruct (ns_t c <? ns_T c)%Z.
  2:{ injection Hrun as <-. split; auto. }
  destruct (get_random_action None (ns_gen c)) as [a g1].
  rewrite ControlDriver.call_new_state in Hrun. cbn [mbind run_bind] in Hrun.
  step_run Hrun. injection Hrun as <-.
  split; cbn [ns_env ns_t ns_state ns_T ns_done ns_log ns_states]; try reflexivity.
  - destruct (is_terminal_state (ns_env c) (ns_state c)); [discriminate|reflexivity].
  - right. eauto.
Qed.

Lemma ns_observe_fuel (self : Agent State Action) (c : NStep State Action rng) :
  ns_observe self c <> OutOfFuel.
Proof.
  unfold ns_observe. destruct (ns_t c <? ns_T c)%Z; [|discriminate].
  destruct (get_random_action None (ns_gen c)) as [a g1].
  rewrite ControlDriver.call_new_state. cbn [mbind run_bind].
  apply bind_fuel; [apply or_raise_fuel|]. discriminate.
Qed.

Lemma ns_update_inv (self : Agent State Action) (c : NStep State Action rng)
  (r : Z) (e : Env State Action) :
  ns_update self c r = Ret e ->
  e = ns_env c
  \/ exists s w,
       s ∈ ns_states c /\ is_Some (grid (ns_env c) !! s)
       /\ e = set_grid (ns_env c) (<[s := w]> (grid (ns_env c))).
Proof.
  unfold ns_update. intros Hrun.
  destruct (0 <=? r)%Z; [|injection Hrun as <-; auto].
  step_run Hrun.
  destruct (negb (is_terminal_state (ns_env c) (ns_state c)));
    [|injection Hrun as <-; auto].
  step_run Hrun. unfold grid_at in Hrun.
  destruct (grid (ns_env c) !! a0) as [v|] eqn:Hv; [|discriminate].
  cbn [or_raise mbind run_bind] in Hrun. injection Hrun as <-.
  right. exists a0, (v + alpha self * (a - v))%float.
  split; [eapply py_index_elem; eassumption|]. split; [eauto|reflexivity].
Qed.

Lemma py_pow_fuel (x : float) (k : Z) : py_pow x k <> OutOfFuel.
Proof.
  unfold py_pow. destruct (_ || _); [discriminate|].
  destruct (_ || _); [discriminate|].
  destruct (PrimFloat.is_zero x); [destruct (k <? 0)%Z; discriminate|].
  destruct (PrimFloat.is_infinity _); discriminate.
Qed.

Lemma ns_update_fuel (self : Agent State Action) (c : NStep State Action rng) (r : Z) :
  ns_update self c r <> OutOfFuel.
Proof.
  unfold ns_update. destruct (0 <=? r)%Z; [|discriminate].
  apply bind_fuel.
  { unfold ns_return. apply bind_fuel.
    - apply map_run_fuel. intros x. apply bind_fuel; [apply py_index_fuel|].
      intros rx _. apply bind_fuel; [apply py_pow_fuel|]. discriminate.
    - intros terms _. destruct (_ <? _)%Z; [|discriminate].
      apply bind_fuel; [apply py_pow_fuel|]. intros p _.
      apply bind_fuel; [apply py_index_fuel|]. intros s _.
      apply bind_fuel; [apply or_raise_fuel|]. discriminate. }
  intros G _. destruct (negb _); [|discriminate].
  apply bind_fuel; [apply py_index_fuel|]. intros s _.
  apply bind_fuel; [apply or_raise_fuel|]. discriminate.
Qed.

Lemma ns_body_fuel (self : Agent State Action) (c : NStep State Action rng) :
  ns_body self c <> OutOfFuel.
Proof.
  unfold ns_body. apply bind_fuel; [apply ns_observe_fuel|]. intros c1 _.
  apply bind_fuel; [apply ns_update_fuel|]. intros e _.
  apply bind_fuel; [apply or_raise_fuel|]. discriminate.
Qed.

(** What one pass of [ns_body] does to the clock, the log and the grid. *)
Record pass (self : Agent State Action) (c c' : NStep State Action rng) : Prop := {
  pass_t : ns_t c' = (ns_t c + 1)%Z;
  pass_open : ns_done c' = false ->
              ns_T c' = ns_T c /\ (ns_t c - n_step self + 1)%Z <> (ns_T c - 1)%Z;
  pass_log : (ns_log c' = ns_log c /\ ns_states c' = ns_states c)
             \/ exists a s',
                  ns_log c' = ns_log c ++ [(ns_state c, a, s')]
                  /\ ns_states c' = ns_states c ++ [ns_state c];
  pass_env : ns_env c' = ns_env c
             \/ exists s w,
                  s ∈ ns_states c' /\ is_Some (grid (ns_env c) !! s)
                  /\ ns_env c' = set_grid (ns_env c) (<[s := w]> (grid (ns_env c)));
}.

Lemma ns_body_inv (self : Agent State Action) (c c' : NStep State Action rng) :
  ns_body self c = Ret c' -> pass self c c'.
Proof.
  unfold ns_body. intros Hrun. step_run Hrun.
  apply ns_observe_inv in E as [He Ht Hs HT Hlog].
  step_run Hrun. apply ns_update_inv in E as Hup. step_run Hrun.
  injection Hrun as <-.
  split; cbn [ns_env ns_t ns_state ns_T ns_done ns_log ns_states].
  - rewrite Ht. reflexivity.
  - rewrite Ht. destruct (_ =? _)%Z eqn:Hlast; [discriminate|].
    intros Hopen. rewrite (HT Hopen) in *. split; [reflexivity|].
    apply Z.eqb_neq, Hlast.
  - exact Hlog.
  - rewrite He in Hup. exact Hup.
Qed.

(** A loop whose measure decreases while an invariant holds. *)
Lemma while_measure {St : Type} (cond : St -> bool) (body : St -> run St)
  (I : St -> Prop) (mu : St -> nat) :
  (forall s, body s <> OutOfFuel) ->
  (forall s, I s -> cond s = true -> (0 < mu s)%nat) ->
  (forall s s', I s -> cond s = true -> body s = Ret s' -> cond s' = true ->
                I s' /\ (mu s' < mu s)%nat) ->
  forall fuel s, I s -> (mu s <= fuel)%nat -> while fuel cond body s <> OutOfFuel.
Proof.
  intros Hbody Hpos Hdec fuel. induction fuel as [|fuel IH]; intros s Hs Hmu;
    rewrite Loops.while_unfold; destruct (cond s) eqn:Hc; try discriminate.
  - specialize (Hpos s Hs Hc). lia.
  - destruct (body s) as [s'| |] eqn:Hb; [|discriminate|destruct (Hbody s Hb)].
    destruct (cond s') eqn:Hc'.
    + destruct (Hdec s s' Hs Hc Hb Hc') as [Hs' Hlt]. apply IH; [exact Hs'|lia].
    + rewrite Loops.while_unfold, Hc'. discriminate.
Qed.

Lemma ns_epoch_fuel (fuel : nat) (self : Agent State Action)
  (acc : Env State Action * rng * list (transition State Action)) :
  (1 <= n_step self)%Z ->
  (Z.to_nat (100000 + n_step self - 1) <= fuel)%nat ->
  ns_epoch fuel self acc <> OutOfFuel.
Proof.
  intros Hn Hfuel. destruct acc as [[e g] log]. unfold ns_epoch.
  apply bind_fuel; [apply or_raise_fuel|]. intros s0 _.
  apply bind_fuel; [|discriminate].
  apply (while_measure _ _
           (fun c => ns_T c = 100000%Z
                     /\ (0 <= ns_t c <= ns_T c + n_step self - 2)%Z)
           (fun c => Z.to_nat (ns_T c + n_step self - 1 - ns_t c))).
  - apply ns_body_fuel.
  - intros c [HT Ht] _. lia.
  - intros c c' [HT Ht] _ Hb Hc'. unfold ns_cond in Hc'. apply negb_true_iff in Hc'.
    apply ns_body_inv in Hb as [Hclock Hopen _ _].
    destruct (Hopen Hc') as [HT' Hr]. lia.
  - cbn [ns_T ns_t]. lia.
  - cbn [ns_T ns_t]. lia.
Qed.

(** X9.  The n-step loop has a ceiling of its own, the constant T = 100000:
    for n_step >= 1 an episode ends, with a result or an exception, within
    100000 + n_step - 1 passes, in any environment, also one where no
    terminal state is ever reached.  So does the whole run of
    NStepTD.compute_state_value. *)
Theorem nstep_episode_ceiling (fuel : nat) (self : Agent State Action) (g : rng) :
  (1 <= n_step self)%Z ->
  (Z.to_nat (100000 + n_step self - 1) <= fuel)%nat ->
  (forall acc, ns_epoch fuel self acc <> OutOfFuel)
  /\ NStepTD_compute_state_value fuel self g <> OutOfFuel.
Proof.
  intros Hn Hfuel. split.
  - intros acc. apply ns_epoch_fuel; assumption.
  - unfold NStepTD_compute_state_value. apply for_each_fuel.
    intros _ acc. apply ns_epoch_fuel; assumption.
Qed.

(** X10.  With n_step = 1, an episode from a starting state that is not
    terminal into a terminal one is two passes: the first stores
    v + alpha * (G - v) at the starting state, where G is the reward
    vn + step_cost times gamma ** 0 plus gamma ** 1 times v; the second, over
    the terminal state, draws one more action, reads the grid at one more
    successor and stores nothing. *)
Theorem nstep_1_one_step_episode (fuel : nat) (self : Agent State Action)
  (e : Env State Action) (g g1 g2 : rng) (log : list (transition State Action))
  (s0 : State) (a a2 : Action) (v vn : float) :
  let s1 := new_state_given_action e s0 a in
  let s2 := new_state_given_action e s1 a2 in
  n_step self = 1%Z ->
  starting_state self = Some s0 ->
  is_terminal_state e s0 = false ->
  is_terminal_state e s1 = true ->
  get_random_action None g = (a, g1) ->
  get_random_action None g1 = (a2, g2) ->
  grid e !! s0 = Some v ->
  grid e !! s1 = Some vn ->
  is_Some (grid e !! s2) ->
  ns_epoch (S (S fuel)) self (e, g, log)
  = Ret (set_grid e (<[s0 := NStepVsTD0.ns_stored self v vn]> (grid e)), g2,
         log ++ [(s0, a, s1); (s1, a2, s2)]).
Proof.
  intros s1 s2 Hn Hstart Hlive Hterm Hact Hact2 Hv Hvn [v2 Hv2].
  unfold ns_epoch. rewrite Hstart. cbn [or_raise mbind run_bind].
  rewrite Loops.while_unfold. unfold ns_cond at 1. cbn [ns_done negb].
  rewrite (NStepVsTD0.ns_body_step self _ a g1 v vn Hn);
    [|split; cbn; [reflexivity..|lia]|cbn; lia|exact Hlive|exact Hact|exact Hv|exact Hvn].
  rewrite Loops.while_unfold. unfold ns_cond at 1, NStepVsTD0.ns_next at 1.
  cbn [ns_done negb].
  assert (Hv2' : exists w,
             (<[s0 := NStepVsTD0.ns_stored self v vn]> (grid e)) !! s2 = Some w).
  { destruct (decide (s0 = s2)) as [Heq|Hne].
    - rewrite <- Heq, lookup_insert_eq. eauto.
    - rewrite lookup_insert_ne by exact Hne. eauto. }
  destruct Hv2' as [w Hw].
  rewrite (NStepVsTD0.ns_body_last self _ a2 g2 w Hn);
    [|split; cbn; [reflexivity..|lia]|exact Hterm|exact Hact2|exact Hw].
  rewrite Loops.while_unfold. unfold NStepVsTD0.ns_last, NStepVsTD0.ns_next.
  cbn [ns_cond ns_done negb ns_env ns_gen ns_log ns_state new_state_given_action
       set_grid mbind run_bind].
  rewrite <- app_assoc. reflexivity.
Qed.

(** *** What a run leaves of the environment *)

(** [e'] answers as [e] does for everything but the values of the grid, and
    its grid has the keys of the grid of [e]. *)
Record same_contract (e e' : Env State Action) : Prop := {
  sc_actions : possible_actions e' = possible_actions e;
  sc_states : all_states e' = all_states e;
  sc_available : available_states e' = available_states e;
  sc_initial : initial_state e' = initial_state e;
  sc_terminal : is_terminal_state e' = is_terminal_state e;
  sc_move : new_state_given_action e' = new_state_given_action e;
  sc_keys : dom (grid e') = dom (grid e);
}.

(** ... and the values too, at every state the log does not pass through. *)
Definition untouched (e e' : Env State Action)
  (log : list (transition State Action)) : Prop :=
  same_contract e e'
  /\ forall s, s ∉ NStepVsTD0.visited log -> grid e' !! s = grid e !! s.

Lemma untouched_refl (e : Env State Action) (log : list (transition State Action)) :
  untouched e e log.
Proof. split; [split; reflexivity|reflexivity]. Qed.

Lemma untouched_grow (e e' : Env State Action)
  (log log' : list (transition State Action)) :
  untouched e e' log ->
  (forall s, s ∈ NStepVsTD0.visited log -> s ∈ NStepVsTD0.visited log') ->
  untouched e e' log'.
Proof. intros [Hc Hv] Hsub. split; [exact Hc|]. intros s Hs. apply Hv. auto. Qed.

Lemma untouched_write (e e' : Env State Action)
  (log : list (transition State Action)) (s : State) (w : float) :
  untouched e e' log ->
  is_Some (grid e' !! s) ->
  s ∈ NStepVsTD0.visited log ->
  untouched e (set_grid e' (<[s := w]> (grid e'))) log.
Proof.
  intros [[? ? ? ? ? ? Hk] Hv] Hs Hin. split; [split; cbn; try assumption|].
  - rewrite dom_insert_lookup_L by exact Hs. exact Hk.
  - intros k Hk'. cbn. rewrite lookup_insert_ne; [apply Hv, Hk'|].
    intros ->. contradiction.
Qed.

Lemma visited_snoc (log : list (transition State Action))
  (x : transition State Action) (s : State) :
  s ∈ NStepVsTD0.visited (log ++ [x]) <-> s ∈ NStepVsTD0.visited log \/ s = x.1.1.
Proof.
  rewrite NStepVsTD0.visited_app, elem_of_app, list_elem_of_singleton. reflexivity.
Qed.

Lemma td0_epoch_untouched (fuel : nat) (self : Agent State Action)
  (e0 e e' : Env State Action) (g g' : rng)
  (log log' : list (transition State Action)) :
  untouched e0 e log ->
  td0_epoch fuel self (e, g, log) = Ret (e', g', log') ->
  untouched e0 e' log'.
Proof.
  intros Hu Hrun. unfold td0_epoch in Hrun. do 2 step_run Hrun.
  injection Hrun as <- _ <-.
  apply (Loops.while_invariant _ _
           (fun d => untouched e0 (td0_env d) (td0_log d))) in E0 as [Hd _];
    [exact Hd| |exact Hu].
  intros d d' Hd Hc Hb. unfold td0_cond in Hc. apply negb_true_iff in Hc.
  apply (Prediction.td0_body_inv _ _ _ Hc) in Hb as (x & g1 & v & vn & _ & Hv & _ & ->).
  unfold Prediction.td0_next. cbn [td0_env td0_log].
  apply untouched_write; [|eauto|apply visited_snoc; right; reflexivity].
  eapply untouched_grow; [exact Hd|]. intros s Hs. apply visited_snoc. auto.
Qed.

Lemma ns_epoch_untouched (fuel : nat) (self : Agent State Action)
  (e0 e e' : Env State Action) (g g' : rng)
  (log log' : list (transition State Action)) :
  untouched e0 e log ->
  ns_epoch fuel self (e, g, log) = Ret (e', g', log') ->
  untouched e0 e' log'.
Proof.
  intros Hu Hrun. unfold ns_epoch in Hrun. do 2 step_run Hrun.
  injection Hrun as <- _ <-.
  apply (Loops.while_invariant _ _
           (fun c => untouched e0 (ns_env c) (ns_log c)
                     /\ forall s, s ∈ ns_states c -> s ∈ NStepVsTD0.visited (ns_log c)))
    in E0 as [[Hc _] _]; [exact Hc| |].
  - intros c c' [Hc Hst] _ Hb.
    apply ns_body_inv in Hb as [_ _ Hlog Henv].
    assert (Hgrow : forall s, s ∈ NStepVsTD0.visited (ns_log c)
                              -> s ∈ NStepVsTD0.visited (ns_log c')).
    { destruct Hlog as [[-> _]|(x & s' & -> & _)]; [auto|].
      intros s Hs. apply visited_snoc. auto. }
    assert (Hst' : forall s, s ∈ ns_states c' -> s ∈ NStepVsTD0.visited (ns_log c')).
    { destruct Hlog as [[-> ->]|(x & s' & -> & ->)]; [exact Hst|].
      intros s Hs. apply visited_snoc. apply elem_of_app in Hs as [Hs|Hs]; [auto|].
      apply list_elem_of_singleton in Hs. auto. }
    split; [|exact Hst'].
    destruct Henv as [->|(s & w & Hs & Hsome & ->)].
    + eapply untouched_grow; eauto.
    + destruct Hc as [Hcon Hval].
      apply untouched_write; [eapply untouched_grow; [split|]; eauto|exact Hsome|auto].
  - split; [exact Hu|]. intros s Hs. inversion Hs.
Qed.

(** X11.  TabularTD0.compute_state_value changes nothing of the environment
    but values of the grid at states the run passed through: when it
    returns, every other attribute answers as before, the grid has the keys
    it had, and the entry of a state that no logged transition starts from
    is unchanged. *)
Theorem td0_run_frame (fuel : nat) (self : Agent State Action) (g g' : rng)
  (e' : Env State Action) (log : list (transition State Action)) :
  TabularTD0_compute_state_value fuel self g = Ret (e', g', log) ->
  same_contract (env self) e'
  /\ forall s, s ∉ NStepVsTD0.visited log -> grid e' !! s = grid (env self) !! s.
Proof.
  unfold TabularTD0_compute_state_value. intros Hrun.
  apply (for_each_invariant (fun acc => untouched (env self) acc.1.1 acc.2)) in Hrun;
    [exact Hrun| |apply untouched_refl].
  intros _ [[e1 g1] log1] [[e2 g2] log2] Hu Hep. eapply td0_epoch_untouched; eauto.
Qed.

(** X12.  NStepTD.compute_state_value, for any n_step, changes nothing of the
    environment but values of the grid at states the run passed through:
    the delayed update writes only at states the episode has recorded. *)
Theorem nstep_run_frame (fuel : nat) (self : Agent State Action) (g g' : rng)
  (e' : Env State Action) (log : list (transition State Action)) :
  NStepTD_compute_state_value fuel self g = Ret (e', g', log) ->
  same_contract (env self) e'
  /\ forall s, s ∉ NStepVsTD0.visited log -> grid e' !! s = grid (env self) !! s.
Proof.
  unfold NStepTD_compute_state_value. intros Hrun.
  apply (for_each_invariant (fun acc => untouched (env self) acc.1.1 acc.2)) in Hrun;
    [exact Hrun| |apply untouched_refl].
  intros _ [[e1 g1] log1] [[e2 g2] log2] Hu Hep. eapply ns_epoch_untouched; eauto.
Qed.

End WithEnvironment.

(** The corridor agent started in the cell [s0], with [n] steps of
    look-ahead and one epoch. *)
Definition from_cell (s0 n : Z) : TD.Agent Z Z :=
  {| TD.env := Corridor.corridor Corridor.goal_values;
     TD.alpha := 0.5; TD.gamma := 0.5; TD.epsilon := 0;
     TD.reward := (-1)%float; TD.step_cost := (-1)%float;
     TD.starting_state := Some s0; TD.num_of_epochs := 1;
     TD.num_episodes := 10; TD.n_step := n |}.

(** The corridor with no entry for the cell 1, where the walk from cell 0
    goes first. *)
Definition gap : TD.Env Z Z :=
  Corridor.corridor [(0%Z, 0%float); (2%Z, 10%float)].

Lemma prediction_missing_grid_entry_witness :
  TD.grid gap !! 1%Z = None
  /\ TD.td0_epoch 5 (from_cell 0 1) (gap, ([] : Script.tape), []) = Raise KeyError
  /\ TD.ns_epoch 5 (from_cell 0 2) (gap, ([] : Script.tape), []) = Raise KeyError.
Proof.
  split; [vm_compute; reflexivity|]. split.
  - refine (proj1 (prediction_missing_grid_entry 4 (from_cell 0 1) gap [] [] [] 0%Z 1%Z
                     _ _) _); [reflexivity..|].
    right. vm_compute. reflexivity.
  - refine (proj2 (prediction_missing_grid_entry 4 (from_cell 0 2) gap [] [] [] 0%Z 1%Z
                     _ _) _); [reflexivity..|].
    vm_compute. reflexivity.
Defined.

(** TD(0) started in the terminal cell 2 overwrites the 10 of that cell. *)
Lemma td0_one_step_episode_witness :
  TD.is_terminal_state (Corridor.corridor Corridor.goal_values) 2%Z = true
  /\ exists e',
      TD.td0_epoch 1 (from_cell 2 1)
        (Corridor.corridor Corridor.goal_values, ([] : Script.tape), []) 
      = Ret (e', [], [(2%Z, 1%Z, 2%Z)])
      /\ TD.grid e' !! 2%Z = Some 7%float.
Proof.
  split; [reflexivity|]. eexists. split.
  - apply (td0_one_step_episode 0 (from_cell 2 1)
             (Corridor.corridor Corridor.goal_values) [] [] [] 2%Z 1%Z 10%float 10%float);
      reflexivity.
  - vm_compute. reflexivity.
Defined.

(** The n-step loop started there, here with n_step = 3, stores nothing. *)
Lemma nstep_terminal_start_witness :
  TD.is_terminal_state (Corridor.corridor Corridor.goal_values) 2%Z = true
  /\ TD.ns_epoch 1 (from_cell 2 3)
       (Corridor.corridor Corridor.goal_values, ([] : Script.tape), [])
     = Ret (Corridor.corridor Corridor.goal_values, [], [(2%Z, 1%Z, 2%Z)]).
Proof.
  split; [reflexivity|].
  apply (nstep_terminal_start 0 (from_cell 2 3)
           (Corridor.corridor Corridor.goal_values) [] [] [] 2%Z 1%Z);
    [reflexivity..|]. eexists. vm_compute. reflexivity.
Defined.

Lemma nstep_zero_steps_raises_witness :
  TD.n_step (from_cell 0 0) = 0%Z
  /\ TD.ns_epoch 5 (from_cell 0 0)
       (Corridor.corridor Corridor.goal_values, ([] : Script.tape), [])
     = Raise IndexError.
Proof.
  split; [reflexivity|].
  apply (nstep_zero_steps_raises 4 (from_cell 0 0)
           (Corridor.corridor Corridor.goal_values) [] [] [] 0%Z 1%Z);
    [reflexivity..| |]; eexists; vm_compute; reflexivity.
Defined.

(** In the pit, where TD(0) never leaves its first episode, the n-step run
    ends within 100000 passes. *)
Lemma nstep_episode_ceiling_witness :
  (1 <= TD.n_step (Corridor.agent Corridor.pit 0.5 0.5 1 10))%Z
  /\ TD.NStepTD_compute_state_value (Z.to_nat 100000)
       (Corridor.agent Corridor.pit 0.5 0.5 1 10) ([] : Script.tape)
     <> OutOfFuel.
Proof.
  split; [unfold Corridor.agent; cbn [TD.n_step]; lia|].
  apply (nstep_episode_ceiling (Z.to_nat 100000)
           (Corridor.agent Corridor.pit 0.5 0.5 1 10) []);
    unfold Corridor.agent; cbn [TD.n_step]; lia.
Defined.

(** From cell 1 into the terminal cell 2: the -1 of cell 1 becomes 3.75. *)
Lemma nstep_1_one_step_episode_witness :
  exists e',
    TD.ns_epoch 2 (from_cell 1 1)
      (Corridor.corridor Corridor.goal_values, ([] : Script.tape), [])
    = Ret (e', [], [(1%Z, 1%Z, 2%Z); (2%Z, 1%Z, 2%Z)])
    /\ TD.grid e' !! 1%Z = Some 3.75%float.
Proof.
  eexists. split.
  - apply (nstep_1_one_step_episode 0 (from_cell 1 1)
             (Corridor.corridor Corridor.goal_values) [] [] [] [] 1%Z 1%Z 1%Z
             (-1)%float 10%float); [reflexivity..|].
    eexists. vm_compute. reflexivity.
  - vm_compute. reflexivity.
Defined.

(** A walk of TD(0) from cell 0 to the goal: the 10 of the goal is kept. *)
Lemma td0_run_frame_witness :
  exists e' g' log,
    TD.TabularTD0_compute_state_value 10
      (Corridor.agent (Corridor.corridor Corridor.goal_values) 0.5 0.5 1 10)
      ([] : Script.tape) = Ret (e', g', log)
    /\ TD.grid e' !! 0%Z = Some (-0.75)%float
    /\ TD.grid e' !! 2%Z = Some 10%float.
Proof.
  eexists. eexists. eexists. split; [vm_compute; reflexivity|].
  split; [vm_compute; reflexivity|].
  refine (eq_trans (proj2 (td0_run_frame 10
            (Corridor.agent (Corridor.corridor Corridor.goal_values) 0.5 0.5 1 10)
            [] _ _ _ _) 2%Z _) _).
  - vm_compute. reflexivity.
  - intros Hin. repeat (apply elem_of_cons in Hin as [Hin|Hin]; [discriminate|]).
    inversion Hin.
  - vm_compute. reflexivity.
Defined.

(** A walk of the n-step loop with n_step = 2 from cell 1 to the goal: the
    0 of cell 0 is kept. *)
Lemma nstep_run_frame_witness :
  exists e' g' log,
    TD.NStepTD_compute_state_value 10 (from_cell 1 2) ([] : Script.tape)
    = Ret (e', g', log)
    /\ TD.grid e' !! 0%Z = Some 0%float.
Proof.
  eexists. eexists. eexists. split; [vm_compute; reflexivity|].
  refine (eq_trans (proj2 (nstep_run_frame 10 (from_cell 1 2) [] _ _ _ _) 0%Z _) _).
  - vm_compute. reflexivity.
  - intros Hin. repeat (apply elem_of_cons in Hin as [Hin|Hin]; [discriminate|]).
    inversion Hin.
  - vm_compute. reflexivity.
Defined.

End Episodes.

(** ** Double Q-learning *)

Module DoubleQFacts.
Section WithEnvironment.
Import TD Runs.

Context {State Action : Type} `{Countable State} `{Countable Action}.
Context {rng : Type} `{!Random rng} `{!Pow} `{!RLFunctions State Action rng}.

(** X13.  The update of one table of double Q-learning, as written in both
    branches of the coin: the bootstrapped action is the first maximizer of
    the row of the current state (not of the next state) in the table being
    updated, its value is read from the other table at the next state, and
    the one entry (state, action) of the updated table becomes
    old + alpha * ((reward + gamma * qb) - old). *)
Theorem dq_update_spec (self : Agent State Action)
  (Qa Qb : gmap (State * Action) float) (state : State) (action : Action)
  (reward : float) (next_state : State) (row : list float) (old : float) :
  q_loc self Qa state = Ret row ->
  row <> [] ->
  (forall x, x ∈ row -> PrimFloat.is_nan x = false) ->
  (forall a, a ∈ possible_actions (env self) -> is_Some (Qb !! (next_state, a))) ->
  Qa !! (state, action) = Some old ->
  exists i best qb,
    possible_actions (env self) !! i = Some best
    /\ FloatOrder.first_maximum row i
    /\ Qb !! (next_state, best) = Some qb
    /\ dq_update self Qa Qb state action reward next_state
       = Ret (<[(state, action) :=
                 (old + alpha self * (reward + gamma self * qb - old))%float]> Qa).
Proof.
  intros Hrow Hne Hnan Hb Hold.
  destruct (FloatOrder.series_argmax_spec row Hne Hnan) as (i & Hi & Hmax).
  assert (Hlt : (i < length (possible_actions (env self)))%nat).
  { rewrite <- (Selection.q_loc_length _ _ _ _ Hrow).
    destruct Hmax as (M & HM & _). eapply lookup_lt_Some, HM. }
  destruct (lookup_lt_is_Some_2 _ _ Hlt) as [best Hbest].
  destruct (Hb best) as [qb Hqb]; [eapply list_elem_of_lookup_2, Hbest|].
  exists i, best, qb. split; [exact Hbest|]. split; [exact Hmax|]. split; [exact Hqb|].
  unfold dq_update. rewrite Hrow. cbn [mbind run_bind]. rewrite Hi.
  cbn [mbind run_bind]. rewrite Hbest. cbn [or_raise mbind run_bind].
  rewrite (UpdateRules.q_at_Some _ _ _ _ Hqb). cbn [mbind run_bind].
  rewrite (UpdateRules.q_at_Some _ _ _ _ Hold). reflexivity.
Qed.

Lemma dq_update_frame (self : Agent State Action)
  (Qa Qb Q' : gmap (State * Action) float) (s : State) (a : Action) (r : float)
  (s' : State) :
  dq_update self Qa Qb s a r s' = Ret Q' ->
  forall k, k <> (s, a) -> Q' !! k = Qa !! k.
Proof.
  unfold dq_update. intros Hrun k Hk. do 5 step_run Hrun. injection Hrun as <-.
  apply lookup_insert_ne. congruence.
Qed.

(** X14.  One pass of the loop body of DoubleQLearning, on an environment
    that answers the successor query: after the next action is selected on
    the average of the two tables and the reward is read from the grid, the
    coin np.random.randint(2) decides which one table is updated, Q2 when it
    is 0 and Q1 otherwise, from the other.  The other table is left as it
    is, the updated one changes at most at the entry (state, action), and
    the step counter grows by one. *)
Theorem dq_step_updates_one_table (self : Agent State Action)
  (successor : State -> Action -> run State) (c c' : DoubleQ State Action rng) :
  dq_step self successor c = Ret c' ->
  exists next_state next_action g1 reward coin g2,
    successor (dq_state c) (dq_action c) = Ret next_state
    /\ select_action self next_state (q_average (dq_Q1 c) (dq_Q2 c)) (dq_gen c)
       = Ret (next_action, g1)
    /\ grid (env self) !! next_state = Some reward
    /\ np_random_randint 2 g1 = (coin, g2)
    /\ dq_state c' = next_state /\ dq_action c' = next_action /\ dq_gen c' = g2
    /\ dq_num_of_steps c' = (dq_num_of_steps c + 1)%Z
    /\ (coin = 0%Z ->
        dq_Q1 c' = dq_Q1 c
        /\ dq_update self (dq_Q2 c) (dq_Q1 c) (dq_state c) (dq_action c) reward next_state
           = Ret (dq_Q2 c'))
    /\ (coin <> 0%Z ->
        dq_Q2 c' = dq_Q2 c
        /\ dq_update self (dq_Q1 c) (dq_Q2 c) (dq_state c) (dq_action c) reward next_state
           = Ret (dq_Q1 c'))
    /\ forall k, k <> (dq_state c, dq_action c) ->
                 dq_Q1 c' !! k = dq_Q1 c !! k /\ dq_Q2 c' !! k = dq_Q2 c !! k.
Proof.
  unfold dq_step. intros Hrun. step_run Hrun. rename a into next_state.
  step_run Hrun. destruct a as [next_action g1]. unfold grid_at in Hrun.
  destruct (grid (env self) !! next_state) as [reward|] eqn:Hreward; [|discriminate].
  cbn [or_raise mbind run_bind] in Hrun.
  destruct (np_random_randint 2 g1) as [coin g2] eqn:Hcoin.
  exists next_state, next_action, g1, reward, coin, g2.
  do 4 (split; [first [reflexivity|assumption]|]).
  destruct (coin =? 0)%Z eqn:Hzero.
  - apply Z.eqb_eq in Hzero.
    destruct (dq_update self (dq_Q2 c) (dq_Q1 c) (dq_state c) (dq_action c) reward
                next_state) as [Q'| |] eqn:Hup; cbn [mbind run_bind] in Hrun;
      try discriminate.
    injection Hrun as <-. cbn [dq_state dq_action dq_gen dq_num_of_steps dq_Q1 dq_Q2].
    do 4 (split; [reflexivity|]). split; [intros _; split; reflexivity|].
    split; [intros Hne; contradiction|].
    intros k Hk. split; [reflexivity|]. eapply dq_update_frame; eassumption.
  - apply Z.eqb_neq in Hzero.
    destruct (dq_update self (dq_Q1 c) (dq_Q2 c) (dq_state c) (dq_action c) reward
                next_state) as [Q'| |] eqn:Hup; cbn [mbind run_bind] in Hrun;
      try discriminate.
    injection Hrun as <-. cbn [dq_state dq_action dq_gen dq_num_of_steps dq_Q1 dq_Q2].
    do 4 (split; [reflexivity|]). split; [intros Heq; contradiction|].
    split; [intros _; split; reflexivity|].
    intros k Hk. split; [|reflexivity]. eapply dq_update_frame; eassumption.
Qed.

End WithEnvironment.

(** Two tables over the corridor: the row of cell 0 in the first has its
    maximum at the move 1, and the second holds 4 for the move 1 in
    cell 1. *)
Definition first_table : gmap (Z * Z) float :=
  list_to_map [((0%Z, (-1)%Z), 1%float); ((0%Z, 1%Z), 2%float);
               ((1%Z, (-1)%Z), 0%float); ((1%Z, 1%Z), 0%float)].

Definition second_table : gmap (Z * Z) float :=
  list_to_map [((0%Z, (-1)%Z), 0%float); ((0%Z, 1%Z), 0%float);
               ((1%Z, (-1)%Z), 8%float); ((1%Z, 1%Z), 4%float)].

Lemma dq_update_spec_witness :
  exists i best qb,
    [(-1)%Z; 1%Z] !! i = Some best
    /\ FloatOrder.first_maximum [1%float; 2%float] i
    /\ second_table !! (1%Z, best) = Some qb
    /\ TD.dq_update (Corridor.agent (Corridor.corridor Corridor.goal_values) 0.5 0.5 1 10)
         first_table second_table 0%Z (-1)%Z 1%float 1%Z
       = Ret (<[(0%Z, (-1)%Z) := (1 + 0.5 * (1 + 0.5 * qb - 1))%float]> first_table).
Proof.
  apply (dq_update_spec
           (Corridor.agent (Corridor.corridor Corridor.goal_values) 0.5 0.5 1 10)
           first_table second_table 0%Z (-1)%Z 1%float 1%Z [1%float; 2%float] 1%float).
  - vm_compute. reflexivity.
  - discriminate.
  - intros x Hx. repeat (apply elem_of_cons in Hx as [->|Hx]; [reflexivity|]).
    inversion Hx.
  - intros a Ha. repeat (apply elem_of_cons in Ha as [->|Ha]; [vm_compute; eauto|]).
    inversion Ha.
  - vm_compute. reflexivity.
Defined.

(** A pass from cell 0 with the move 1, in a corridor that answers the
    successor query: the next action is -1, the coin is 0, and the second
    table is updated at (0, 1) while the first stays. *)
Definition step_from_0 : TD.DoubleQ Z Z Script.tape :=
  {| TD.dq_Q1 := first_table; TD.dq_Q2 := second_table; TD.dq_state := 0%Z;
     TD.dq_action := 1%Z; TD.dq_num_of_steps := 0%Z;
     TD.dq_gen := [Script.F 0.5; Script.I 0] |}.

Lemma dq_step_updates_one_table_witness :
  exists c',
    TD.dq_step (Corridor.agent (Corridor.corridor Corridor.goal_values) 0.5 0.5 1 10)
      (fun s a => Ret (Corridor.move s a)) step_from_0 = Ret c'
    /\ TD.dq_Q1 c' = first_table
    /\ TD.dq_Q2 c' !! (0%Z, 1%Z) = Some (-0.5)%float
    /\ TD.dq_num_of_steps c' = 1%Z.
Proof.
  set (self := Corridor.agent (Corridor.corridor Corridor.goal_values) 0.5 0.5 1 10).
  destruct (TD.dq_step self (fun s a => Ret (Corridor.move s a)) step_from_0)
    as [c'| |] eqn:Hrun; [|vm_compute in Hrun; discriminate..].
  exists c'. split; [reflexivity|].
  destruct (dq_step_updates_one_table self _ _ _ Hrun)
    as (s' & a' & g1 & r & coin & g2 & Hs' & Ha' & Hr & Hcoin & _ & _ & _ & Hn & Hzero & _).
  injection Hs' as <-.
  assert (Hsel : Ret (a', g1) = Ret ((-1)%Z, [Script.I 0]))
    by (rewrite <- Ha'; vm_compute; reflexivity).
  injection Hsel as -> ->.
  assert (Hc : (coin, g2) = (0%Z, ([] : Script.tape)))
    by (rewrite <- Hcoin; reflexivity).
  injection Hc as -> ->.
  destruct (Hzero eq_refl) as [HQ1 HQ2].
  split; [exact HQ1|]. split; [|exact Hn].
  assert (Hr' : r = (-1)%float) by (vm_compute in Hr; congruence). subst r.
  assert (Hup : Ret (TD.dq_Q2 c')
                = Ret (<[(0%Z, 1%Z) := (-0.5)%float]> second_table))
    by (rewrite <- HQ2; vm_compute; reflexivity).
  injection Hup as ->. apply lookup_insert_eq.
Defined.

End DoubleQFacts.

(** ** The bandit frame through initialisation, simulation and reset *)

Module BanditRuns.
Section WithArms.
Import Bandit Runs.

Context {Name : Type} `{EqDecision Name}.
Context {rng : Type} `{!Random rng} `{!Log}.

(** The entry at position [i] of a list given as a row of the frame: the
    one entry of a one-entry list, whatever the position. *)
Definition row_at (l : list float) (i : nat) : option float :=
  match l with
  | [x] => Some x
  | _ => l !! i
  end.

Lemma df_row_fits (l : list float) (n : nat) :
  length l = n \/ length l = 1%nat ->
  exists l', df_row l n = Ret l' /\ length l' = n
             /\ forall i, (i < n)%nat -> l' !! i = row_at l i.
Proof.
  intros Hlen. unfold df_row, row_at.
  destruct l as [|x [|y l]].
  - destruct Hlen as [<-|Hlen]; [|discriminate]. exists []. cbn. auto.
  - exists (replicate n x). split; [reflexivity|]. split; [apply length_replicate|].
    intros i Hi. apply lookup_replicate_2, Hi.
  - destruct Hlen as [<-|Hlen]; [|discriminate]. rewrite Nat.eqb_refl.
    exists (x :: y :: l). auto.
Qed.

Lemma df_row_misfit (l : list float) (n : nat) :
  length l <> n -> length l <> 1%nat -> df_row l n = Raise ValueError.
Proof.
  intros Hn H1. unfold df_row. destruct l as [|x [|y l]]; [|cbn in H1; congruence|];
    (destruct (_ =? n)%nat eqn:Heq; [apply Nat.eqb_eq in Heq; congruence|reflexivity]).
Qed.

(** X15.  Bandits.__init__ takes the means and the deviations as lists with
    one entry per arm name or with one entry in all, which pandas repeats
    for every arm; a list of any other length raises ValueError.  When both
    lists fit, the frame has one column per name, in the order of the names,
    holding that arm's mean and deviation, the count 0 and the estimate
    0 + initial. *)
Theorem Bandits_init_frame (names : list Name) (q_mean q_sd : list float)
  (init : float) :
  ((length q_mean <> length names /\ length q_mean <> 1%nat)
   \/ (length q_sd <> length names /\ length q_sd <> 1%nat)
   -> Bandits_init names q_mean q_sd init = Raise ValueError)
  /\ ((length q_mean = length names \/ length q_mean = 1%nat)
      /\ (length q_sd = length names \/ length q_sd = 1%nat)
      -> exists b,
          Bandits_init names q_mean q_sd init = Ret b
          /\ bandit_name b = names
          /\ initial b = init
          /\ map fst (bandit_df b) = names
          /\ forall i n,
              names !! i = Some n ->
              exists m s,
                row_at q_mean i = Some m /\ row_at q_sd i = Some s
                /\ bandit_df b !! i
                   = Some (n, {| mean := m; sd := s; action_count := 0;
                                 q_estimation := (0 + init)%float |})).
Proof.
  unfold Bandits_init. split.
  - intros Hlen.
    destruct (decide (length q_mean = length names \/ length q_mean = 1%nat))
      as [Hm|Hm].
    + destruct (df_row_fits _ _ Hm) as (means & -> & _). cbn [mbind run_bind].
      destruct Hlen as [[? ?]|[Hs Hs1]]; [lia|].
      rewrite (df_row_misfit _ _ Hs Hs1). reflexivity.
    + rewrite (df_row_misfit q_mean) by (intros Heq; apply Hm; auto). reflexivity.
  - intros [Hm Hs].
    destruct (df_row_fits _ _ Hm) as (means & -> & Hlm & Hmeans).
    destruct (df_row_fits _ _ Hs) as (sds & -> & Hls & Hsds).
    cbn [mbind run_bind]. eexists. split; [reflexivity|].
    cbn [bandit_name initial bandit_df].
    split; [reflexivity|]. split; [reflexivity|]. split.
    + apply fst_zip. rewrite length_zip_with. lia.
    + intros i n Hn. pose proof (lookup_lt_Some _ _ _ Hn) as Hi.
      destruct (lookup_lt_is_Some_2 means i) as [m Hmi]; [lia|].
      destruct (lookup_lt_is_Some_2 sds i) as [s Hsi]; [lia|].
      exists m, s. rewrite <- Hmeans, <- Hsds by exact Hi.
      split; [exact Hmi|]. split; [exact Hsi|].
      rewrite !lookup_zip_with, Hn, Hmi, Hsi. reflexivity.
Qed.

(** The columns of a frame as [__init__] leaves them. *)
Definition fresh_frame (init : float) (df : list (Name * Column)) : Prop :=
  Forall (fun p => action_count p.2 = 0%float /\ q_estimation p.2 = (0 + init)%float) df.

Lemma Bandits_init_fresh (names : list Name) (q_mean q_sd : list float)
  (init : float) (b : Bandits Name) :
  Bandits_init names q_mean q_sd init = Ret b ->
  initial b = init /\ fresh_frame init (bandit_df b).
Proof.
  unfold Bandits_init. intros Hrun. do 2 step_run Hrun. injection Hrun as <-.
  split; [reflexivity|]. cbn [bandit_df]. clear.
  revert a a0. induction names as [|n names IH]; intros [|m ms] [|s ss];
    cbn; try constructor; [cbn; auto|apply IH].
Qed.

(** [_step] touches neither the names nor the initial estimate. *)
Lemma step_header (sample_averages : bool) (step_size : float) (b b' : Bandits Name)
  (action : Name) (g g' : rng) :
  step sample_averages step_size b action g = Ret (b', g') ->
  bandit_name b' = bandit_name b /\ initial b' = initial b
  /\ map fst (bandit_df b') = map fst (bandit_df b).
Proof.
  unfold step. intros Hrun. step_run Hrun.
  destruct (np_random_normal (mean a) (sd a) g) as [reward g1].
  step_run Hrun. step_run Hrun. injection Hrun as <- _.
  cbn [set_bandit_df bandit_name initial bandit_df].
  rewrite !BanditFacts.df_alter_names. auto.
Qed.

(** Through a whole [simulate]: names, initial estimate and ground truth. *)
Lemma simulate_header (act : Bandits Name -> nat -> rng -> run (Name * rng))
  (sample_averages : bool) (step_size : float) (xs : list nat)
  (s s' : Simulation Name rng) :
  for_each xs (BanditFacts.simulate_pass act sample_averages step_size) s = Ret s' ->
  bandit_name (sim_bandit s') = bandit_name (sim_bandit s)
  /\ initial (sim_bandit s') = initial (sim_bandit s)
  /\ map fst (bandit_df (sim_bandit s')) = map fst (bandit_df (sim_bandit s))
  /\ BanditFacts.truth (bandit_df (sim_bandit s'))
     = BanditFacts.truth (bandit_df (sim_bandit s)).
Proof.
  intros Hrun.
  apply (for_each_invariant
           (fun s1 => bandit_name (sim_bandit s1) = bandit_name (sim_bandit s)
                      /\ initial (sim_bandit s1) = initial (sim_bandit s)
                      /\ map fst (bandit_df (sim_bandit s1))
                         = map fst (bandit_df (sim_bandit s))
                      /\ BanditFacts.truth (bandit_df (sim_bandit s1))
                         = BanditFacts.truth (bandit_df (sim_bandit s)))) in Hrun;
    [exact Hrun| |auto].
  intros num s1 s2 (Hn & Hi & Hc & Ht) Hpass.
  pose proof (BanditFacts.simulate_pass_spec _ _ _ _ _ _ Hpass) as [Ht' _].
  unfold BanditFacts.simulate_pass in Hpass. step_run Hpass. destruct a as [action g1].
  step_run Hpass. destruct a as [b1 g2].
  apply BanditFacts.record_action_bandit in Hpass as [Hb _].
  apply step_header in E0 as (Hn' & Hi' & Hc'). rewrite Hb in *.
  repeat split; congruence.
Qed.

Lemma reset_fresh (b b0 : Bandits Name) :
  bandit_name b = bandit_name b0 ->
  initial b = initial b0 ->
  BanditFacts.truth (bandit_df b) = BanditFacts.truth (bandit_df b0) ->
  fresh_frame (initial b0) (bandit_df b0) ->
  reset_bandit_df b = b0.
Proof.
  destruct b as [names init df], b0 as [names0 init0 df0].
  cbn [bandit_name initial bandit_df]. intros -> -> Htruth Hfresh.
  unfold reset_bandit_df, set_bandit_df. cbn [bandit_name initial bandit_df]. f_equal.
  revert df Htruth. induction Hfresh as [|[n0 c0] df0 [Hcount Hq] _ IH];
    intros [|[n c] df] Htruth; try discriminate; [reflexivity|].
  cbn [BanditFacts.truth map fst snd] in Htruth. injection Htruth as Hn Hm Hs Htruth.
  cbn [map fst snd]. f_equal; [|apply IH, Htruth].
  destruct c0 as [m0 s0 k0 q0]. cbn in *. subst. reflexivity.
Qed.

(** X16.  reset_bandit_df undoes the learning: after any run of
    Greedy.simulate or UCB.simulate on a bandit that __init__ built, resetting
    the frame gives back the bandit as it was built. *)
Theorem reset_after_simulate (names : list Name) (q_mean q_sd : list float)
  (init : float) (b0 : Bandits Name) (greedy : Greedy) (ucb : UCB)
  (time : nat) (g : rng) (s : Simulation Name rng) :
  Bandits_init names q_mean q_sd init = Ret b0 ->
  Greedy_simulate greedy b0 time g = Ret s \/ UCB_simulate ucb b0 time g = Ret s ->
  reset_bandit_df (sim_bandit s) = b0.
Proof.
  intros Hinit Hrun. apply Bandits_init_fresh in Hinit as [<- Hfresh].
  assert (Hkeep : bandit_name (sim_bandit s) = bandit_name b0
                  /\ initial (sim_bandit s) = initial b0
                  /\ map fst (bandit_df (sim_bandit s)) = map fst (bandit_df b0)
                  /\ BanditFacts.truth (bandit_df (sim_bandit s))
                     = BanditFacts.truth (bandit_df b0)).
  { destruct Hrun as [Hrun|Hrun];
      [rewrite BanditFacts.Greedy_simulate_pass in Hrun
      |rewrite BanditFacts.UCB_simulate_pass in Hrun];
      apply simulate_header in Hrun; exact Hrun. }
  destruct Hkeep as (Hn & Hi & _ & Ht). apply reset_fresh; assumption.
Qed.

Lemma choice_elem {A : Type} (l : list A) (g g' : rng) (a : A) :
  choice l g = Ret (a, g') -> a ∈ l.
Proof.
  unfold choice. intros Hrun. destruct l as [|x l]; [discriminate|].
  destruct (np_random_choice (length (x :: l)) g) as [i g1].
  step_run Hrun. injection Hrun as <- _.
  unfold or_raise in E. destruct (_ !! i) as [y|] eqn:Hy; [|discriminate].
  injection E as <-. eapply list_elem_of_lookup_2, Hy.
Qed.

Lemma maximizers_columns (b : Bandits Name) (a : Name) :
  a ∈ maximizers b -> a ∈ map fst (bandit_df b).
Proof.
  unfold maximizers. rewrite !list_elem_of_In, !in_map_iff.
  intros (p & Hp & Hin). apply filter_In in Hin as [Hin _]. eauto.
Qed.

Lemma df_get_column (df : list (Name * Column)) (a : Name) :
  NoDup (map fst df) -> a ∈ map fst df ->
  exists c, df_get df a = Some c /\ (a, c) ∈ df.
Proof.
  induction df as [|[n c] df IH]; cbn [map fst df_get]; intros Hnd Hin;
    [inversion Hin|].
  apply NoDup_cons in Hnd as [Hn Hnd].
  destruct (decide (n = a)) as [->|Hne].
  - exists c. rewrite bool_decide_eq_false_2 by exact Hn.
    split; [reflexivity|apply list_elem_of_here].
  - apply elem_of_cons in Hin as [Hin|Hin]; [congruence|].
    destruct (IH Hnd Hin) as (c' & Hc' & Hin'). exists c'.
    split; [exact Hc'|apply list_elem_of_further, Hin'].
Qed.

Lemma UCB_act_column (self : UCB) (b : Bandits Name) (num : nat) (g g' : rng)
  (a : Name) :
  UCB_act self b num g = Ret (a, g') -> a ∈ map fst (bandit_df b).
Proof.
  unfold UCB_act. intros Hrun. step_run Hrun. destruct a0 as [i g1].
  step_run Hrun. injection Hrun as <- _.
  unfold or_raise in E0. destruct (bandit_df b !! i) as [[n c]|] eqn:Hi; [|discriminate].
  cbn in E0. injection E0 as <-.
  apply list_elem_of_In, in_map_iff. exists (n, c).
  split; [reflexivity|]. eapply list_elem_of_In, list_elem_of_lookup_2, Hi.
Qed.

(** X17.  The arm _act returns is an arm _step can look up.  UCB._act
    returns a column name of the frame, and so does the exploiting branch of
    Greedy._act; its exploring branch returns a name of bandit_name.  So
    when the column names are distinct and every name of bandit_name is a
    column of the frame, _step on the arm that _act returned does not raise
    KeyError: it returns, unless the deviation of that arm is one that
    np.random.normal rejects, and then it raises ValueError. *)
Theorem step_accepts_the_arm_of_act (greedy : Greedy) (ucb : UCB) (b : Bandits Name) :
  NoDup (map fst (bandit_df b)) ->
  (forall n, n ∈ bandit_name b -> n ∈ map fst (bandit_df b)) ->
  (forall g a g1,
      Greedy_act greedy b g = Ret (a, g1) ->
      exists c,
        (a, c) ∈ bandit_df b
        /\ (scale_rejected (sd c) = false ->
            exists b' g2, Greedy_step greedy b a g1 = Ret (b', g2))
        /\ (scale_rejected (sd c) = true ->
            Greedy_step greedy b a g1 = Raise ValueError))
  /\ (forall num g a g1,
        UCB_act ucb b num g = Ret (a, g1) ->
        exists c,
          (a, c) ∈ bandit_df b
          /\ (scale_rejected (sd c) = false ->
              exists b' g2, UCB_step ucb b a g1 = Ret (b', g2))
          /\ (scale_rejected (sd c) = true ->
              UCB_step ucb b a g1 = Raise ValueError)).
Proof.
  intros Hnd Hnames. split.
  - intros g a g1 Hact. unfold Greedy_act in Hact.
    destruct (np_random_rand g) as [u g0].
    assert (Hin : a ∈ map fst (bandit_df b)).
    { destruct (PrimFloat.ltb u (epsilon greedy)); apply choice_elem in Hact;
        [apply Hnames, Hact|apply maximizers_columns, Hact]. }
    destruct (df_get_column _ _ Hnd Hin) as (c & Hc & Hcol). exists c.
    split; [exact Hcol|]. split; intros Hsd.
    + eapply BanditFacts.step_returns; eassumption.
    + eapply BanditFacts.step_ValueError; eassumption.
  - intros num g a g1 Hact. apply UCB_act_column in Hact.
    destruct (df_get_column _ _ Hnd Hact) as (c & Hc & Hcol). exists c.
    split; [exact Hcol|]. split; intros Hsd.
    + eapply BanditFacts.step_returns; eassumption.
    + eapply BanditFacts.step_ValueError; eassumption.
Qed.

Lemma record_action_count (b : Bandits Name) (g : rng) (s s' : Simulation Name rng)
  (num : nat) (action : Name) :
  record_action b g s num action = Ret s' ->
  (best_action_count s <= best_action_count s' <= best_action_count s + 1)%Z.
Proof.
  unfold record_action. intros Hrun. step_run Hrun.
  destruct (bool_decide _); injection Hrun as <-; cbn; lia.
Qed.

Lemma simulate_count (act : Bandits Name -> nat -> rng -> run (Name * rng))
  (sample_averages : bool) (step_size : float) (xs : list nat)
  (s s' : Simulation Name rng) :
  for_each xs (BanditFacts.simulate_pass act sample_averages step_size) s = Ret s' ->
  (best_action_count s <= best_action_count s'
   <= best_action_count s + Z.of_nat (length xs))%Z.
Proof.
  revert s. induction xs as [|x xs IH]; intros s Hrun; cbn [for_each] in Hrun.
  - injection Hrun as <-. cbn [length]. lia.
  - step_run Hrun. apply IH in Hrun.
    unfold BanditFacts.simulate_pass in E. step_run E. destruct a0 as [action g1].
    step_run E. destruct a0 as [b1 g2]. apply record_action_count in E.
    cbn [length]. lia.
Qed.

(** X18.  simulate counts at most one best action per step: after time
    steps of Greedy.simulate or UCB.simulate the count of best actions is
    between 0 and time, and the recorded series, one entry per best action,
    has at most time entries. *)
Theorem simulate_counts_within_time (greedy : Greedy) (ucb : UCB) (b : Bandits Name)
  (time : nat) (g : rng) (s : Simulation Name rng) :
  Greedy_simulate greedy b time g = Ret s \/ UCB_simulate ucb b time g = Ret s ->
  (0 <= best_action_count s <= Z.of_nat time)%Z
  /\ (length (best_action_percentage s) <= time)%nat.
Proof.
  intros Hrun.
  assert (Hboth : (0 <= best_action_count s <= Z.of_nat time)%Z
                  /\ Z.of_nat (length (best_action_percentage s)) = best_action_count s).
  { destruct Hrun as [Hrun|Hrun];
      [rewrite BanditFacts.Greedy_simulate_pass in Hrun
      |rewrite BanditFacts.UCB_simulate_pass in Hrun];
      (split; [apply simulate_count in Hrun; cbn [best_action_count] in Hrun;
               rewrite length_seq in Hrun; lia
              |apply BanditFacts.simulate_spec in Hrun as [_ Hlen]; exact Hlen]). }
  destruct Hboth as [Hcount Hlen]. split; [exact Hcount|lia].
Qed.

(** X19.  The best arm of simulate is the first column with the largest
    mean: on a frame with at least one arm and no NaN among the means,
    idxmax gives the name of the column at the position of the first
    largest mean, so of several arms sharing the largest mean only the first
    in column order counts as the best action. *)
Theorem best_arm_is_the_first_maximum (df : list (Name * Column)) :
  df <> [] ->
  (forall p, p ∈ df -> PrimFloat.is_nan (mean p.2) = false) ->
  exists i n c,
    idxmax_mean df = Ret (Some n)
    /\ df !! i = Some (n, c)
    /\ FloatOrder.first_maximum (map (fun p => mean (snd p)) df) i.
Proof.
  intros Hne Hnan.
  assert (Hrow : map (fun p : Name * Column => mean (snd p)) df <> []).
  { destruct df; [congruence|discriminate]. }
  assert (Hnan' : forall x, x ∈ map (fun p : Name * Column => mean (snd p)) df
                            -> PrimFloat.is_nan x = false).
  { intros x Hx. apply list_elem_of_In, in_map_iff in Hx as (p & <- & Hp).
    apply Hnan, list_elem_of_In, Hp. }
  destruct (FloatOrder.series_argmax_spec _ Hrow Hnan') as (i & Hi & Hmax).
  assert (Hlt : (i < length df)%nat).
  { destruct Hmax as (M & HM & _). apply lookup_lt_Some in HM.
    rewrite length_map in HM. exact HM. }
  destruct (lookup_lt_is_Some_2 _ _ Hlt) as [[n c] Hnc].
  exists i, n, c. split; [|split; [exact Hnc|exact Hmax]].
  unfold idxmax_mean. unfold Float.series_argmax in Hi.
  destruct (map (fun p : Name * Column => mean (snd p)) df) as [|x xs]; [congruence|].
  destruct (forallb PrimFloat.is_nan (x :: xs)); [discriminate|].
  injection Hi as ->. rewrite Hnc. reflexivity.
Qed.

End WithArms.

(** Two steps of Greedy.simulate on the two-armed bandit move the estimates
    of both arms; the reset gives the bandit back. *)
Lemma reset_after_simulate_witness :
  exists s,
    Bandit.Greedy_simulate TwoArms.greedy TwoArms.bandit 2
      [Script.F 0.5; Script.I 0; Script.F (-1); Script.F 0.5; Script.I 0; Script.F 0]
    = Ret s
    /\ Bandit.df_get (Bandit.bandit_df (Bandit.sim_bandit s)) "A"%string
       = Some {| Bandit.mean := 0; Bandit.sd := 1; Bandit.action_count := 1;
                 Bandit.q_estimation := (-1)%float |}
    /\ Bandit.reset_bandit_df (Bandit.sim_bandit s) = TwoArms.bandit.
Proof.
  eexists. split; [vm_compute; reflexivity|]. split; [vm_compute; reflexivity|].
  apply (reset_after_simulate (rng := Script.tape) ["A"; "B"]%string
           [0%float; 1%float] [1%float; 1%float] 0%float TwoArms.bandit
           TwoArms.greedy TwoArms.ucb 2
           [Script.F 0.5; Script.I 0; Script.F (-1); Script.F 0.5; Script.I 0; Script.F 0]).
  - vm_compute. reflexivity.
  - left. vm_compute. reflexivity.
Defined.

(** Exploiting on the fresh two-armed bandit with the draw of position 1
    returns arm B, and _step on B returns. *)
Lemma step_accepts_the_arm_of_act_witness :
  Bandit.Greedy_act TwoArms.greedy TwoArms.bandit [Script.F 0.5; Script.I 1; Script.F 0]
  = Ret ("B"%string, [Script.F 0])
  /\ exists b' g2,
      Bandit.Greedy_step TwoArms.greedy TwoArms.bandit "B"%string [Script.F 0]
      = Ret (b', g2).
Proof.
  assert (Hact : Bandit.Greedy_act TwoArms.greedy TwoArms.bandit
                   [Script.F 0.5; Script.I 1; Script.F 0]
                 = Ret ("B"%string, [Script.F 0])) by (vm_compute; reflexivity).
  split; [exact Hact|].
  assert (Hnd : NoDup (map fst (Bandit.bandit_df TwoArms.bandit))).
  { apply NoDup_cons. split; [|apply NoDup_singleton].
    intros Hin. apply list_elem_of_singleton in Hin. discriminate. }
  destruct (proj1 (step_accepts_the_arm_of_act (rng := Script.tape) TwoArms.greedy
                     TwoArms.ucb TwoArms.bandit Hnd (fun n Hn => Hn)) _ _ _ Hact)
    as (c & Hc & Hok & _).
  apply Hok. unfold TwoArms.bandit in Hc. cbn [Bandit.bandit_df] in Hc.
  apply elem_of_cons in Hc as [Hc|Hc]; [discriminate Hc|].
  apply elem_of_cons in Hc as [Hc|Hc]; [injection Hc as ->; reflexivity|inversion Hc].
Defined.

Lemma simulate_counts_within_time_witness :
  exists s,
    Bandit.Greedy_simulate TwoArms.greedy TwoArms.bandit 2
      [Script.F 0.5; Script.I 0; Script.F (-1); Script.F 0.5; Script.I 0; Script.F 0]
    = Ret s
    /\ Bandit.best_action_count s = 1%Z
    /\ (0 <= Bandit.best_action_count s <= Z.of_nat 2)%Z
    /\ (length (Bandit.best_action_percentage s) <= 2)%nat.
Proof.
  eexists. split; [vm_compute; reflexivity|]. split; [reflexivity|].
  apply (simulate_counts_within_time (rng := Script.tape) TwoArms.greedy TwoArms.ucb
           TwoArms.bandit 2
           [Script.F 0.5; Script.I 0; Script.F (-1); Script.F 0.5; Script.I 0; Script.F 0]).
  left. vm_compute. reflexivity.
Defined.

(** Two arms sharing the mean 1: the best arm is A, the first. *)
Definition twins : list (string * Bandit.Column) :=
  [("A"%string, TwoArms.fresh 1); ("B"%string, TwoArms.fresh 1)].

Lemma best_arm_is_the_first_maximum_witness :
  Bandit.idxmax_mean twins = Ret (Some "A"%string)
  /\ exists i n c,
      Bandit.idxmax_mean twins = Ret (Some n)
      /\ twins !! i = Some (n, c)
      /\ FloatOrder.first_maximum (map (fun p => Bandit.mean (snd p)) twins) i.
Proof.
  split; [vm_compute; reflexivity|].
  apply (best_arm_is_the_first_maximum twins); [discriminate|].
  intros p Hp. repeat (apply elem_of_cons in Hp as [->|Hp]; [reflexivity|]).
  inversion Hp.
Defined.

End BanditRuns.

